(** * GATConv / NN: a shallow embedding of src/main.cpp

    The program defines three libtorch modules: [MLPImpl] (a stack of
    linear layers), [GATConvImpl] (a two-hop message-passing
    convolution) and [NNImpl] (one convolution, then a second one
    repeated [k - 1] times, then an edge-level read-out).

    Conventions of the embedding.
    - A C++ [int] is a [Z]; arithmetic on it goes through [int_wrap]
      (two's complement on 32 bits).  Signed overflow is undefined in
      C++; the theorems that depend on such arithmetic assume the exact
      result is representable.
    - A [double] is a primitive binary64 [float].
    - A two-dimensional tensor is a column count and a list of rows; a
      one-dimensional index tensor is a [list Z].
    - Tensor elements live in an abstract [Backend] (exact arithmetic).
    - A C++ exception is an [Err] result; module code that draws random
      numbers runs in the state monad [M].
    - The libtorch operations the program calls ([operator[]], [flip],
      [index_select], [cat], [operator*], [zeros], [index_add_], the
      [torch::nn] layers and their constructors) are modelled after
      their behaviour on the CPU, checks and exceptions included. *)

From Stdlib Require Import ZArith Floats String.
From stdpp Require Import base tactics option list.

Local Open Scope Z_scope.

(** ** Exceptions and results *)

(** The exception classes the program can raise: its own
    [std::invalid_argument], and libtorch's [c10::Error] (TORCH_CHECK)
    and [c10::IndexError] (TORCH_CHECK_INDEX). *)
Inductive exn : Type :=
  | invalid_argument (what : string)
  | c10_Error (what : string)
  | c10_IndexError (what : string).

Inductive res (A : Type) : Type :=
  | Ok (a : A)
  | Err (e : exn).
Arguments Ok {A} a.
Arguments Err {A} e.

#[global] Instance res_ret : MRet res := fun A a => Ok a.
#[global] Instance res_bind : MBind res := fun A B f m =>
  match m with
  | Ok a => f a
  | Err e => Err e
  end.

Definition is_ok {A} (r : res A) : bool :=
  match r with Ok _ => true | Err _ => false end.

Definition raised {A} (r : res A) : option exn :=
  match r with Ok _ => None | Err e => Some e end.

(** ** C++ [int] *)

Definition INT_MAX : Z := 2147483647.
Definition INT_MIN : Z := -2147483648.

Definition int_wrap (z : Z) : Z := (z + 2147483648) mod 4294967296 - 2147483648.
Definition int_add (a b : Z) : Z := int_wrap (a + b).
Definition int_sub (a b : Z) : Z := int_wrap (a - b).
Definition int_mul (a b : Z) : Z := int_wrap (a * b).

(** ** Tensors *)

(** [size1] is kept beside the rows: a tensor with no row still has a
    width in libtorch. *)
Record tensor (A : Type) : Type := Tensor {
  size1 : nat;
  data : list (list A)
}.
Arguments Tensor {A} size1 data.
Arguments size1 {A} t.
Arguments data {A} t.

Definition size0 {A} (t : tensor A) : nat := length (data t).

(** Every tensor libtorch hands out is rectangular. *)
Definition rectangular {A} (t : tensor A) : Prop :=
  Forall (fun r => length r = size1 t) (data t).

Definition in_range (n : nat) (i : Z) : bool := (0 <=? i) && (i <? Z.of_nat n).

(** [t[i]]: row [i] of a tensor, as a one-dimensional tensor. *)
Definition select {A} (t : tensor A) (i : nat) : res (list A) :=
  match data t !! i with
  | Some r => Ok r
  | None => Err (c10_IndexError "index out of bounds for dimension 0")
  end.

(** [t.flip(0)]: the rows in reverse order. *)
Definition flip0 {A} (t : tensor A) : tensor A :=
  Tensor (size1 t) (reverse (data t)).

Definition row_at {A} (rows : list (list A)) (i : Z) : res (list A) :=
  if in_range (length rows) i then
    match rows !! Z.to_nat i with
    | Some r => Ok r
    | None => Err (c10_IndexError "index out of range in self")
    end
  else Err (c10_IndexError "index out of range in self").

(** [t.index_select(0, index)]: the rows named by [index], in order.
    On the CPU every index is checked against [0, size0). *)
Definition index_select {A} (t : tensor A) (index : list Z) : res (tensor A) :=
  rows ← mapM (row_at (data t)) index;
  Ok (Tensor (size1 t) rows).

(** [torch::cat({a, b}, -1)] on two-dimensional tensors. *)
Definition cat2 {A} (a b : tensor A) : res (tensor A) :=
  if (size0 a =? size0 b)%nat then
    Ok (Tensor (size1 a + size1 b) (zip_with app (data a) (data b)))
  else Err (c10_Error "Sizes of tensors must match except in dimension 1").

(** [torch::cat(ts, -1)]. *)
Definition cat {A} (ts : list (tensor A)) : res (tensor A) :=
  match ts with
  | [] => Err (c10_Error "torch.cat(): expected a non-empty list of Tensors")
  | t :: ts => foldl (fun acc b => a ← acc; cat2 a b) (Ok t) ts
  end.

(** Broadcasting of one dimension. *)
Definition broadcast_dim (x y : nat) : res nat :=
  if (x =? y)%nat then Ok x
  else if (x =? 1)%nat then Ok y
  else if (y =? 1)%nat then Ok x
  else Err (c10_Error "The size of tensor a must match the size of tensor b").

Definition expand {A} (n : nat) (l : list A) : list A :=
  match l with
  | [x] => replicate n x
  | _ => l
  end.

Definition expand2 {A} (n m : nat) (t : tensor A) : list (list A) :=
  expand n (map (expand m) (data t)).

(** ** The arithmetic of tensor elements *)

Class Backend : Type := {
  R : Type;
  R0 : R;
  R1 : R;
  Radd : R -> R -> R;
  Rmul : R -> R -> R;
  (** [ActivationType], applied element by element. *)
  activation : R -> R;
  (** [EndActivationType]; [None] is [torch::nn::Identity]. *)
  end_activation : option (R -> R);
  (** The normalisation step of LayerNorm: an element within its row. *)
  standardize : list R -> R -> R;
  (** The default random generator. *)
  G : Type;
  (** The state of the generator after drawing [n] numbers. *)
  advance : G -> nat -> G;
  (** The initial weight [(o, i)] and bias [o] of a linear layer. *)
  init_weight : G -> nat -> nat -> nat -> nat -> R;
  init_bias : G -> nat -> nat -> nat -> R;
  (** The scaled keep mask of a dropout with probability [p] at [(i, j)]. *)
  dropout_mask : G -> float -> nat -> nat -> R
}.

(** Exact arithmetic: what the order-independence of a sum needs. *)
Class ExactArith (B : Backend) : Prop := {
  Radd_comm : forall x y : R, Radd x y = Radd y x;
  Radd_assoc : forall x y z : R, Radd x (Radd y z) = Radd (Radd x y) z
}.

Section Torch.
Context {B : Backend}.

Definition vec_add (u v : list R) : list R := zip_with Radd u v.

(** [a * b] with broadcasting, on two-dimensional tensors. *)
Definition mul (a b : tensor R) : res (tensor R) :=
  n ← broadcast_dim (size0 a) (size0 b);
  m ← broadcast_dim (size1 a) (size1 b);
  Ok (Tensor m (zip_with (zip_with Rmul) (expand2 n m a) (expand2 n m b))).

(** [torch::zeros({n, m})]. *)
Definition zeros (n m : nat) : tensor R := Tensor m (replicate n (replicate m R0)).

(** One step of [index_add_] along dimension 0: [self[i] += row]. *)
Definition index_add_step (acc : res (list (list R))) (ir : Z * list R)
  : res (list (list R)) :=
  rows ← acc;
  if in_range (length rows) ir.1 then
    Ok (alter (fun r => vec_add r ir.2) (Z.to_nat ir.1) rows)
  else Err (c10_IndexError "index out of range in self").

(** [self.index_add_(0, index, source)]: the rows of [source] are added
    one after the other, in the order of [index]. *)
Definition index_add_ (self : tensor R) (index : list Z) (source : tensor R)
  : res (tensor R) :=
  if negb (length index =? size0 source)%nat then
    Err (c10_IndexError "index_add_(): Number of indices should be equal to source.size(dim)")
  else if negb (size1 self =? size1 source)%nat then
    Err (c10_Error "index_add_(): source tensor shape must match self tensor shape")
  else
    rows ← foldl index_add_step (Ok (data self)) (zip index (data source));
    Ok (Tensor (size1 self) rows).

(** ** torch::nn layers *)

(** The modules a [torch::nn::Sequential] of the program holds.  A
    linear layer and a layer normalisation carry their parameters. *)
Inductive layer : Type :=
  | Linear (in_features out_features : Z) (weight : nat -> nat -> R) (bias : nat -> R)
  | LayerNorm (normalized_shape : Z) (gamma beta : nat -> R)
  | Activation
  | Dropout (p : float)
  | EndActivation (f : R -> R).

(** A ghost record of one call of a convolution's [forward]: the
    layers of the convolution called and two of its arguments. *)
Record event : Type := ForwardCall {
  callee : list layer;
  arg_node_attr : tensor R;
  arg_initial_node_attr : tensor R
}.

(** What module code reads and writes besides its arguments: the
    random generator, and the ghost trace of convolution calls. *)
Record world : Type := World {
  gen : G;
  trace : list event
}.

Definition M (A : Type) : Type := world -> res (A * world).

#[global] Instance M_ret : MRet M := fun A a w => Ok (a, w).
#[global] Instance M_bind : MBind M := fun A B f m w =>
  match m w with
  | Ok (a, w') => f a w'
  | Err e => Err e
  end.

Definition lift {A} (r : res A) : M A := fun w =>
  match r with
  | Ok a => Ok (a, w)
  | Err e => Err e
  end.

Definition throw {A} (e : exn) : M A := fun _ => Err e.

Definition draw (n : nat) : M G := fun w =>
  Ok (gen w, World (advance (gen w) n) (trace w)).

Definition record_call (e : event) : M unit := fun w =>
  Ok (tt, World (gen w) (trace w ++ [e])).

(** [torch::nn::Linear(in, out)]: the parameters are drawn at random. *)
Definition Linear_ctor (in_features out_features : Z) : M layer :=
  let i := Z.to_nat in_features in
  let o := Z.to_nat out_features in
  g ← draw (o * i + o);
  mret (Linear in_features out_features (init_weight g i o) (init_bias g i o)).

(** [torch::nn::LayerNorm(LayerNormOptions({n}))]: weight one, bias zero. *)
Definition LayerNorm_ctor (n : Z) : layer :=
  LayerNorm n (fun _ => R1) (fun _ => R0).

(** [torch::nn::Dropout(p)]: the constructor checks the probability
    ([TORCH_CHECK(p >= 0. && p <= 1., ...)] in its [reset]). *)
Definition Dropout_ctor (p : float) : res layer :=
  if (PrimFloat.leb 0 p && PrimFloat.leb p 1)%bool then Ok (Dropout p)
  else Err (c10_Error "dropout probability has to be between 0 and 1").

Definition dot (w : nat -> R) (x : list R) : R :=
  foldr (fun ix acc => Radd (Rmul ix.2 (w ix.1)) acc) R0 (zip (seq 0 (length x)) x).

Definition Linear_row (out_features : nat) (weight : nat -> nat -> R) (bias : nat -> R)
    (x : list R) : list R :=
  map (fun o => Radd (dot (weight o) x) (bias o)) (seq 0 out_features).

(** The forward pass of one layer.  The modules are never switched to
    evaluation mode, so a dropout layer draws a fresh mask. *)
Definition layer_forward (l : layer) (x : tensor R) : M (tensor R) :=
  match l with
  | Linear i o weight bias =>
      if Z.of_nat (size1 x) =? i then
        mret (Tensor (Z.to_nat o) (map (Linear_row (Z.to_nat o) weight bias) (data x)))
      else throw (c10_Error "mat1 and mat2 shapes cannot be multiplied")
  | LayerNorm n gamma beta =>
      if Z.of_nat (size1 x) =? n then
        mret (Tensor (size1 x)
          (map (fun r => imap (fun j v => Radd (Rmul (standardize r v) (gamma j)) (beta j)) r)
               (data x)))
      else throw (c10_Error "Given normalized_shape, expected input with matching shape")
  | Activation =>
      mret (Tensor (size1 x) (map (map activation) (data x)))
  | Dropout p =>
      g ← draw (size0 x * size1 x);
      mret (Tensor (size1 x)
        (imap (fun i r => imap (fun j v => Rmul v (dropout_mask g p i j)) r) (data x)))
  | EndActivation f =>
      mret (Tensor (size1 x) (map (map f) (data x)))
  end.

(** [torch::nn::Sequential::forward]. *)
Fixpoint Sequential_forward (model : list layer) (x : tensor R) : M (tensor R) :=
  match model with
  | [] => mret x
  | l :: model => y ← layer_forward l x; Sequential_forward model y
  end.

(** [for (int i = lo; i < hi; ++i) s = body(s)], run for at most
    [fuel] iterations. *)
Fixpoint for_int {S} (fuel : nat) (i hi : Z) (body : Z -> S -> M S) (s : S) : M S :=
  match fuel with
  | O => mret s
  | Datatypes.S fuel =>
      if i <? hi then s' ← body i s; for_int fuel (int_add i 1) hi body s'
      else mret s
  end.

End Torch.

(** ** MLPImpl (src/main.cpp, lines 11-95) *)

Module MLPImpl.
Section MLPImpl.
Context {B : Backend}.

Record t : Type := Build { model : list layer }.

(** The layers one hidden size contributes (lines 47-59 for the first,
    lines 63-75 for the others): linear, normalisation, activation,
    dropout. *)
Definition push_hidden (model : list layer) (prev h : Z) (dropout_prob : float)
    (use_layer_norm : bool) : M (list layer) :=
  l ← Linear_ctor prev h;
  let model := model ++ [l] in
  let model := if use_layer_norm then model ++ [LayerNorm_ctor h] else model in
  let model := model ++ [Activation] in
  if PrimFloat.ltb 0 dropout_prob then
    d ← lift (Dropout_ctor dropout_prob);
    mret (model ++ [d])
  else mret model.

(** The loop of lines 61-76, over [hidden_sizes[1..]]. *)
Fixpoint push_rest (model : list layer) (prev : Z) (rest : list Z) (dropout_prob : float)
    (use_layer_norm : bool) : M (list layer) :=
  match rest with
  | [] => mret model
  | h :: rest =>
      model ← push_hidden model prev h dropout_prob use_layer_norm;
      push_rest model h rest dropout_prob use_layer_norm
  end.

Definition ctor (input_size : Z) (hidden_sizes : list Z) (output_size : Z)
    (dropout_prob : float) (use_layer_norm : bool) : M t :=
  if input_size <? 1 then
    throw (invalid_argument "MLPImpl::MLPImpl: input_size cannot be less than one.")
  else if output_size <? 1 then
    throw (invalid_argument "MLPImpl::MLPImpl: output_size cannot be less than one.")
  else
    match hidden_sizes with
    | [] => throw (invalid_argument "MLPImpl::MLPImpl: hidden_sizes cannot be empty.")
    | h0 :: rest =>
        if existsb (fun it => it <? 1) hidden_sizes then
          throw (invalid_argument
            "MLPImpl::MLPImpl: All components of hidden_sizes must be greater than zero.")
        else
          model ← push_hidden [] input_size h0 dropout_prob use_layer_norm;
          model ← push_rest model h0 rest dropout_prob use_layer_norm;
          l ← Linear_ctor (List.last hidden_sizes 0) output_size;
          let model := model ++ [l] in
          mret (Build
            match end_activation with
            | Some f => model ++ [EndActivation f]
            | None => model
            end)
    end.

Definition forward (self : t) (x : tensor R) : M (tensor R) :=
  Sequential_forward (model self) x.

End MLPImpl.
End MLPImpl.

(** ** GATConvImpl (lines 105-211) *)

Module GATConvImpl.
Section GATConvImpl.
Context {B : Backend}.

Record t : Type := Build { mlp : MLPImpl.t }.

Definition ctor (input_node_attr_size : Z) (hidden_sizes : list Z)
    (output_node_attr_size initial_node_attr_size edge_attr_size : Z)
    (dropout_prob : float) (use_layer_norm : bool) : M t :=
  if input_node_attr_size <? 1 then
    throw (invalid_argument
      "GATConvImpl::GATConvImpl: input_node_attr_size cannot be less than one.")
  else if output_node_attr_size <? 1 then
    throw (invalid_argument
      "GATConvImpl::GATConvImpl: output_node_attr_size cannot be less than one.")
  else if initial_node_attr_size <? 1 then
    throw (invalid_argument
      "GATConvImpl::GATConvImpl: initial_node_attr_size cannot be less than one.")
  else if edge_attr_size <? 1 then
    throw (invalid_argument
      "GATConvImpl::GATConvImpl: edge_attr_size cannot be less than one.")
  else
    match hidden_sizes with
    | [] => throw (invalid_argument "GATConvImpl::GATConvImpl: hidden_sizes cannot be empty.")
    | _ :: _ =>
        if existsb (fun it => it <? 1) hidden_sizes then
          throw (invalid_argument
            "GATConvImpl::GATConvImpl: All components of hidden_sizes must be greater than zero.")
        else
          mlp ← MLPImpl.ctor
                  (int_add (int_add (int_mul 5 input_node_attr_size) initial_node_attr_size)
                           (int_mul 4 edge_attr_size))
                  hidden_sizes output_node_attr_size dropout_prob use_layer_norm;
          mret (Build mlp)
    end.

Definition message (edge_index : tensor Z) (node_attr edge_attr edge_weight : tensor R)
    (hop : Z) : res (tensor R) :=
  source_nodes ← select edge_index 0;
  node_attr_j ← index_select node_attr source_nodes;
  if hop =? 1 then
    c ← cat [node_attr_j; edge_attr];
    mul edge_weight c
  else
    mul edge_weight node_attr_j.

(** [num_nodes] is the number of rows of [node_attr], passed as an
    [int]; it is taken to fit. *)
Definition aggregate (edge_index : tensor Z) (messages : tensor R) (num_nodes : nat)
  : res (tensor R) :=
  target_nodes ← select edge_index 1;
  index_add_ (zeros num_nodes (size1 messages)) target_nodes messages.

Definition propagate (edge_index : tensor Z) (node_attr edge_attr edge_weight : tensor R)
    (hop : Z) : res (tensor R) :=
  messages ← message edge_index node_attr edge_attr edge_weight hop;
  aggregate edge_index messages (size0 node_attr).

Definition forward (self : t) (edge_index : tensor Z)
    (node_attr edge_attr edge_weight initial_node_attr : tensor R) : M (tensor R) :=
  _ ← record_call (ForwardCall (MLPImpl.model (mlp self)) node_attr initial_node_attr);
  let reversed_edge_index := flip0 edge_index in
  one_hop_incoming ← lift (propagate edge_index node_attr edge_attr edge_weight 1);
  one_hop_outgoing ← lift (propagate reversed_edge_index node_attr edge_attr edge_weight 1);
  two_hop_incoming ← lift (propagate edge_index one_hop_incoming edge_attr edge_weight 2);
  two_hop_outgoing ← lift (propagate reversed_edge_index one_hop_outgoing edge_attr edge_weight 2);
  combined ← lift (cat [initial_node_attr; node_attr;
                        one_hop_incoming; one_hop_outgoing;
                        two_hop_incoming; two_hop_outgoing]);
  MLPImpl.forward (mlp self) combined.

End GATConvImpl.
End GATConvImpl.

(** ** NNImpl (lines 221-278) *)

Module NNImpl.
Section NNImpl.
Context {B : Backend}.

Record t : Type := Build {
  gatconv1 : GATConvImpl.t;
  gatconv2 : GATConvImpl.t;
  mlp : MLPImpl.t;
  k : Z
}.

Definition ctor (node_attr_size : Z) (hidden_sizes_1 hidden_sizes_2 hidden_sizes_mlp : list Z)
    (output_node_attr_size edge_attr_size : Z) (dropout_prob : float)
    (use_layer_norm : bool) (k : Z) : M t :=
  gatconv1 ← GATConvImpl.ctor node_attr_size hidden_sizes_1 output_node_attr_size
                node_attr_size edge_attr_size dropout_prob use_layer_norm;
  gatconv2 ← GATConvImpl.ctor output_node_attr_size hidden_sizes_2 output_node_attr_size
                node_attr_size edge_attr_size dropout_prob use_layer_norm;
  mlp ← MLPImpl.ctor (int_mul 2 output_node_attr_size) hidden_sizes_mlp 1
                dropout_prob use_layer_norm;
  mret (Build gatconv1 gatconv2 mlp k).

(** The loop of lines 262-265 counts from [0] up to [k - 1]: that many
    units of fuel let it run to its end. *)
Definition forward (self : t) (edge_index : tensor Z)
    (node_attr edge_attr edge_weight : tensor R) : M (tensor R) :=
  output_node_attr ← GATConvImpl.forward (gatconv1 self) edge_index node_attr
                        edge_attr edge_weight node_attr;
  let bound := int_sub (k self) 1 in
  output_node_attr ← for_int (Z.to_nat bound) 0 bound
      (fun _ output_node_attr =>
         GATConvImpl.forward (gatconv2 self) edge_index output_node_attr
           edge_attr edge_weight node_attr)
      output_node_attr;
  source_nodes ← lift (select edge_index 0);
  node_attr_1 ← lift (index_select output_node_attr source_nodes);
  target_nodes ← lift (select edge_index 1);
  node_attr_2 ← lift (index_select output_node_attr target_nodes);
  output_edge_attr ← lift (cat [node_attr_1; node_attr_2]);
  MLPImpl.forward (mlp self) output_edge_attr.

End NNImpl.
End NNImpl.

(** ** main (lines 288-343): the synthetic graphs and the model

    [main] draws, for each of its hundred graphs, a number of nodes, a
    matrix of node features and a square matrix of uniform numbers,
    and builds the edges from the entries below the diagonal that
    exceed 0.7.  The random draws are arguments here; the single
    precision numbers of the square matrix are [float]s (each is one
    exactly, and no single precision number lies between the single
    and the double precision 0.7, so the comparison is the same). *)

(** [t.tril(diagonal)]: the entries [(i, j)] with [j - i <= diagonal],
    zero elsewhere. *)
Definition tril (t : tensor float) (diagonal : Z) : tensor float :=
  Tensor (size1 t)
    (imap (fun i row =>
             imap (fun j x => if Z.of_nat j - Z.of_nat i <=? diagonal then x else 0%float)
                  row)
          (data t)).

(** [t > c]. *)
Definition gt (t : tensor float) (c : float) : tensor bool :=
  Tensor (size1 t) (map (map (PrimFloat.ltb c)) (data t)).

(** [torch::argwhere(mask)]: the indices of the true entries, one
    [(i, j)] per row, in row-major order. *)
Definition argwhere (mask : tensor bool) : tensor Z :=
  Tensor 2
    (mjoin (imap (fun i row =>
                    mjoin (imap (fun j (b : bool) =>
                                   if b then [[Z.of_nat i; Z.of_nat j]] else [])
                                row))
                 (data mask))).

(** [t.transpose(0, 1)]. *)
Definition transpose (t : tensor Z) : tensor Z :=
  Tensor (size0 t)
    (map (fun j => map (fun r => default 0 (r !! j)) (data t)) (seq 0 (size1 t))).

(** Subtraction of tensor elements, which only [main] uses. *)
Class BackendSub (B : Backend) : Type := { Rsub : R -> R -> R }.

Section TorchMain.
Context {B : Backend} {BS : BackendSub B}.

(** [a - b] with broadcasting, on two-dimensional tensors. *)
Definition sub (a b : tensor R) : res (tensor R) :=
  n ← broadcast_dim (size0 a) (size0 b);
  m ← broadcast_dim (size1 a) (size1 b);
  Ok (Tensor m (zip_with (zip_with Rsub) (expand2 n m a) (expand2 n m b))).

(** [torch::ones({n, m})]. *)
Definition ones (n m : nat) : tensor R := Tensor m (replicate n (replicate m R1)).

End TorchMain.

Module Main.
Section Main.
Context {B : Backend} {BS : BackendSub B}.

(** What lines 306-311 store for one graph (the labels apart, which
    are random numbers of the shape of [graph_edge_weights]). *)
Record graph : Type := Graph {
  graph_node_features : tensor R;
  graph_edge_index : tensor Z;
  graph_edge_features : tensor R;
  graph_edge_weights : tensor R
}.

(** The double precision constant [0.7] of line 308. *)
Definition threshold : float := 0x1.6666666666666p-1.

(** Lines 306-311, given the two random matrices. *)
Definition make_graph (node_features : tensor R) (adjacency_matrix : tensor float)
  : res graph :=
  let edge_index := transpose (argwhere (gt (tril adjacency_matrix (-1)) threshold)) in
  source_nodes ← select edge_index 0;
  x_source ← index_select node_features source_nodes;
  target_nodes ← select edge_index 1;
  x_target ← index_select node_features target_nodes;
  edge_features ← sub x_source x_target;
  Ok (Graph node_features edge_index edge_features (ones (size1 edge_index) 1)).

(** Line 316: [NN<ReLU, Identity>(3, hidden_sizes, hidden_sizes,
    hidden_sizes_mlp, 32, 3)], the other arguments at their defaults
    (lines 232-234). *)
Definition model : M NNImpl.t :=
  NNImpl.ctor 3 [64; 64] [64; 64] [80; 80] 32 3 0 true 6.

(** Line 326: the forward pass of the training loop on one graph. *)
Definition predict (net : NNImpl.t) (g : graph) : M (tensor R) :=
  NNImpl.forward net (graph_edge_index g) (graph_node_features g)
    (graph_edge_features g) (graph_edge_weights g).

End Main.
End Main.

(** ** A concrete backend: integer arithmetic

    Used to run the definitions on concrete inputs.  The activation is
    ReLU, there is no end activation, and the generator is a counter. *)

#[global] Instance ZBackend : Backend := {|
  R := Z;
  R0 := 0;
  R1 := 1;
  Radd := Z.add;
  Rmul := Z.mul;
  activation := Z.max 0;
  end_activation := None;
  standardize := fun r v => 2 * v - foldr Z.max 0 r;
  G := nat;
  advance := fun g n => (g + n)%nat;
  init_weight := fun g _ _ o i => Z.of_nat (g + o + 2 * i) mod 3 - 1;
  init_bias := fun g _ _ o => Z.of_nat (g + o) mod 2;
  dropout_mask := fun g _ i j => Z.of_nat (g + i + j) mod 2
|}.

#[global] Instance ZBackend_exact : ExactArith ZBackend.
Proof. split; simpl; intros; lia. Qed.

#[global] Instance ZBackend_sub : BackendSub ZBackend := {| Rsub := Z.sub |}.

(** ** The shape of a graph input (section 3 of the specification) *)

(** The edges of a graph, one tuple per column of [edge_index]:
    source, target, feature row, weight row. *)
Definition edges {A} (source target : list Z) (edge_attr edge_weight : tensor A)
  : list (Z * Z * list A * list A) :=
  zip (zip (zip source target) (data edge_attr)) (data edge_weight).

(** [E] edges given as two index rows, [E] feature rows and an [E x 1]
    column of weights. *)
Record graph_shape {A} (source target : list Z) (edge_attr edge_weight : tensor A)
  : Prop := {
  gs_target : length target = length source;
  gs_attr : size0 edge_attr = length source;
  gs_weight : size0 edge_weight = length source;
  gs_weight_col : size1 edge_weight = 1%nat;
  gs_attr_rect : rectangular edge_attr;
  gs_weight_rect : rectangular edge_weight
}.

(** All indices are in [0, N). *)
Definition indices_ok (N : nat) (source target : list Z) : Prop :=
  Forall (fun i => in_range N i = true) (source ++ target).

(** ** Concrete inputs *)

(** A path graph on four nodes, [0 -> 1 -> 2 -> 3], with node features
    of width three, edge features of width two and unit weights. *)
Definition demo_source : list Z := [0; 1; 2].
Definition demo_target : list Z := [1; 2; 3].
Definition demo_edge_index : tensor Z := Tensor 3 [demo_source; demo_target].
Definition demo_node_attr : tensor Z := Tensor 3 [[1; 2; 3]; [4; 5; 6]; [7; 8; 9]; [1; 1; 1]].
Definition demo_edge_attr : tensor Z := Tensor 2 [[1; 0]; [0; 1]; [2; 2]].
Definition demo_edge_weight : tensor Z := Tensor 1 [[1]; [2]; [1]].
Definition demo_world : world := World (B := ZBackend) 0%nat [].

(** The same graph with its edges listed in another order. *)
Definition demo_source' : list Z := [2; 0; 1].
Definition demo_target' : list Z := [3; 1; 2].
Definition demo_edge_attr' : tensor Z := Tensor 2 [[2; 2]; [1; 0]; [0; 1]].
Definition demo_edge_weight' : tensor Z := Tensor 1 [[1]; [1]; [2]].

Definition demo_conv : GATConvImpl.t (B := ZBackend) :=
  GATConvImpl.Build (MLPImpl.Build [Activation]).

(** The network of the end-to-end scenario, built with [k] and run on
    the path graph: the shape of its result and the number of
    convolution calls it made. *)
Definition demo_run (k : Z) : res (nat * nat * nat) :=
  '(net, w) ← NNImpl.ctor (B := ZBackend) 3 [4; 4] [4; 4] [5; 5] 5 2 0 true k demo_world;
  '(y, w') ← NNImpl.forward net demo_edge_index demo_node_attr demo_edge_attr
               demo_edge_weight w;
  Ok (size0 y, size1 y, length (trace w')).

(** The path graph with a fifth node that no edge touches. *)
Definition demo_isolated_attr : tensor Z :=
  Tensor 3 [[1; 2; 3]; [4; 5; 6]; [7; 8; 9]; [1; 1; 1]; [2; 0; 2]].

(** A square matrix as line 307 draws it, for four nodes: below the
    diagonal the entries (1, 0), (2, 1) and (3, 0) exceed 0.7. *)
Definition demo_adjacency : tensor float :=
  Tensor 4 [[0.5%float; 0.875%float; 0.125%float; 0.25%float];
            [0.75%float; 0.5%float; 0.875%float; 0.25%float];
            [0.125%float; 0.875%float; 0.25%float; 0.875%float];
            [0.875%float; 0.25%float; 0.625%float; 0.5%float]].

(** ** The vocabulary of the statements *)

Section Vocabulary.
Context {B : Backend}.

(** The sum of a list of rows of width [w], added in list order to a
    zero row. *)
Definition sum_rows (w : nat) (rows : list (list R)) : list R :=
  foldl vec_add (replicate w R0) rows.

(** The rows sent to node [n]: those paired with target [n]. *)
Definition incoming (n : nat) (target : list Z) (rows : list (list R)) : list (list R) :=
  (filter (fun ir => ir.1 = Z.of_nat n) (zip target rows)).*2.

Definition nth_row (rows : list (list R)) (i : Z) : list R :=
  default [] (rows !! Z.to_nat i).

(** The message of one edge (lines 193-200). *)
Definition edge_message (node_attr : tensor R) (hop : Z)
    (e : Z * Z * list R * list R) : list R :=
  let '(s, _, a, w) := e in
  let x_j := nth_row (data node_attr) s in
  map (Rmul (default R0 (head w))) (if hop =? 1 then x_j ++ a else x_j).

Definition message_width (node_attr edge_attr : tensor R) (hop : Z) : nat :=
  if hop =? 1 then (size1 node_attr + size1 edge_attr)%nat else size1 node_attr.

(** The scatter-sum of the messages of a list of edges. *)
Definition scatter (N w : nat) (pairs : list (Z * list R)) : list (list R) :=
  map (fun n => sum_rows w (filter (fun ir => ir.1 = Z.of_nat n) pairs).*2) (seq 0 N).

Definition propagated (node_attr edge_attr : tensor R) (hop : Z)
    (es : list (Z * Z * list R * list R)) : tensor R :=
  Tensor (message_width node_attr edge_attr hop)
    (scatter (size0 node_attr) (message_width node_attr edge_attr hop)
       (map (fun e => (e.1.1.2, edge_message node_attr hop e)) es)).

(** [n] applications of [f], one after the other. *)
Fixpoint iterM {S} (n : nat) (f : S -> M S) (s : S) : M S :=
  match n with
  | O => mret s
  | Datatypes.S n => s' ← f s; iterM n f s'
  end.

(** The width that comes out of the layers [ls] when a tensor of width
    [i] goes in; [None] when some layer refuses its input. *)
Fixpoint out_width (i : Z) (ls : list layer) : option Z :=
  match ls with
  | [] => Some i
  | Linear a b _ _ :: ls => if (i =? a) && (0 <=? b) then out_width b ls else None
  | LayerNorm n _ _ :: ls => if i =? n then out_width i ls else None
  | _ :: ls => out_width i ls
  end.

Definition is_dropout (l : layer) : bool :=
  match l with Dropout _ => true | _ => false end.

(** A size constraint is violated (lines 22-43). *)
Definition size_violation (input_size : Z) (hidden_sizes : list Z) (output_size : Z) : Prop :=
  input_size < 1 \/ output_size < 1 \/ hidden_sizes = []
  \/ Exists (fun h => h < 1) hidden_sizes.

(** The probability passes where the constructor uses it: either no
    dropout layer is built, or libtorch accepts the probability. *)
Definition dropout_ok (p : float) : bool :=
  negb (PrimFloat.ltb 0 p) || (PrimFloat.leb 0 p && PrimFloat.leb p 1).

Definition dropout_error : exn :=
  c10_Error "dropout probability has to be between 0 and 1".

(** The layers one hidden size contributes. *)
Definition hidden_layers (g : G) (prev h : Z) (p : float) (use_layer_norm : bool)
  : list layer :=
  [Linear prev h (init_weight g (Z.to_nat prev) (Z.to_nat h))
                 (init_bias g (Z.to_nat prev) (Z.to_nat h))]
  ++ (if use_layer_norm then [LayerNorm_ctor h] else [])
  ++ [Activation]
  ++ (if PrimFloat.ltb 0 p then [Dropout p] else []).

Definition input_width (m : MLPImpl.t) : option Z :=
  match MLPImpl.model m with
  | Linear i _ _ _ :: _ => Some i
  | _ => None
  end.

Definition conv_violation (input_node_attr_size : Z) (hidden_sizes : list Z)
    (output_node_attr_size initial_node_attr_size edge_attr_size : Z) : Prop :=
  input_node_attr_size < 1 \/ output_node_attr_size < 1
  \/ initial_node_attr_size < 1 \/ edge_attr_size < 1
  \/ hidden_sizes = [] \/ Exists (fun h => h < 1) hidden_sizes.

(** The input width of the MLP of a convolution (line 151), computed
    exactly. *)
Definition combined_width (input_node_attr_size initial_node_attr_size edge_attr_size : Z)
  : Z :=
  5 * input_node_attr_size + initial_node_attr_size + 4 * edge_attr_size.

(** Two tensors side by side. *)
Definition hcat (a b : tensor R) : tensor R :=
  Tensor (size1 a + size1 b) (zip_with app (data a) (data b)).

(** The input of the MLP of a convolution: the six blocks of lines
    171-173, left to right. *)
Definition combined6 (t0 t1 t2 t3 t4 t5 : tensor R) : tensor R :=
  hcat (hcat (hcat (hcat (hcat t0 t1) t2) t3) t4) t5.

(** The four propagated blocks of a valid graph. *)
Definition hop1_in (source target : list Z) (node_attr edge_attr edge_weight : tensor R) :=
  propagated node_attr edge_attr 1 (edges source target edge_attr edge_weight).
Definition hop1_out (source target : list Z) (node_attr edge_attr edge_weight : tensor R) :=
  propagated node_attr edge_attr 1 (edges target source edge_attr edge_weight).
Definition hop2_in (source target : list Z) (node_attr edge_attr edge_weight : tensor R) :=
  propagated (hop1_in source target node_attr edge_attr edge_weight) edge_attr 2
    (edges source target edge_attr edge_weight).
Definition hop2_out (source target : list Z) (node_attr edge_attr edge_weight : tensor R) :=
  propagated (hop1_out source target node_attr edge_attr edge_weight) edge_attr 2
    (edges target source edge_attr edge_weight).

Definition combined (source target : list Z)
    (node_attr edge_attr edge_weight initial_node_attr : tensor R) : tensor R :=
  combined6 initial_node_attr node_attr
    (hop1_in source target node_attr edge_attr edge_weight)
    (hop1_out source target node_attr edge_attr edge_weight)
    (hop2_in source target node_attr edge_attr edge_weight)
    (hop2_out source target node_attr edge_attr edge_weight).

Record valid_input (source target : list Z)
    (node_attr edge_attr edge_weight initial_node_attr : tensor R) : Prop := {
  vi_shape : graph_shape source target edge_attr edge_weight;
  vi_indices : indices_ok (size0 node_attr) source target;
  vi_node_rect : rectangular node_attr;
  vi_init_rect : rectangular initial_node_attr;
  vi_init_rows : size0 initial_node_attr = size0 node_attr
}.

#[local] Instance size_violation_dec i hs o : Decision (size_violation i hs o).
Proof. unfold size_violation. apply _. Defined.

#[local] Instance conv_violation_dec i hs o n e : Decision (conv_violation i hs o n e).
Proof. unfold conv_violation. apply _. Defined.

(** The read-out of lines 266-271 on the final embedding. *)
Definition readout_input (source target : list Z) (x : tensor R) : tensor R :=
  hcat (Tensor (size1 x) (map (nth_row (data x)) source))
       (Tensor (size1 x) (map (nth_row (data x)) target)).

Definition readout (mlp : MLPImpl.t) (edge_index : tensor Z) (x : tensor R) : M (tensor R) :=
  source_nodes ← lift (select edge_index 0);
  node_attr_1 ← lift (index_select x source_nodes);
  target_nodes ← lift (select edge_index 1);
  node_attr_2 ← lift (index_select x target_nodes);
  output_edge_attr ← lift (cat [node_attr_1; node_attr_2]);
  MLPImpl.forward mlp output_edge_attr.

Definition range_error : exn := c10_IndexError "index out of range in self".

(** The result of a construction with the stored [k] replaced. *)
Definition with_k (k : Z) (r : res (NNImpl.t * world)) : res (NNImpl.t * world) :=
  match r with
  | Ok (n, w) =>
      Ok (NNImpl.Build (NNImpl.gatconv1 n) (NNImpl.gatconv2 n) (NNImpl.mlp n) k, w)
  | Err e => Err e
  end.

End Vocabulary.

(** ** More vocabulary: architecture, purity, the graphs of [main] *)

(** A layer without its parameters. *)
Inductive layer_kind : Type :=
  | KLinear (in_features out_features : Z)
  | KLayerNorm (normalized_shape : Z)
  | KActivation
  | KDropout (p : float)
  | KEndActivation.

Section MoreVocabulary.
Context {B : Backend}.

Definition kind_of (l : layer) : layer_kind :=
  match l with
  | Linear i o _ _ => KLinear i o
  | LayerNorm n _ _ => KLayerNorm n
  | Activation => KActivation
  | Dropout p => KDropout p
  | EndActivation _ => KEndActivation
  end.

(** The block of one hidden size: linear, then normalisation if asked
    for, then activation, then dropout if the probability is positive. *)
Definition hidden_kinds (p : float) (use_layer_norm : bool) (prev h : Z) : list layer_kind :=
  [KLinear prev h]
  ++ (if use_layer_norm then [KLayerNorm h] else [])
  ++ [KActivation]
  ++ (if PrimFloat.ltb 0 p then [KDropout p] else []).

(** The stack an MLP is meant to be: one block per hidden size, each
    fed by the size before it, a last linear layer, and the end
    activation when there is one. *)
Definition architecture (input_size : Z) (hidden_sizes : list Z) (output_size : Z)
    (p : float) (use_layer_norm : bool) : list layer_kind :=
  mjoin (zip_with (hidden_kinds p use_layer_norm) (input_size :: hidden_sizes) hidden_sizes)
  ++ [KLinear (List.last hidden_sizes 0) output_size]
  ++ match end_activation with Some _ => [KEndActivation] | None => [] end.

(** What the layers other than dropout do to one row. *)
Definition layer_row (l : layer) (r : list R) : list R :=
  match l with
  | Linear _ o weight bias => Linear_row (Z.to_nat o) weight bias r
  | LayerNorm _ gamma beta =>
      imap (fun j v => Radd (Rmul (standardize r v) (gamma j)) (beta j)) r
  | Activation => map activation r
  | Dropout _ => r
  | EndActivation f => map f r
  end.

Definition rows_through (ls : list layer) (r : list R) : list R :=
  foldl (fun r l => layer_row l r) r ls.

(** A computation that draws no random number: from every state it
    gives the same result and records the same calls, and it leaves
    the generator as it found it. *)
Definition draws_nothing {A} (m : M A) : Prop :=
  exists (r : res A) (calls : list event), forall w,
    m w = match r with
          | Ok a => Ok (a, World (gen w) (trace w ++ calls))
          | Err e => Err e
          end.

(** A size constraint of the network's constructor is violated: one
    of the first convolution, of the second, or of the reducer. *)
Definition nn_violation (node_attr_size : Z) (hidden_sizes_1 hidden_sizes_2
    hidden_sizes_mlp : list Z) (output_node_attr_size edge_attr_size : Z) : Prop :=
  conv_violation node_attr_size hidden_sizes_1 output_node_attr_size
    node_attr_size edge_attr_size
  \/ conv_violation output_node_attr_size hidden_sizes_2 output_node_attr_size
       node_attr_size edge_attr_size
  \/ size_violation (2 * output_node_attr_size) hidden_sizes_mlp 1.

Definition shape_error : exn := c10_Error "mat1 and mat2 shapes cannot be multiplied".

Definition cat_error : exn := c10_Error "Sizes of tensors must match except in dimension 1".

Definition row_error : exn := c10_IndexError "index out of bounds for dimension 0".

(** The entry [(i, j)] of a matrix. *)
Definition entry {A} (t : tensor A) (i j : nat) : option A :=
  data t !! i ≫= fun row => row !! j.

End MoreVocabulary.

(** ** Facts about the embedding *)

Section Facts.
Context {B : Backend}.

(** *** Gathering rows *)

Lemma in_range_spec N i : in_range N i = true <-> 0 <= i < Z.of_nat N.
Proof. unfold in_range. rewrite andb_true_iff, Z.leb_le, Z.ltb_lt. tauto. Qed.

Lemma row_at_ok (rows : list (list R)) i :
  in_range (length rows) i = true -> row_at rows i = Ok (nth_row rows i).
Proof.
  intros H. unfold row_at, nth_row. rewrite H.
  apply in_range_spec in H.
  destruct (rows !! Z.to_nat i) eqn:E; [done|].
  apply lookup_ge_None in E. lia.
Qed.

Lemma row_at_err (rows : list (list R)) i :
  in_range (length rows) i = false ->
  row_at rows i = Err (c10_IndexError "index out of range in self").
Proof. intros H. unfold row_at. by rewrite H. Qed.

Lemma mapM_row_at_ok (rows : list (list R)) index :
  Forall (fun i => in_range (length rows) i = true) index ->
  mapM (row_at rows) index = Ok (map (nth_row rows) index).
Proof.
  induction 1 as [|i index Hi _ IH]; [done|].
  cbn. rewrite row_at_ok by done. cbn. rewrite IH. done.
Qed.

Lemma mapM_row_at_err (rows : list (list R)) index :
  Exists (fun i => in_range (length rows) i = false) index ->
  mapM (row_at rows) index = Err (c10_IndexError "index out of range in self").
Proof.
  induction index as [|i index IH]; intros H; [by apply Exists_nil in H|].
  cbn. destruct (in_range (length rows) i) eqn:Hi.
  - rewrite row_at_ok by done. cbn.
    apply Exists_cons in H as [H|H]; [congruence|].
    by rewrite IH.
  - by rewrite row_at_err.
Qed.

Lemma index_select_ok (t : tensor R) index :
  Forall (fun i => in_range (size0 t) i = true) index ->
  index_select t index = Ok (Tensor (size1 t) (map (nth_row (data t)) index)).
Proof. intros H. unfold index_select. by rewrite mapM_row_at_ok. Qed.

Lemma index_select_err (t : tensor R) index :
  Exists (fun i => in_range (size0 t) i = false) index ->
  index_select t index = Err (c10_IndexError "index out of range in self").
Proof. intros H. unfold index_select. by rewrite mapM_row_at_err. Qed.

Lemma nth_row_length (t : tensor R) i :
  rectangular t -> in_range (size0 t) i = true ->
  length (nth_row (data t) i) = size1 t.
Proof.
  intros Hr Hi. apply in_range_spec in Hi. unfold nth_row.
  destruct (data t !! Z.to_nat i) as [r|] eqn:E.
  - cbn. by apply (Forall_lookup_1 _ _ _ _ Hr E).
  - apply lookup_ge_None in E. unfold size0 in Hi. lia.
Qed.

(** *** Broadcasting a column of weights over rows *)

Lemma expand_id {A} n (l : list A) : length l = n -> expand n l = l.
Proof. intros <-. by destruct l as [|? []]. Qed.

Lemma expand_singleton (m : nat) (w : list R) :
  length w = 1%nat -> expand m w = replicate m (default R0 (head w)).
Proof. destruct w as [|x []]; by intros. Qed.

Lemma zip_with_replicate_l (x : R) (l : list R) m :
  length l = m -> zip_with Rmul (replicate m x) l = map (Rmul x) l.
Proof. intros <-. induction l; cbn; congruence. Qed.

Lemma broadcast_dim_same n : broadcast_dim n n = Ok n.
Proof. unfold broadcast_dim. by rewrite Nat.eqb_refl. Qed.

Lemma broadcast_dim_one m : broadcast_dim 1 m = Ok m.
Proof.
  unfold broadcast_dim. destruct (1 =? m)%nat eqn:E; [|done].
  apply Nat.eqb_eq in E. by subst.
Qed.

(** Multiplying an [E x m] tensor by an [E x 1] column scales each row
    by the weight of its edge. *)
Lemma mul_column (edge_weight c : tensor R) :
  size0 edge_weight = size0 c -> size1 edge_weight = 1%nat ->
  rectangular edge_weight -> rectangular c ->
  mul edge_weight c =
    Ok (Tensor (size1 c)
          (zip_with (fun w r => map (Rmul (default R0 (head w))) r)
                    (data edge_weight) (data c))).
Proof.
  intros H0 H1 Hw Hc. unfold mul. rewrite H0, H1, broadcast_dim_same, broadcast_dim_one.
  cbn. do 2 f_equal. unfold expand2.
  rewrite !expand_id by (rewrite length_map; done).
  unfold rectangular in *. rewrite H1 in Hw. clear H0 H1.
  revert Hw Hc. generalize (size1 c) as m. generalize (data c) as rows.
  induction (data edge_weight) as [|w ws IH]; intros [|r rows] m Hw Hc; try done.
  apply Forall_cons in Hw as [Hw1 Hw], Hc as [Hc1 Hc].
  cbn [map zip_with]. f_equal; [|by apply IH].
  rewrite expand_singleton, (expand_id _ r) by done.
  by apply zip_with_replicate_l.
Qed.

Lemma cat2_ok (a b : tensor R) :
  size0 a = size0 b ->
  cat2 a b = Ok (Tensor (size1 a + size1 b) (zip_with app (data a) (data b))).
Proof. intros H. unfold cat2. rewrite H, Nat.eqb_refl. done. Qed.

(** *** The message function in closed form *)

Lemma edge_rows_hop1 (f : Z -> list R) source target (eas ews : list (list R)) :
  length target = length source -> length eas = length source ->
  length ews = length source ->
  zip_with (fun w r => map (Rmul (default R0 (head w))) r) ews
           (zip_with app (map f source) eas)
  = map (fun e : Z * Z * list R * list R =>
           let '(s, _, a, w) := e in map (Rmul (default R0 (head w))) (f s ++ a))
        (zip (zip (zip source target) eas) ews).
Proof.
  revert target eas ews.
  induction source as [|s source IH]; intros [|t target] [|a eas] [|w ews]; try done.
  cbn. intros ???. f_equal. apply IH; lia.
Qed.

Lemma edge_rows_hop2 (f : Z -> list R) source target (eas ews : list (list R)) :
  length target = length source -> length eas = length source ->
  length ews = length source ->
  zip_with (fun w r => map (Rmul (default R0 (head w))) r) ews (map f source)
  = map (fun e : Z * Z * list R * list R =>
           let '(s, _, a, w) := e in map (Rmul (default R0 (head w))) (f s))
        (zip (zip (zip source target) eas) ews).
Proof.
  revert target eas ews.
  induction source as [|s source IH]; intros [|t target] [|a eas] [|w ews]; try done.
  cbn. intros ???. f_equal. apply IH; lia.
Qed.

Lemma message_closed_form E source target (node_attr edge_attr edge_weight : tensor R) hop :
  graph_shape source target edge_attr edge_weight ->
  rectangular node_attr ->
  Forall (fun i => in_range (size0 node_attr) i = true) source ->
  GATConvImpl.message (Tensor E [source; target]) node_attr edge_attr edge_weight hop
  = Ok (Tensor (message_width node_attr edge_attr hop)
          (map (edge_message node_attr hop) (edges source target edge_attr edge_weight))).
Proof.
  intros [Ht Ha Hw Hc Har Hwr] Hn Hs.
  unfold GATConvImpl.message, message_width, edges, edge_message. cbn.
  rewrite index_select_ok by done. cbn -[cat].
  assert (Hrows : rectangular (Tensor (size1 node_attr) (map (nth_row (data node_attr)) source))).
  { unfold rectangular. cbn. apply Forall_map.
    eapply Forall_impl; [exact Hs|]. intros i Hi. by apply nth_row_length. }
  destruct (hop =? 1).
  - rewrite cat2_ok by (unfold size0; cbn; rewrite length_map; done).
    cbn [mbind res_bind data size1].
    rewrite mul_column; cbn [data size1]; try done.
    + do 2 f_equal. by apply edge_rows_hop1.
    + unfold size0 in *. cbn. rewrite length_zip_with, length_map. lia.
    + unfold rectangular in *. cbn in *.
      apply Forall_zip_with_fst with (P := fun r => length r = size1 node_attr); [done|].
      eapply Forall_impl; [exact Har|].
      intros y Hy x Hx. cbn beta in *. by rewrite length_app, Hx, Hy.
  - rewrite mul_column; cbn [data size1]; try done.
    + do 2 f_equal. by apply edge_rows_hop2.
    + unfold size0 in *. cbn. rewrite length_map. lia.
Qed.

(** *** The scatter-sum in closed form *)

Lemma index_add_fold_err pairs e :
  foldl index_add_step (Err e) pairs = Err e.
Proof. induction pairs as [|ir pairs IH]; [done|]. cbn. apply IH. Qed.

Lemma index_add_fold_ok (pairs : list (Z * list R)) (acc : list (list R)) :
  Forall (fun ir => in_range (length acc) ir.1 = true) pairs ->
  foldl index_add_step (Ok acc) pairs
  = Ok (imap (fun n r => foldl vec_add r (filter (fun ir => ir.1 = Z.of_nat n) pairs).*2) acc).
Proof.
  revert acc. induction pairs as [|[i r] pairs IH]; intros acc Hall.
  - cbn. f_equal. apply list_eq. intros n.
    rewrite list_lookup_imap. by destruct (acc !! n).
  - apply Forall_cons in Hall as [Hi Hall]. cbn in Hi.
    cbn [foldl]. unfold index_add_step at 2. cbn [mbind res_bind fst snd].
    rewrite Hi, IH by (rewrite length_alter; done).
    f_equal. apply list_eq. intros n. rewrite !list_lookup_imap.
    apply in_range_spec in Hi.
    rewrite filter_cons. cbn [fst].
    destruct (decide (Z.to_nat i = n)) as [<-|Hne].
    + rewrite list_lookup_alter_eq.
      rewrite decide_True by lia.
      by destruct (acc !! Z.to_nat i).
    + rewrite list_lookup_alter_ne by done.
      rewrite decide_False by lia. done.
Qed.

Lemma index_add_fold_range (pairs : list (Z * list R)) (acc : list (list R)) :
  Exists (fun ir => in_range (length acc) ir.1 = false) pairs ->
  foldl index_add_step (Ok acc) pairs = Err (c10_IndexError "index out of range in self").
Proof.
  revert acc. induction pairs as [|[i r] pairs IH]; intros acc Hex.
  - by apply Exists_nil in Hex.
  - cbn [foldl]. unfold index_add_step at 2. cbn [mbind res_bind fst snd].
    destruct (in_range (length acc) i) eqn:Hi.
    + apply Exists_cons in Hex as [Hex|Hex]; [cbn in Hex; congruence|].
      apply IH. by rewrite length_alter.
    + apply index_add_fold_err.
Qed.

Lemma imap_replicate {A C} (f : nat -> A -> C) n (x : A) :
  imap f (replicate n x) = map (fun i => f i x) (seq 0 n).
Proof.
  apply list_eq. intros i. rewrite list_lookup_imap, list_lookup_fmap.
  destruct (decide (i < n)%nat) as [Hlt|Hge].
  - rewrite lookup_replicate_2, lookup_seq_lt by done. done.
  - rewrite (proj1 (lookup_replicate_None n x i)), lookup_seq_ge by lia. done.
Qed.

Lemma aggregate_closed_form E source target (messages : tensor R) N :
  length target = size0 messages ->
  Forall (fun i => in_range N i = true) target ->
  GATConvImpl.aggregate (Tensor E [source; target]) messages N
  = Ok (Tensor (size1 messages)
          (map (fun n => sum_rows (size1 messages) (incoming n target (data messages)))
               (seq 0 N))).
Proof.
  intros Hlen Hall. unfold GATConvImpl.aggregate, index_add_. cbn.
  rewrite Hlen, !Nat.eqb_refl. cbn.
  rewrite index_add_fold_ok.
  - cbn. by rewrite imap_replicate.
  - rewrite length_replicate.
    apply Forall_forall. intros [i r] Hin. cbn.
    apply elem_of_zip_l in Hin. by eapply Forall_forall in Hall.
Qed.

Lemma sum_rows_length w (rows : list (list R)) :
  Forall (fun r => length r = w) rows -> length (sum_rows w rows) = w.
Proof.
  unfold sum_rows. generalize (replicate w R0) (length_replicate w R0).
  intros z Hz H. revert z Hz.
  induction H as [|r rows Hr _ IH]; intros z Hz; [done|].
  cbn. apply IH. unfold vec_add. rewrite length_zip_with. lia.
Qed.

Lemma incoming_rect n target w (rows : list (list R)) :
  Forall (fun r => length r = w) rows ->
  Forall (fun r => length r = w) (incoming n target rows).
Proof.
  intros H. unfold incoming. apply Forall_fmap, Forall_forall.
  intros [i r] Hin. cbn. apply list_elem_of_filter in Hin as [_ Hin].
  apply elem_of_zip_r in Hin. by eapply Forall_forall in H.
Qed.

Lemma incoming_none n target (rows : list (list R)) :
  Z.of_nat n ∉ target -> incoming n target rows = [].
Proof.
  intros Hn. unfold incoming.
  induction (zip target rows) as [|[i r] l IH] eqn:Hz in target, rows, Hn |- *; [done|].
  destruct target as [|t target], rows as [|r' rows]; try done.
  cbn in Hz. injection Hz as -> -> <-.
  rewrite filter_cons. cbn [fst].
  rewrite decide_False by (intros ->; apply Hn; left).
  eapply IH; [|done]. intros H. apply Hn. by right.
Qed.

(** *** Propagation in closed form *)

Lemma edges_length (source target : list Z) (edge_attr edge_weight : tensor R) :
  graph_shape source target edge_attr edge_weight ->
  length (edges source target edge_attr edge_weight) = length source.
Proof.
  intros [Ht Ha Hw _ _ _]. unfold edges, size0 in *. rewrite !length_zip. lia.
Qed.

Lemma edges_sources (source target : list Z) (edge_attr edge_weight : tensor R) :
  graph_shape source target edge_attr edge_weight ->
  map (fun e => e.1.1.1) (edges source target edge_attr edge_weight) = source.
Proof.
  intros [Ht Ha Hw _ _ _]. unfold edges, size0 in *.
  revert Ht Ha Hw. generalize (data edge_attr) (data edge_weight). revert target.
  induction source as [|s source IH]; intros [|t target] [|a eas] [|w ews]; try done.
  cbn. intros ???. f_equal. apply IH; lia.
Qed.

Lemma edges_targets (source target : list Z) (edge_attr edge_weight : tensor R) :
  graph_shape source target edge_attr edge_weight ->
  map (fun e => e.1.1.2) (edges source target edge_attr edge_weight) = target.
Proof.
  intros [Ht Ha Hw _ _ _]. unfold edges, size0 in *.
  revert Ht Ha Hw. generalize (data edge_attr) (data edge_weight). revert target.
  induction source as [|s source IH]; intros [|t target] [|a eas] [|w ews]; try done.
  cbn. intros ???. f_equal. apply IH; lia.
Qed.

Lemma zip_map_r {A C D} (f : A -> C) (g : A -> D) (l : list A) :
  zip (map f l) (map g l) = map (fun x => (f x, g x)) l.
Proof. induction l; cbn; congruence. Qed.

Lemma graph_shape_flip (source target : list Z) (edge_attr edge_weight : tensor R) :
  graph_shape source target edge_attr edge_weight ->
  graph_shape target source edge_attr edge_weight.
Proof. intros [Ht Ha Hw Hc Har Hwr]. split; try done; congruence. Qed.

Lemma indices_ok_flip N source target :
  indices_ok N source target -> indices_ok N target source.
Proof. unfold indices_ok. rewrite !Forall_app. tauto. Qed.

Lemma edge_message_rect (node_attr edge_attr edge_weight : tensor R) source target hop :
  graph_shape source target edge_attr edge_weight ->
  rectangular node_attr ->
  Forall (fun i => in_range (size0 node_attr) i = true) source ->
  Forall (fun r => length r = message_width node_attr edge_attr hop)
    (map (edge_message node_attr hop) (edges source target edge_attr edge_weight)).
Proof.
  intros Hg Hn Hs. apply Forall_map, Forall_forall.
  intros [[[s t] a] w] Hin. unfold edge_message, message_width.
  rewrite length_map.
  assert (Hs' : in_range (size0 node_attr) s = true).
  { eapply Forall_forall in Hs; [exact Hs|].
    rewrite <- (edges_sources _ _ _ _ Hg).
    apply list_elem_of_fmap. by exists (s, t, a, w). }
  assert (Ha : length a = size1 edge_attr).
  { destruct Hg as [_ _ _ _ Har _]. unfold edges in Hin.
    apply elem_of_zip_l, elem_of_zip_r in Hin. by eapply Forall_forall in Har. }
  destruct (hop =? 1); [rewrite length_app, Ha|]; by rewrite nth_row_length.
Qed.

Lemma propagate_closed_form E source target (node_attr edge_attr edge_weight : tensor R) hop :
  graph_shape source target edge_attr edge_weight ->
  rectangular node_attr ->
  indices_ok (size0 node_attr) source target ->
  GATConvImpl.propagate (Tensor E [source; target]) node_attr edge_attr edge_weight hop
  = Ok (propagated node_attr edge_attr hop (edges source target edge_attr edge_weight)).
Proof.
  intros Hg Hn Hi. apply Forall_app in Hi as [Hs Ht].
  unfold GATConvImpl.propagate.
  rewrite message_closed_form by done. cbn [mbind res_bind].
  rewrite aggregate_closed_form; cbn [data size1]; try done.
  - unfold propagated, scatter, incoming. cbn [data size1].
    assert (Hz : zip target (map (edge_message node_attr hop)
                               (edges source target edge_attr edge_weight))
                 = map (fun e => (e.1.1.2, edge_message node_attr hop e))
                       (edges source target edge_attr edge_weight)).
    { rewrite <- (edges_targets _ _ _ _ Hg) at 1. by rewrite zip_map_r. }
    by rewrite Hz.
  - unfold size0. cbn. rewrite length_map, edges_length by done. by destruct Hg.
Qed.

Lemma scatter_rect N w (pairs : list (Z * list R)) :
  Forall (fun ir => length ir.2 = w) pairs ->
  Forall (fun r => length r = w) (scatter N w pairs) /\ length (scatter N w pairs) = N.
Proof.
  intros H. unfold scatter. split; [|by rewrite length_map, length_seq].
  apply Forall_map, Forall_forall. intros n _. cbn.
  apply sum_rows_length, Forall_fmap, Forall_forall.
  intros ir Hin. apply list_elem_of_filter in Hin as [_ Hin].
  by eapply Forall_forall in H.
Qed.

Lemma propagated_shape (node_attr edge_attr edge_weight : tensor R) source target hop :
  graph_shape source target edge_attr edge_weight ->
  rectangular node_attr ->
  Forall (fun i => in_range (size0 node_attr) i = true) source ->
  let p := propagated node_attr edge_attr hop (edges source target edge_attr edge_weight) in
  rectangular p /\ size0 p = size0 node_attr
  /\ size1 p = message_width node_attr edge_attr hop.
Proof.
  intros Hg Hn Hs p.
  destruct (scatter_rect (size0 node_attr) (message_width node_attr edge_attr hop)
    (map (fun e => (e.1.1.2, edge_message node_attr hop e))
         (edges source target edge_attr edge_weight))) as [H1 H2].
  { apply Forall_map. cbn.
    pose proof (edge_message_rect node_attr edge_attr edge_weight source target hop Hg Hn Hs)
      as H.
    by apply Forall_map in H. }
  done.
Qed.

(** *** Order independence of the scatter-sum *)

Section Exact.
Context {EA : ExactArith B}.

Lemma vec_add_swap (z x y : list R) :
  vec_add (vec_add z x) y = vec_add (vec_add z y) x.
Proof.
  unfold vec_add. revert x y.
  induction z as [|a z IH]; intros [|b x] [|c y]; try done.
  cbn. f_equal; [|apply IH].
  by rewrite <- !Radd_assoc, (Radd_comm b c).
Qed.

Lemma foldl_vec_add_perm (l l' : list (list R)) :
  l ≡ₚ l' -> forall z, foldl vec_add z l = foldl vec_add z l'.
Proof.
  induction 1 as [|x l l' _ IH|x y l|l l' l'' _ IH1 _ IH2]; intros z; cbn.
  - done.
  - apply IH.
  - by rewrite vec_add_swap.
  - by rewrite IH1.
Qed.

Lemma scatter_perm N w (pairs pairs' : list (Z * list R)) :
  pairs ≡ₚ pairs' -> scatter N w pairs = scatter N w pairs'.
Proof.
  intros Hp. unfold scatter. apply map_ext. intros n.
  unfold sum_rows. apply foldl_vec_add_perm.
  by rewrite Hp.
Qed.

End Exact.

(** *** The state monad *)

Lemma bind_ok {A C} (m : M A) (f : A -> M C) w a w1 :
  m w = Ok (a, w1) -> (m ≫= f) w = f a w1.
Proof. intros H. unfold mbind, M_bind. by rewrite H. Qed.

Lemma bind_err {A C} (m : M A) (f : A -> M C) w e :
  m w = Err e -> (m ≫= f) w = Err e.
Proof. intros H. unfold mbind, M_bind. by rewrite H. Qed.

Lemma bind_lift_ok {A C} (r : res A) (f : A -> M C) w a :
  r = Ok a -> (lift r ≫= f) w = f a w.
Proof. intros ->. done. Qed.

Lemma bind_lift_err {A C} (r : res A) (f : A -> M C) w e :
  r = Err e -> (lift r ≫= f) w = Err e.
Proof. intros ->. done. Qed.

Lemma int_wrap_id z : INT_MIN <= z <= INT_MAX -> int_wrap z = z.
Proof.
  unfold INT_MIN, INT_MAX, int_wrap. intros H.
  rewrite Z.mod_small by lia. lia.
Qed.

(** A counting loop whose body ignores the counter applies the body
    once per value of the counter. *)
Lemma for_int_iterM {S} (f : S -> M S) (fuel : nat) (i hi : Z) (s : S) w :
  0 <= i -> i + Z.of_nat fuel = hi -> hi <= INT_MAX ->
  for_int fuel i hi (fun _ => f) s w = iterM fuel f s w.
Proof.
  revert i s w. induction fuel as [|fuel IH]; intros i s w Hi Hhi Hmax; [done|].
  cbn [for_int iterM].
  destruct (i <? hi) eqn:Hlt; [|apply Z.ltb_ge in Hlt; lia].
  unfold int_add. rewrite int_wrap_id by (unfold INT_MIN, INT_MAX in *; lia).
  unfold mbind, M_bind.
  destruct (f s w) as [[s' w']|e]; [|done].
  apply IH; lia.
Qed.

(** *** Widths along a stack of layers *)

Lemma out_width_app i ls1 ls2 :
  out_width i (ls1 ++ ls2) = out_width i ls1 ≫= fun j => out_width j ls2.
Proof.
  revert i. induction ls1 as [|l ls1 IH]; intros i; [done|].
  destruct l; cbn; try apply IH.
  - destruct ((i =? in_features) && (0 <=? out_features)); [apply IH|done].
  - destruct (i =? normalized_shape); [apply IH|done].
Qed.

Lemma Linear_rows_rect o weight bias (rows : list (list R)) :
  Forall (fun r => length r = o) (map (Linear_row o weight bias) rows).
Proof.
  apply Forall_map, Forall_forall. intros r _. unfold Linear_row.
  by rewrite length_map, length_seq.
Qed.

Lemma imap_rows_rect {A} (f : list A -> nat -> A -> A) w (rows : list (list A)) :
  Forall (fun r => length r = w) rows ->
  Forall (fun r => length r = w) (map (fun r => imap (f r) r) rows).
Proof.
  intros H. apply Forall_map. eapply Forall_impl; [exact H|].
  intros r Hr. cbn. by rewrite length_imap.
Qed.

(** A well-typed stack of layers accepts every rectangular tensor of
    the right width, keeps the number of rows and leaves the trace
    alone. *)
Lemma Sequential_forward_ok ls : forall (x : tensor R) w i o,
  out_width i ls = Some o -> Z.of_nat (size1 x) = i -> rectangular x ->
  exists y w', Sequential_forward ls x w = Ok (y, w')
    /\ Z.of_nat (size1 y) = o /\ size0 y = size0 x /\ rectangular y
    /\ trace w' = trace w.
Proof.
  induction ls as [|l ls IH]; intros x w i o Ho Hx Hr.
  - cbn in *. exists x, w. by simplify_eq.
  - cbn [Sequential_forward]. destruct l as [a b weight bias|n gamma beta| |p|f]; cbn in Ho.
    + destruct (i =? a) eqn:Ha; [|done]. destruct (0 <=? b) eqn:Hb; [|done].
      apply Z.eqb_eq in Ha. apply Z.leb_le in Hb. cbn in Ho.
      erewrite bind_ok; last first.
      { cbn. rewrite Hx. apply Z.eqb_eq in Ha. rewrite Ha. reflexivity. }
      edestruct IH as (y & w' & Hy & ? & ? & ? & ?); [exact Ho| | |].
      3:{ exists y, w'. rewrite Hy. repeat split; try done.
          etrans; [eassumption|]. unfold size0. cbn. by rewrite length_map. }
      * cbn. lia.
      * apply Linear_rows_rect.
    + destruct (i =? n) eqn:Hn; [|done].
      erewrite bind_ok; last first.
      { cbn. rewrite Hx, Hn. reflexivity. }
      edestruct IH as (y & w' & Hy & ? & ? & ? & ?); [exact Ho| | |].
      3:{ exists y, w'. rewrite Hy. repeat split; try done.
          etrans; [eassumption|]. unfold size0. cbn. by rewrite length_map. }
      * done.
      * unfold rectangular. cbn.
        apply (imap_rows_rect
                 (fun r j v => Radd (Rmul (standardize r v) (gamma j)) (beta j))).
        exact Hr.
    + erewrite bind_ok; last first. { cbn. reflexivity. }
      edestruct IH as (y & w' & Hy & ? & ? & ? & ?); [exact Ho| | |].
      3:{ exists y, w'. rewrite Hy. repeat split; try done.
          etrans; [eassumption|]. unfold size0. cbn. by rewrite length_map. }
      * done.
      * unfold rectangular. cbn. apply Forall_map.
        eapply Forall_impl; [exact Hr|]. intros r Hl. cbn. by rewrite length_map.
    + erewrite bind_ok; last first. { cbn. reflexivity. }
      edestruct IH as (y & w' & Hy & ? & ? & ? & ?); [exact Ho| | |].
      3:{ exists y, w'. rewrite Hy. repeat split; try done.
          etrans; [eassumption|]. unfold size0. cbn. by rewrite length_imap. }
      * done.
      * unfold rectangular. cbn. apply Forall_forall. intros r Hin.
        apply list_elem_of_lookup in Hin as [j Hj].
        rewrite list_lookup_imap in Hj.
        destruct (data x !! j) as [r0|] eqn:Hr0; [|done]. cbn in Hj. simplify_eq.
        rewrite length_imap. by apply (Forall_lookup_1 _ _ _ _ Hr Hr0).
    + erewrite bind_ok; last first. { cbn. reflexivity. }
      edestruct IH as (y & w' & Hy & ? & ? & ? & ?); [exact Ho| | |].
      3:{ exists y, w'. rewrite Hy. repeat split; try done.
          etrans; [eassumption|]. unfold size0. cbn. by rewrite length_map. }
      * done.
      * unfold rectangular. cbn. apply Forall_map.
        eapply Forall_impl; [exact Hr|]. intros r Hl. cbn. by rewrite length_map.
Qed.

(** *** Construction of an MLP *)

Lemma existsb_lt1 (hs : list Z) :
  existsb (fun it => it <? 1) hs = true <-> Exists (fun h => h < 1) hs.
Proof.
  rewrite existsb_exists, Exists_exists. split; intros (h & Hin & Hh); exists h.
  - apply list_elem_of_In in Hin. apply Z.ltb_lt in Hh. done.
  - apply list_elem_of_In in Hin. apply Z.ltb_lt in Hh. done.
Qed.

Lemma one_sf : Prim2SF 1 = S754_finite false 4503599627370496 (-52).
Proof. vm_compute. reflexivity. Qed.

Lemma zero_sf : Prim2SF 0 = S754_zero false.
Proof. vm_compute. reflexivity. Qed.

(** The probability is refused exactly when it is greater than one. *)
Lemma dropout_ok_false p : dropout_ok p = false <-> PrimFloat.ltb 1 p = true.
Proof.
  unfold dropout_ok. rewrite !leb_spec, !ltb_spec, one_sf, zero_sf.
  generalize 4503599627370496%positive as m1. intros m1.
  destruct (Prim2SF p) as [ [|] | [|] | | [|] m e];
    cbn -[Z.compare Pos.compare]; try (split; congruence).
  unfold SFleb, SFltb, SFcompare.
  rewrite (Z.compare_antisym e (-52)).
  destruct (e ?= -52) eqn:E; cbn -[Pos.compare]; try (split; congruence).
  change (PosDef.Pos.compare_cont Eq m1 m) with (Pos.compare m1 m).
  change (PosDef.Pos.compare_cont Eq m m1) with (Pos.compare m m1).
  rewrite (Pos.compare_antisym m m1).
  destruct (Pos.compare m m1); cbn; split; congruence.
Qed.

(** A probability that is at most zero is not greater than zero. *)
Lemma leb0_not_positive p : PrimFloat.leb p 0 = true -> PrimFloat.ltb 0 p = false.
Proof.
  rewrite leb_spec, ltb_spec, zero_sf.
  destruct (Prim2SF p) as [ [|] | [|] | | [|] m e]; cbn; congruence.
Qed.

Lemma push_hidden_eq model prev h p ln w :
  MLPImpl.push_hidden model prev h p ln w =
    if dropout_ok p then
      Ok (model ++ hidden_layers (gen w) prev h p ln,
          World (advance (gen w) (Z.to_nat h * Z.to_nat prev + Z.to_nat h)) (trace w))
    else Err dropout_error.
Proof.
  unfold MLPImpl.push_hidden, dropout_ok, hidden_layers, Linear_ctor, Dropout_ctor.
  unfold mbind, M_bind, mret, M_ret, lift, draw.
  destruct ln, (PrimFloat.ltb 0 p); cbn;
    destruct (PrimFloat.leb 0 p), (PrimFloat.leb p 1); cbn;
    rewrite <- ?app_assoc; reflexivity.
Qed.

Lemma hidden_layers_width g prev h p ln :
  0 <= h -> out_width prev (hidden_layers g prev h p ln) = Some h.
Proof.
  intros Hh. unfold hidden_layers. cbn.
  rewrite Z.eqb_refl. cbn. destruct (0 <=? h) eqn:E; [|apply Z.leb_gt in E; lia].
  destruct ln, (PrimFloat.ltb 0 p); cbn; rewrite ?Z.eqb_refl; done.
Qed.

Lemma hidden_layers_dropout g prev h p ln :
  existsb is_dropout (hidden_layers g prev h p ln) = PrimFloat.ltb 0 p.
Proof. unfold hidden_layers. destruct ln, (PrimFloat.ltb 0 p); done. Qed.

Lemma push_rest_err model prev h rest p ln w :
  dropout_ok p = false ->
  MLPImpl.push_rest model prev (h :: rest) p ln w = Err dropout_error.
Proof.
  intros Hp. cbn. apply bind_err. by rewrite push_hidden_eq, Hp.
Qed.

Lemma last_cons' {A} (h : A) rest d : List.last (h :: rest) d = List.last rest h.
Proof.
  revert h d. induction rest as [|h' rest IH]; intros h d; [done|].
  change (List.last (h :: h' :: rest) d) with (List.last (h' :: rest) d).
  by rewrite !IH.
Qed.

Lemma last_cons (h : Z) rest d : List.last (h :: rest) d = List.last rest h.
Proof. apply last_cons'. Qed.

Lemma push_rest_ok rest : forall model prev p ln w,
  dropout_ok p = true -> Forall (fun h => 1 <= h) rest ->
  exists ls w', MLPImpl.push_rest model prev rest p ln w = Ok (model ++ ls, w')
    /\ out_width prev ls = Some (List.last rest prev)
    /\ (PrimFloat.ltb 0 p = false -> existsb is_dropout ls = false)
    /\ trace w' = trace w.
Proof.
  induction rest as [|h rest IH]; intros model prev p ln w Hp Hall.
  - exists [], w. cbn. by rewrite app_nil_r.
  - apply Forall_cons in Hall as [Hh Hall]. cbn [MLPImpl.push_rest].
    erewrite bind_ok by (rewrite push_hidden_eq, Hp; reflexivity).
    edestruct (IH (model ++ hidden_layers (gen w) prev h p ln) h p ln) as
      (ls & w' & Hrest & Hw & Hd & Ht); [done..|].
    exists (hidden_layers (gen w) prev h p ln ++ ls), w'.
    rewrite Hrest, app_assoc. split; [done|]. split; [|split].
    + rewrite out_width_app, hidden_layers_width by lia.
      cbn [mbind option_bind]. by rewrite Hw, last_cons.
    + intros H0. rewrite existsb_app, hidden_layers_dropout, H0. by apply Hd.
    + by rewrite Ht.
Qed.

Lemma existsb_lt1_false (hs : list Z) :
  Forall (fun h => 1 <= h) hs -> existsb (fun it => it <? 1) hs = false.
Proof.
  intros H. destruct (existsb _ hs) eqn:E; [|done].
  apply existsb_lt1, Exists_exists in E as (h & Hin & Hh).
  eapply Forall_forall in H; [|exact Hin]. lia.
Qed.

Lemma size_valid_inv i hs o :
  ~ size_violation i hs o ->
  1 <= i /\ 1 <= o /\ Forall (fun h => 1 <= h) hs /\ exists h0 rest, hs = h0 :: rest.
Proof.
  unfold size_violation. intros H. repeat split; try lia.
  - apply Forall_forall. intros h Hin.
    destruct (decide (h < 1)); [|lia].
    exfalso. apply H. do 3 right. apply Exists_exists. eauto.
  - destruct hs as [|h0 rest]; [tauto|eauto].
Qed.

Lemma MLP_ctor_invalid i hs o p ln w :
  size_violation i hs o ->
  exists what, MLPImpl.ctor i hs o p ln w = Err (invalid_argument what).
Proof.
  intros Hv. unfold MLPImpl.ctor.
  destruct (i <? 1) eqn:Hi; [by eexists|].
  destruct (o <? 1) eqn:Ho; [by eexists|].
  destruct hs as [|h0 rest]; [by eexists|].
  destruct (existsb _ (h0 :: rest)) eqn:Hh; [by eexists|].
  exfalso. apply Z.ltb_ge in Hi, Ho.
  destruct Hv as [?|[?|[?|Hv]]]; [lia|lia|done|].
  apply existsb_lt1 in Hv. congruence.
Qed.

Lemma MLP_ctor_dropout_err i hs o p ln w :
  ~ size_violation i hs o -> dropout_ok p = false ->
  MLPImpl.ctor i hs o p ln w = Err dropout_error.
Proof.
  intros Hv Hp. apply size_valid_inv in Hv as (Hi & Ho & Hall & h0 & rest & ->).
  unfold MLPImpl.ctor.
  rewrite (proj2 (Z.ltb_ge i 1)), (proj2 (Z.ltb_ge o 1)) by lia.
  rewrite existsb_lt1_false by done.
  apply bind_err. by rewrite push_hidden_eq, Hp.
Qed.

Lemma MLP_ctor_ok i hs o p ln w :
  ~ size_violation i hs o -> dropout_ok p = true ->
  exists m w', MLPImpl.ctor i hs o p ln w = Ok (m, w')
    /\ out_width i (MLPImpl.model m) = Some o
    /\ input_width m = Some i
    /\ (PrimFloat.ltb 0 p = false -> existsb is_dropout (MLPImpl.model m) = false)
    /\ trace w' = trace w.
Proof.
  intros Hv Hp. apply size_valid_inv in Hv as (Hi & Ho & Hall & h0 & rest & ->).
  unfold MLPImpl.ctor.
  rewrite (proj2 (Z.ltb_ge i 1)), (proj2 (Z.ltb_ge o 1)) by lia.
  rewrite existsb_lt1_false by done.
  pose proof Hall as Hall'. apply Forall_cons in Hall' as [Hh0 Hrest].
  erewrite bind_ok by (rewrite push_hidden_eq, Hp; reflexivity).
  edestruct (push_rest_ok rest ([] ++ hidden_layers (gen w) i h0 p ln) h0 p ln)
    as (ls & w1 & Hpush & Hw & Hd & Ht); [done..|].
  erewrite bind_ok by exact Hpush.
  unfold Linear_ctor. unfold mbind, M_bind, mret, M_ret, draw. cbn [app].
  eexists _, _. split; [reflexivity|]. cbn [MLPImpl.model trace].
  rewrite last_cons.
  assert (Hout : forall tl, out_width o tl = Some o ->
    out_width i ((hidden_layers (gen w) i h0 p ln ++ ls)
       ++ Linear (List.last rest h0) o
            (init_weight (gen w1) (Z.to_nat (List.last rest h0)) (Z.to_nat o))
            (init_bias (gen w1) (Z.to_nat (List.last rest h0)) (Z.to_nat o)) :: tl)
    = Some o).
  { intros tl Htl. rewrite !out_width_app, hidden_layers_width by lia.
    cbn [mbind option_bind]. rewrite Hw. cbn.
    rewrite Z.eqb_refl, (proj2 (Z.leb_le 0 o)) by lia. done. }
  assert (Hdrop : forall tl, PrimFloat.ltb 0 p = false -> existsb is_dropout tl = false ->
    existsb is_dropout ((hidden_layers (gen w) i h0 p ln ++ ls)
       ++ Linear (List.last rest h0) o
            (init_weight (gen w1) (Z.to_nat (List.last rest h0)) (Z.to_nat o))
            (init_bias (gen w1) (Z.to_nat (List.last rest h0)) (Z.to_nat o)) :: tl)
    = false).
  { intros tl H0 Htl. rewrite !existsb_app, hidden_layers_dropout, H0, Hd by done. done. }
  destruct end_activation as [f|].
  - rewrite <- app_assoc. cbn [app]. repeat split.
    + by apply Hout.
    + intros H0. by apply Hdrop.
    + by rewrite Ht.
  - repeat split.
    + by apply Hout.
    + intros H0. by apply Hdrop.
    + by rewrite Ht.
Qed.

(** *** Construction of a convolution *)

Lemma combined_width_int i n e :
  1 <= i -> 1 <= n -> 1 <= e -> combined_width i n e <= INT_MAX ->
  int_add (int_add (int_mul 5 i) n) (int_mul 4 e) = combined_width i n e.
Proof.
  unfold combined_width, int_add, int_mul. intros Hi Hn He Hmax.
  assert (H5 : int_wrap (5 * i) = 5 * i)
    by (apply int_wrap_id; unfold INT_MIN, INT_MAX in *; lia).
  assert (H4 : int_wrap (4 * e) = 4 * e)
    by (apply int_wrap_id; unfold INT_MIN, INT_MAX in *; lia).
  rewrite H5, H4.
  assert (Hs : int_wrap (5 * i + n) = 5 * i + n)
    by (apply int_wrap_id; unfold INT_MIN, INT_MAX in *; lia).
  rewrite Hs. apply int_wrap_id. unfold INT_MIN, INT_MAX in *. lia.
Qed.

Lemma GAT_ctor_invalid i hs o n e p ln w :
  conv_violation i hs o n e ->
  exists what, GATConvImpl.ctor i hs o n e p ln w = Err (invalid_argument what).
Proof.
  intros Hv. unfold GATConvImpl.ctor.
  destruct (i <? 1) eqn:Hi; [by eexists|].
  destruct (o <? 1) eqn:Ho; [by eexists|].
  destruct (n <? 1) eqn:Hn; [by eexists|].
  destruct (e <? 1) eqn:He; [by eexists|].
  destruct hs as [|h0 rest]; [by eexists|].
  destruct (existsb _ (h0 :: rest)) eqn:Hh; [by eexists|].
  exfalso. apply Z.ltb_ge in Hi, Ho, Hn, He.
  destruct Hv as [?|[?|[?|[?|[?|Hv]]]]]; [lia|lia|lia|lia|done|].
  apply existsb_lt1 in Hv. congruence.
Qed.

Lemma conv_valid_inv i hs o n e :
  ~ conv_violation i hs o n e ->
  1 <= i /\ 1 <= n /\ 1 <= e /\ ~ size_violation (combined_width i n e) hs o.
Proof.
  unfold conv_violation, size_violation, combined_width. intros H.
  repeat split; try lia. intros [?|[?|[?|?]]]; try lia; tauto.
Qed.

Lemma GAT_ctor_valid i hs o n e p ln w :
  ~ conv_violation i hs o n e -> combined_width i n e <= INT_MAX ->
  GATConvImpl.ctor i hs o n e p ln w =
    (mlp ← MLPImpl.ctor (combined_width i n e) hs o p ln; mret (GATConvImpl.Build mlp)) w.
Proof.
  intros Hv Hmax. pose proof (conv_valid_inv _ _ _ _ _ Hv) as (Hi & Hn & He & Hs).
  apply size_valid_inv in Hs as (_ & Ho & Hall & h0 & rest & ->).
  unfold GATConvImpl.ctor.
  rewrite (proj2 (Z.ltb_ge i 1)), (proj2 (Z.ltb_ge o 1)),
    (proj2 (Z.ltb_ge n 1)), (proj2 (Z.ltb_ge e 1)) by lia.
  rewrite existsb_lt1_false by done.
  by rewrite combined_width_int.
Qed.

(** *** The forward pass of a convolution on a valid graph *)

Lemma cat2_hcat (a b : tensor R) : size0 a = size0 b -> cat2 a b = Ok (hcat a b).
Proof. apply cat2_ok. Qed.

Lemma hcat_shape (a b : tensor R) :
  rectangular a -> rectangular b -> size0 a = size0 b ->
  rectangular (hcat a b) /\ size0 (hcat a b) = size0 a.
Proof.
  intros Ha Hb Hab. unfold rectangular, size0, hcat in *. cbn. split.
  - apply Forall_zip_with_fst with (P := fun r => length r = size1 a); [done|].
    eapply Forall_impl; [exact Hb|]. intros y Hy x Hx. cbn beta in *.
    by rewrite length_app, Hx, Hy.
  - rewrite length_zip_with. lia.
Qed.

Lemma hcat_lookup (a b : tensor R) n ra rb :
  data a !! n = Some ra -> data b !! n = Some rb ->
  data (hcat a b) !! n = Some (ra ++ rb).
Proof. intros Ha Hb. unfold hcat. cbn. by rewrite lookup_zip_with, Ha, Hb. Qed.

Lemma cat6_ok (t0 t1 t2 t3 t4 t5 : tensor R) :
  rectangular t0 -> rectangular t1 -> rectangular t2 ->
  rectangular t3 -> rectangular t4 -> rectangular t5 ->
  size0 t0 = size0 t1 -> size0 t2 = size0 t1 -> size0 t3 = size0 t1 ->
  size0 t4 = size0 t1 -> size0 t5 = size0 t1 ->
  cat [t0; t1; t2; t3; t4; t5] = Ok (combined6 t0 t1 t2 t3 t4 t5)
  /\ rectangular (combined6 t0 t1 t2 t3 t4 t5)
  /\ size0 (combined6 t0 t1 t2 t3 t4 t5) = size0 t1.
Proof.
  intros R0' R1' R2' R3' R4' R5' H0 H2 H3 H4 H5.
  destruct (hcat_shape t0 t1) as [Ra Sa]; [done..|].
  destruct (hcat_shape (hcat t0 t1) t2) as [Rb Sb]; [done|done|congruence|].
  destruct (hcat_shape (hcat (hcat t0 t1) t2) t3) as [Rc Sc]; [done|done|congruence|].
  destruct (hcat_shape (hcat (hcat (hcat t0 t1) t2) t3) t4) as [Rd Sd];
    [done|done|congruence|].
  destruct (hcat_shape (hcat (hcat (hcat (hcat t0 t1) t2) t3) t4) t5) as [Re Se];
    [done|done|congruence|].
  unfold combined6. split; [|split; [done|congruence]].
  unfold cat. cbn [foldl mbind res_bind].
  rewrite (cat2_hcat t0 t1) by done. cbn [mbind res_bind].
  rewrite cat2_hcat by congruence. cbn [mbind res_bind].
  rewrite cat2_hcat by congruence. cbn [mbind res_bind].
  rewrite cat2_hcat by congruence. cbn [mbind res_bind].
  rewrite cat2_hcat by congruence. done.
Qed.

Lemma combined_shape source target (node_attr edge_attr edge_weight initial_node_attr : tensor R) :
  valid_input source target node_attr edge_attr edge_weight initial_node_attr ->
  rectangular (combined source target node_attr edge_attr edge_weight initial_node_attr)
  /\ size0 (combined source target node_attr edge_attr edge_weight initial_node_attr)
     = size0 node_attr
  /\ size1 (combined source target node_attr edge_attr edge_weight initial_node_attr)
     = (size1 initial_node_attr + size1 node_attr
        + 4 * (size1 node_attr + size1 edge_attr))%nat.
Proof.
  intros [Hg Hi Hn Hin Hrows].
  pose proof Hi as Hi'. apply Forall_app in Hi' as [Hs Ht].
  pose proof (graph_shape_flip _ _ _ _ Hg) as Hg'.
  destruct (propagated_shape node_attr edge_attr edge_weight source target 1 Hg Hn Hs)
    as (P1r & P1n & P1w).
  destruct (propagated_shape node_attr edge_attr edge_weight target source 1 Hg' Hn Ht)
    as (P2r & P2n & P2w).
  fold (hop1_in source target node_attr edge_attr edge_weight) in P1r, P1n, P1w.
  fold (hop1_out source target node_attr edge_attr edge_weight) in P2r, P2n, P2w.
  destruct (propagated_shape (hop1_in source target node_attr edge_attr edge_weight)
    edge_attr edge_weight source target 2 Hg P1r) as (P3r & P3n & P3w);
    [by rewrite P1n|].
  destruct (propagated_shape (hop1_out source target node_attr edge_attr edge_weight)
    edge_attr edge_weight target source 2 Hg' P2r) as (P4r & P4n & P4w);
    [by rewrite P2n|].
  fold (hop2_in source target node_attr edge_attr edge_weight) in P3r, P3n, P3w.
  fold (hop2_out source target node_attr edge_attr edge_weight) in P4r, P4n, P4w.
  destruct (cat6_ok initial_node_attr node_attr
    (hop1_in source target node_attr edge_attr edge_weight)
    (hop1_out source target node_attr edge_attr edge_weight)
    (hop2_in source target node_attr edge_attr edge_weight)
    (hop2_out source target node_attr edge_attr edge_weight)) as (_ & Cr & Cn);
    try done; try congruence.
  unfold combined. split; [done|]. split; [done|].
  unfold combined6, hcat. cbn [size1].
  rewrite P1w, P2w, P3w, P4w. unfold message_width. cbn.
  rewrite ?P1w, ?P2w. unfold message_width. cbn. lia.
Qed.

Lemma GAT_forward_valid self E source target
    (node_attr edge_attr edge_weight initial_node_attr : tensor R) w :
  valid_input source target node_attr edge_attr edge_weight initial_node_attr ->
  GATConvImpl.forward self (Tensor E [source; target])
    node_attr edge_attr edge_weight initial_node_attr w
  = MLPImpl.forward (GATConvImpl.mlp self)
      (combined source target node_attr edge_attr edge_weight initial_node_attr)
      (World (gen w)
         (trace w ++ [ForwardCall (MLPImpl.model (GATConvImpl.mlp self))
                        node_attr initial_node_attr])).
Proof.
  intros [Hg Hi Hn Hin Hrows].
  pose proof Hi as Hi'. apply Forall_app in Hi' as [Hs Ht].
  pose proof (graph_shape_flip _ _ _ _ Hg) as Hg'.
  pose proof (indices_ok_flip _ _ _ Hi) as Hi'.
  destruct (propagated_shape node_attr edge_attr edge_weight source target 1 Hg Hn Hs)
    as (P1r & P1n & P1w).
  destruct (propagated_shape node_attr edge_attr edge_weight target source 1 Hg' Hn Ht)
    as (P2r & P2n & P2w).
  cbn zeta in P1r, P1n, P1w, P2r, P2n, P2w.
  destruct (propagated_shape _ edge_attr edge_weight source target 2 Hg P1r)
    as (P3r & P3n & P3w); [by rewrite P1n|].
  destruct (propagated_shape _ edge_attr edge_weight target source 2 Hg' P2r)
    as (P4r & P4n & P4w); [by rewrite P2n|].
  cbn zeta in P3r, P3n, P3w, P4r, P4n, P4w.
  unfold GATConvImpl.forward.
  erewrite bind_ok by reflexivity.
  change (flip0 (Tensor E [source; target])) with (Tensor E [target; source]).
  erewrite bind_lift_ok by (by apply propagate_closed_form).
  erewrite bind_lift_ok by (by apply propagate_closed_form).
  erewrite bind_lift_ok by (apply propagate_closed_form; [done|done|by rewrite P1n]).
  erewrite bind_lift_ok by (apply propagate_closed_form; [done|done|by rewrite P2n]).
  erewrite bind_lift_ok; [reflexivity|].
  apply cat6_ok; try done; unfold hop1_in, hop1_out, hop2_in, hop2_out; congruence.
Qed.

Lemma GAT_forward_ok self E source target
    (node_attr edge_attr edge_weight initial_node_attr : tensor R) w o :
  valid_input source target node_attr edge_attr edge_weight initial_node_attr ->
  out_width
    (Z.of_nat (size1 initial_node_attr + size1 node_attr
               + 4 * (size1 node_attr + size1 edge_attr)))
    (MLPImpl.model (GATConvImpl.mlp self)) = Some o ->
  exists y w',
    GATConvImpl.forward self (Tensor E [source; target])
      node_attr edge_attr edge_weight initial_node_attr w = Ok (y, w')
    /\ Z.of_nat (size1 y) = o /\ size0 y = size0 node_attr /\ rectangular y
    /\ trace w' = trace w ++ [ForwardCall (MLPImpl.model (GATConvImpl.mlp self))
                                node_attr initial_node_attr].
Proof.
  intros Hv Ho. rewrite GAT_forward_valid by done.
  destruct (combined_shape _ _ _ _ _ _ Hv) as (Cr & Cn & Cw).
  unfold MLPImpl.forward.
  edestruct Sequential_forward_ok as (y & w' & Hy & Hw & Hn & Hr & Ht);
    [exact Ho|by rewrite Cw|exact Cr|].
  exists y, w'. rewrite Hy. repeat split; try done. congruence.
Qed.

(** *** What a successful construction guarantees *)

Lemma dropout_ok_true p : dropout_ok p = true <-> PrimFloat.ltb 1 p = false.
Proof.
  pose proof (dropout_ok_false p) as H.
  destruct (dropout_ok p), (PrimFloat.ltb 1 p); intuition congruence.
Qed.

Lemma MLP_ctor_typed i hs o p ln w m w' :
  MLPImpl.ctor i hs o p ln w = Ok (m, w') ->
  ~ size_violation i hs o /\ dropout_ok p = true
  /\ out_width i (MLPImpl.model m) = Some o /\ input_width m = Some i
  /\ (PrimFloat.ltb 0 p = false -> existsb is_dropout (MLPImpl.model m) = false)
  /\ trace w' = trace w.
Proof.
  intros Hc.
  destruct (decide (size_violation i hs o)) as [Hv|Hv].
  { destruct (MLP_ctor_invalid i hs o p ln w Hv) as [what He]. congruence. }
  destruct (dropout_ok p) eqn:Hp.
  - destruct (MLP_ctor_ok i hs o p ln w Hv Hp) as (m0 & w0 & H0 & ?).
    rewrite Hc in H0. by simplify_eq.
  - rewrite MLP_ctor_dropout_err in Hc by done. done.
Qed.

Lemma GAT_ctor_typed i hs o n e p ln w self w' :
  GATConvImpl.ctor i hs o n e p ln w = Ok (self, w') ->
  combined_width i n e <= INT_MAX ->
  ~ conv_violation i hs o n e /\ dropout_ok p = true
  /\ out_width (combined_width i n e) (MLPImpl.model (GATConvImpl.mlp self)) = Some o
  /\ input_width (GATConvImpl.mlp self) = Some (combined_width i n e)
  /\ trace w' = trace w.
Proof.
  intros Hc Hmax.
  destruct (decide (conv_violation i hs o n e)) as [Hv|Hv].
  { destruct (GAT_ctor_invalid i hs o n e p ln w Hv) as [what He]. congruence. }
  rewrite GAT_ctor_valid in Hc by done.
  unfold mbind, M_bind in Hc.
  destruct (MLPImpl.ctor _ hs o p ln w) as [[m w1]|err] eqn:Hm; [|done].
  unfold mret, M_ret in Hc. simplify_eq.
  apply MLP_ctor_typed in Hm as (_ & ? & ? & ? & _ & ?). done.
Qed.

(** *** Repeated convolution *)

Lemma removelast_cons {A} (x : A) xs : xs <> [] -> removelast (x :: xs) = x :: removelast xs.
Proof. by destruct xs. Qed.

Lemma iterM_conv self E source target (node_attr edge_attr edge_weight : tensor R) o n :
  forall (x : tensor R) w,
  valid_input source target x edge_attr edge_weight node_attr ->
  Z.of_nat (size1 x) = o ->
  out_width
    (Z.of_nat (size1 node_attr + size1 x + 4 * (size1 x + size1 edge_attr)))
    (MLPImpl.model (GATConvImpl.mlp self)) = Some o ->
  exists (xs : list (tensor R)) w',
    iterM n (fun x => GATConvImpl.forward self (Tensor E [source; target])
                        x edge_attr edge_weight node_attr) x w
      = Ok (List.last xs x, w')
    /\ length xs = n
    /\ trace w' = trace w
         ++ map (fun x => ForwardCall (MLPImpl.model (GATConvImpl.mlp self)) x node_attr)
                (removelast (x :: xs))
    /\ Z.of_nat (size1 (List.last xs x)) = o
    /\ size0 (List.last xs x) = size0 x
    /\ rectangular (List.last xs x).
Proof.
  induction n as [|n IH]; intros x w Hv Hx Ho.
  - exists [], w. cbn. rewrite app_nil_r. by destruct Hv.
  - cbn [iterM].
    destruct (GAT_forward_ok self E source target x edge_attr edge_weight node_attr w o Hv Ho)
      as (y & w1 & Hy & Hyw & Hyn & Hyr & Hyt).
    erewrite bind_ok by exact Hy.
    destruct Hv as [Hg Hi Hxr Hnr Hrows].
    destruct (IH y w1) as (xs & w' & Hit & Hlen & Ht & Hw & Hn & Hr).
    { split; try done; congruence. }
    { done. }
    { assert (size1 y = size1 x) as -> by lia. done. }
    exists (y :: xs), w'. rewrite last_cons', Hit.
    repeat split; try done; try congruence.
    + cbn. by rewrite Hlen.
    + rewrite Ht, Hyt, <- app_assoc. f_equal.
Qed.

(** *** Construction and read-out of the network *)

Lemma NN_ctor_typed node hs1 hs2 hsm o e p ln k w self w' :
  NNImpl.ctor node hs1 hs2 hsm o e p ln k w = Ok (self, w') ->
  combined_width node node e <= INT_MAX ->
  combined_width o node e <= INT_MAX ->
  2 * o <= INT_MAX ->
  out_width (combined_width node node e)
    (MLPImpl.model (GATConvImpl.mlp (NNImpl.gatconv1 self))) = Some o
  /\ out_width (combined_width o node e)
    (MLPImpl.model (GATConvImpl.mlp (NNImpl.gatconv2 self))) = Some o
  /\ out_width (2 * o) (MLPImpl.model (NNImpl.mlp self)) = Some 1
  /\ NNImpl.k self = k /\ 1 <= o /\ trace w' = trace w.
Proof.
  intros Hc H1 H2 H3. unfold NNImpl.ctor, mbind, M_bind in Hc.
  destruct (GATConvImpl.ctor node hs1 o node e p ln w) as [[c1 w1]|?] eqn:E1; [|done].
  destruct (GATConvImpl.ctor o hs2 o node e p ln w1) as [[c2 w2]|?] eqn:E2; [|done].
  destruct (MLPImpl.ctor (int_mul 2 o) hsm 1 p ln w2) as [[m w3]|?] eqn:E3; [|done].
  unfold mret, M_ret in Hc. simplify_eq. cbn.
  apply GAT_ctor_typed in E1 as (_ & _ & T1 & _ & Ht1); [|done].
  apply GAT_ctor_typed in E2 as (V2 & _ & T2 & _ & Ht2); [|done].
  assert (Ho : 1 <= o).
  { destruct (decide (o < 1)); [|lia]. exfalso. apply V2. right. by left. }
  assert (Hm : int_mul 2 o = 2 * o).
  { apply int_wrap_id. unfold INT_MIN, INT_MAX in *. lia. }
  rewrite Hm in E3.
  apply MLP_ctor_typed in E3 as (_ & _ & T3 & _ & _ & Ht3).
  repeat split; try done. congruence.
Qed.

Lemma gather_rect (x : tensor R) index :
  rectangular x -> Forall (fun i => in_range (size0 x) i = true) index ->
  rectangular (Tensor (size1 x) (map (nth_row (data x)) index)).
Proof.
  intros Hx Hi. unfold rectangular. cbn. apply Forall_map.
  eapply Forall_impl; [exact Hi|]. intros i Hin. by apply nth_row_length.
Qed.

Lemma readout_ok mlp E source target (x : tensor R) w :
  length target = length source ->
  indices_ok (size0 x) source target -> rectangular x ->
  out_width (Z.of_nat (size1 x + size1 x)) (MLPImpl.model mlp) = Some 1 ->
  exists y w', readout mlp (Tensor E [source; target]) x w = Ok (y, w')
    /\ MLPImpl.forward mlp (readout_input source target x) w = Ok (y, w')
    /\ size0 y = length source /\ size1 y = 1%nat /\ rectangular y
    /\ trace w' = trace w.
Proof.
  intros Hlen Hi Hx Ho. apply Forall_app in Hi as [Hs Ht].
  pose proof (gather_rect x source Hx Hs) as R1'.
  pose proof (gather_rect x target Hx Ht) as R2'.
  destruct (hcat_shape _ _ R1' R2') as [Hr Hn].
  { unfold size0. cbn. rewrite !length_map. done. }
  fold (readout_input source target x) in Hr, Hn.
  edestruct (Sequential_forward_ok (MLPImpl.model mlp) (readout_input source target x) w)
    as (y & w' & Hy & Hyw & Hyn & Hyr & Hyt); [exact Ho|done|exact Hr|].
  exists y, w'. unfold readout.
  erewrite bind_lift_ok by reflexivity.
  erewrite bind_lift_ok by (by apply index_select_ok).
  erewrite bind_lift_ok by reflexivity.
  erewrite bind_lift_ok by (by apply index_select_ok).
  erewrite bind_lift_ok; last first.
  { unfold cat. cbn [foldl mbind res_bind]. apply cat2_hcat.
    unfold size0. cbn. by rewrite !length_map. }
  unfold MLPImpl.forward. fold (readout_input source target x).
  repeat split; try done.
  - rewrite Hyn, Hn. unfold size0. cbn. by rewrite length_map.
  - lia.
Qed.

(** *** Out-of-range indices *)

Lemma Exists_zip_fst {A C} (P : A -> Prop) (l : list A) (k : list C) :
  length l = length k -> Exists P l -> Exists (fun x => P x.1) (zip l k).
Proof.
  intros Hlen Hex. apply Exists_fmap with (f := fst).
  by rewrite fst_zip by lia.
Qed.

Lemma message_range_err E source target (node_attr edge_attr edge_weight : tensor R) hop :
  Exists (fun i => in_range (size0 node_attr) i = false) source ->
  GATConvImpl.message (Tensor E [source; target]) node_attr edge_attr edge_weight hop
  = Err range_error.
Proof.
  intros H. unfold GATConvImpl.message. cbn [select data lookup list_lookup mbind res_bind].
  by rewrite index_select_err.
Qed.

Lemma aggregate_range_none E source target (messages : tensor R) N :
  Exists (fun i => in_range N i = false) target ->
  is_ok (GATConvImpl.aggregate (Tensor E [source; target]) messages N) = false.
Proof.
  intros H. unfold GATConvImpl.aggregate, index_add_.
  cbn [select data lookup list_lookup mbind res_bind zeros size1].
  destruct (length target =? size0 messages)%nat eqn:Hlen; [|done].
  rewrite Nat.eqb_refl. cbn [negb].
  rewrite index_add_fold_range; [done|].
  rewrite length_replicate.
  apply (Exists_zip_fst (fun i => in_range N i = false)); [|done].
  by apply Nat.eqb_eq in Hlen.
Qed.

Lemma aggregate_range_err E source target (messages : tensor R) N :
  length target = size0 messages ->
  Exists (fun i => in_range N i = false) target ->
  GATConvImpl.aggregate (Tensor E [source; target]) messages N = Err range_error.
Proof.
  intros Hlen H. unfold GATConvImpl.aggregate, index_add_.
  cbn [select data lookup list_lookup mbind res_bind zeros size1].
  rewrite Hlen, !Nat.eqb_refl. cbn [negb].
  rewrite index_add_fold_range; [done|].
  rewrite length_replicate.
  by apply (Exists_zip_fst (fun i => in_range N i = false)).
Qed.

Lemma range_cases N (source : list Z) :
  Forall (fun i => in_range N i = true) source
  \/ Exists (fun i => in_range N i = false) source.
Proof.
  induction source as [|i source [IH|IH]].
  - left. constructor.
  - destruct (in_range N i) eqn:Hi; [left|right]; by constructor.
  - right. by constructor.
Qed.

Lemma propagate_range_none E source target (node_attr edge_attr edge_weight : tensor R) hop :
  Exists (fun i => in_range (size0 node_attr) i = false) (source ++ target) ->
  is_ok (GATConvImpl.propagate (Tensor E [source; target])
           node_attr edge_attr edge_weight hop) = false.
Proof.
  intros H. unfold GATConvImpl.propagate.
  destruct (range_cases (size0 node_attr) source) as [Hs|Hs].
  - apply Exists_app in H as [H|H].
    { exfalso. apply Exists_exists in H as (i & Hin & Hi).
      eapply Forall_forall in Hs; [|exact Hin]. congruence. }
    destruct (GATConvImpl.message _ _ _ _ _) as [msgs|err]; [|done].
    cbn [mbind res_bind]. by apply aggregate_range_none.
  - by rewrite message_range_err.
Qed.

Lemma propagate_range_err E source target (node_attr edge_attr edge_weight : tensor R) hop :
  graph_shape source target edge_attr edge_weight -> rectangular node_attr ->
  Exists (fun i => in_range (size0 node_attr) i = false) (source ++ target) ->
  GATConvImpl.propagate (Tensor E [source; target]) node_attr edge_attr edge_weight hop
  = Err range_error.
Proof.
  intros Hg Hn H. unfold GATConvImpl.propagate.
  destruct (range_cases (size0 node_attr) source) as [Hs|Hs].
  - apply Exists_app in H as [H|H].
    { exfalso. apply Exists_exists in H as (i & Hin & Hi).
      eapply Forall_forall in Hs; [|exact Hin]. congruence. }
    rewrite message_closed_form by done. cbn [mbind res_bind].
    apply aggregate_range_err; [|done].
    unfold size0. cbn. rewrite length_map, edges_length by done. by destruct Hg.
  - by rewrite message_range_err.
Qed.

(** *** A probability that builds no dropout layer *)

Lemma bind_ext {A C} (m m' : M A) (f f' : A -> M C) w :
  m w = m' w -> (forall a w1, f a w1 = f' a w1) -> (m ≫= f) w = (m' ≫= f') w.
Proof.
  intros Hm Hf. unfold mbind, M_bind. rewrite Hm.
  destruct (m' w) as [[a w1]|e]; [apply Hf|done].
Qed.

Lemma push_hidden_nodrop model prev h p ln w :
  PrimFloat.ltb 0 p = false ->
  MLPImpl.push_hidden model prev h p ln w = MLPImpl.push_hidden model prev h 0 ln w.
Proof.
  intros H. rewrite !push_hidden_eq. unfold dropout_ok, hidden_layers. rewrite H.
  replace (PrimFloat.ltb 0 0) with false by (vm_compute; reflexivity). done.
Qed.

Lemma push_rest_nodrop rest : forall model prev p ln w,
  PrimFloat.ltb 0 p = false ->
  MLPImpl.push_rest model prev rest p ln w = MLPImpl.push_rest model prev rest 0 ln w.
Proof.
  induction rest as [|h rest IH]; intros model prev p ln w H; [done|].
  cbn [MLPImpl.push_rest]. apply bind_ext; [by apply push_hidden_nodrop|].
  intros model' w1. by apply IH.
Qed.

Lemma MLP_ctor_nodrop i hs o p ln w :
  PrimFloat.ltb 0 p = false ->
  MLPImpl.ctor i hs o p ln w = MLPImpl.ctor i hs o 0 ln w.
Proof.
  intros H. unfold MLPImpl.ctor.
  destruct (i <? 1); [done|]. destruct (o <? 1); [done|].
  destruct hs as [|h0 rest]; [done|].
  destruct (existsb _ (h0 :: rest)); [done|].
  apply bind_ext; [by apply push_hidden_nodrop|]. intros model w1.
  apply bind_ext; [by apply push_rest_nodrop|]. done.
Qed.

(** *** Reordering the edges *)

Lemma edges_flip (source target : list Z) (edge_attr edge_weight : tensor R) :
  graph_shape source target edge_attr edge_weight ->
  edges target source edge_attr edge_weight
  = map (fun e => (e.1.1.2, e.1.1.1, e.1.2, e.2))
        (edges source target edge_attr edge_weight).
Proof.
  intros [Ht Ha Hw _ _ _]. unfold edges, size0 in *.
  revert Ht Ha Hw. generalize (data edge_attr) (data edge_weight). revert target.
  induction source as [|s source IH]; intros [|t target] [|a eas] [|w ews]; try done.
  cbn. intros ???. f_equal. apply IH; lia.
Qed.

Section Reorder.
Context {EA : ExactArith B}.

Lemma index_add_fold_perm (pairs pairs' : list (Z * list R)) (acc : list (list R)) :
  pairs ≡ₚ pairs' ->
  foldl index_add_step (Ok acc) pairs = foldl index_add_step (Ok acc) pairs'.
Proof.
  intros Hp.
  destruct (decide (Forall (fun ir : Z * list R => in_range (length acc) ir.1 = true) pairs))
    as [Hall|Hex].
  - rewrite !index_add_fold_ok; [|by rewrite <- Hp|done].
    f_equal. apply imap_ext. intros n r _.
    apply foldl_vec_add_perm. by rewrite Hp.
  - apply not_Forall_Exists in Hex; [|apply _].
    assert (Hex' : Exists (fun ir : Z * list R => in_range (length acc) ir.1 = false) pairs).
    { eapply Exists_impl; [exact Hex|]. cbn. intros ir Hir.
      by destruct (in_range (length acc) ir.1). }
    rewrite !index_add_fold_range; [done| |done].
    by rewrite <- Hp.
Qed.

Lemma aggregate_perm E E' source source' target target' (messages messages' : tensor R) N :
  length target = size0 messages -> length target' = size0 messages' ->
  size1 messages = size1 messages' ->
  zip target (data messages) ≡ₚ zip target' (data messages') ->
  GATConvImpl.aggregate (Tensor E [source; target]) messages N
  = GATConvImpl.aggregate (Tensor E' [source'; target']) messages' N.
Proof.
  intros Hl Hl' Hw Hp. unfold GATConvImpl.aggregate, index_add_.
  cbn [select data lookup list_lookup mbind res_bind zeros size1].
  rewrite Hl, Hl', Hw, !Nat.eqb_refl. cbn [negb].
  by rewrite (index_add_fold_perm _ _ _ Hp).
Qed.

Lemma propagated_perm (node_attr edge_attr edge_attr' : tensor R) hop
    (es es' : list (Z * Z * list R * list R)) :
  size1 edge_attr' = size1 edge_attr -> es ≡ₚ es' ->
  propagated node_attr edge_attr hop es = propagated node_attr edge_attr' hop es'.
Proof.
  intros Hw Hp. unfold propagated, message_width. rewrite Hw.
  f_equal. apply scatter_perm. by rewrite Hp.
Qed.

Lemma combined_perm source target source' target'
    (node_attr edge_attr edge_weight edge_attr' edge_weight' initial_node_attr : tensor R) :
  graph_shape source target edge_attr edge_weight ->
  graph_shape source' target' edge_attr' edge_weight' ->
  size1 edge_attr' = size1 edge_attr ->
  edges source target edge_attr edge_weight ≡ₚ edges source' target' edge_attr' edge_weight' ->
  combined source target node_attr edge_attr edge_weight initial_node_attr
  = combined source' target' node_attr edge_attr' edge_weight' initial_node_attr.
Proof.
  intros Hg Hg' Hw Hp.
  assert (Hp' : edges target source edge_attr edge_weight
                ≡ₚ edges target' source' edge_attr' edge_weight').
  { rewrite (edges_flip _ _ _ _ Hg), (edges_flip _ _ _ _ Hg'). by rewrite Hp. }
  unfold combined, hop2_in, hop2_out, hop1_in, hop1_out.
  rewrite (propagated_perm node_attr edge_attr edge_attr' 1 _ _ Hw Hp).
  rewrite (propagated_perm node_attr edge_attr edge_attr' 1 _ _ Hw Hp').
  rewrite (propagated_perm _ edge_attr edge_attr' 2 _ _ Hw Hp).
  rewrite (propagated_perm _ edge_attr edge_attr' 2 _ _ Hw Hp').
  done.
Qed.

Lemma indices_ok_perm N source target source' target'
    (edge_attr edge_weight edge_attr' edge_weight' : tensor R) :
  graph_shape source target edge_attr edge_weight ->
  graph_shape source' target' edge_attr' edge_weight' ->
  edges source target edge_attr edge_weight ≡ₚ edges source' target' edge_attr' edge_weight' ->
  indices_ok N source target -> indices_ok N source' target'.
Proof.
  intros Hg Hg' Hp Hi. unfold indices_ok in *.
  pose proof (Permutation_map (fun e : Z * Z * list R * list R => e.1.1.1) Hp) as Hs.
  pose proof (Permutation_map (fun e : Z * Z * list R * list R => e.1.1.2) Hp) as Ht.
  rewrite (edges_sources _ _ _ _ Hg), (edges_sources _ _ _ _ Hg') in Hs.
  rewrite (edges_targets _ _ _ _ Hg), (edges_targets _ _ _ _ Hg') in Ht.
  eapply Permutation_Forall; [|exact Hi]. by apply Permutation_app.
Qed.

End Reorder.

End Facts.

(** ** The claims *)

Section Claims.
Context {B : Backend}.

Lemma cat2_inv (a b c : tensor R) :
  cat2 a b = Ok c -> c = hcat a b /\ size0 a = size0 b.
Proof.
  unfold cat2. destruct (size0 a =? size0 b)%nat eqn:E; [|done].
  apply Nat.eqb_eq in E. intros H. by simplify_eq.
Qed.

Lemma cat6_inv (t0 t1 t2 t3 t4 t5 c : tensor R) :
  cat [t0; t1; t2; t3; t4; t5] = Ok c ->
  c = combined6 t0 t1 t2 t3 t4 t5
  /\ size0 t1 = size0 t0 /\ size0 t2 = size0 t0 /\ size0 t3 = size0 t0
  /\ size0 t4 = size0 t0 /\ size0 t5 = size0 t0.
Proof.
  unfold cat. cbn [foldl mbind res_bind]. intros H.
  destruct (cat2 t0 t1) as [c1|] eqn:E1; [|done]. cbn [mbind res_bind] in H.
  destruct (cat2 c1 t2) as [c2|] eqn:E2; [|done]. cbn [mbind res_bind] in H.
  destruct (cat2 c2 t3) as [c3|] eqn:E3; [|done]. cbn [mbind res_bind] in H.
  destruct (cat2 c3 t4) as [c4|] eqn:E4; [|done]. cbn [mbind res_bind] in H.
  apply cat2_inv in E1 as [-> H1], E2 as [-> H2], E3 as [-> H3], E4 as [-> H4], H as [-> H5].
  unfold size0, hcat in *. cbn in *. rewrite ?length_zip_with in *.
  split; [done|]. lia.
Qed.

(** C1.  [forward] of a convolution, on an edge index with rows
    [source] and [target]: the reversed edge index has rows [target]
    and [source]; the four propagations are those of lines 165-169, the
    two-hop ones taking the one-hop results as node features; the six
    blocks are concatenated in the order initial_node_attr, node_attr,
    one_hop_incoming, one_hop_outgoing, two_hop_incoming,
    two_hop_outgoing, every row of the concatenation being the six rows
    side by side in that order; and the MLP's output on the
    concatenation is what [forward] returns.  An exception of any step
    is the exception of [forward]. *)
Theorem C1_forward_computes (self : GATConvImpl.t) (E : nat) (source target : list Z)
    (node_attr edge_attr edge_weight initial_node_attr : tensor R) (w : world) :
  let edge_index := Tensor E [source; target] in
  let reversed_edge_index := Tensor E [target; source] in
  flip0 edge_index = reversed_edge_index
  /\ GATConvImpl.forward self edge_index node_attr edge_attr edge_weight initial_node_attr w
     = (one_hop_incoming ←
          lift (GATConvImpl.propagate edge_index node_attr edge_attr edge_weight 1);
        one_hop_outgoing ←
          lift (GATConvImpl.propagate reversed_edge_index node_attr edge_attr edge_weight 1);
        two_hop_incoming ←
          lift (GATConvImpl.propagate edge_index one_hop_incoming edge_attr edge_weight 2);
        two_hop_outgoing ←
          lift (GATConvImpl.propagate reversed_edge_index one_hop_outgoing
                  edge_attr edge_weight 2);
        combined ← lift (cat [initial_node_attr; node_attr;
                              one_hop_incoming; one_hop_outgoing;
                              two_hop_incoming; two_hop_outgoing]);
        MLPImpl.forward (GATConvImpl.mlp self) combined)
       (World (gen w)
          (trace w ++ [ForwardCall (MLPImpl.model (GATConvImpl.mlp self))
                         node_attr initial_node_attr]))
  /\ forall (p1 p2 p3 p4 c : tensor R),
       cat [initial_node_attr; node_attr; p1; p2; p3; p4] = Ok c ->
       size0 c = size0 initial_node_attr
       /\ size1 c = (size1 initial_node_attr + size1 node_attr + size1 p1 + size1 p2
                     + size1 p3 + size1 p4)%nat
       /\ forall n r0 r1 r2 r3 r4 r5,
            data initial_node_attr !! n = Some r0 -> data node_attr !! n = Some r1 ->
            data p1 !! n = Some r2 -> data p2 !! n = Some r3 ->
            data p3 !! n = Some r4 -> data p4 !! n = Some r5 ->
            data c !! n = Some (r0 ++ r1 ++ r2 ++ r3 ++ r4 ++ r5).
Proof.
  intros edge_index reversed_edge_index. split; [reflexivity|]. split.
  - unfold GATConvImpl.forward. by erewrite bind_ok by reflexivity.
  - intros p1 p2 p3 p4 c Hc.
    apply cat6_inv in Hc as (-> & H1 & H2 & H3 & H4 & H5).
    split; [|split; [done|]].
    + unfold combined6, hcat, size0 in *. cbn. rewrite !length_zip_with. lia.
    + intros n r0 r1 r2 r3 r4 r5 L0 L1 L2 L3 L4 L5. unfold combined6.
      rewrite (hcat_lookup _ _ n ((((r0 ++ r1) ++ r2) ++ r3) ++ r4) r5);
        [by rewrite <- !app_assoc| |done].
      repeat (apply hcat_lookup; [|done]). done.
Qed.

Lemma edges_lookup (source target : list Z) (edge_attr edge_weight : tensor R) e s a wt :
  length target = length source ->
  source !! e = Some s -> data edge_attr !! e = Some a -> data edge_weight !! e = Some wt ->
  exists t, edges source target edge_attr edge_weight !! e = Some (s, t, a, wt).
Proof.
  intros Hlen Hs Ha Hw.
  destruct (target !! e) as [t|] eqn:Ht.
  - exists t. unfold edges. rewrite !lookup_zip_with, Hs, Ht. cbn. by rewrite Ha, Hw.
  - apply lookup_ge_None in Ht. apply lookup_lt_Some in Hs. lia.
Qed.

(** C2.  On a graph of [E] edges with [E] feature rows and an [E x 1]
    column of weights, [message] returns one row per edge; the row of
    edge [e], whose source is [s] and whose weight is [wt], is
    [wt * (node_attr[s] ++ edge_attr[e])] when [hop = 1] and
    [wt * node_attr[s]] otherwise. *)
Theorem C2_message_per_edge (E : nat) (source target : list Z)
    (node_attr edge_attr edge_weight : tensor R) (hop : Z) :
  graph_shape source target edge_attr edge_weight ->
  rectangular node_attr ->
  Forall (fun i => in_range (size0 node_attr) i = true) source ->
  exists messages,
    GATConvImpl.message (Tensor E [source; target]) node_attr edge_attr edge_weight hop
      = Ok messages
    /\ size0 messages = length source
    /\ forall e s node_attr_j a wt,
         source !! e = Some s ->
         data node_attr !! Z.to_nat s = Some node_attr_j ->
         data edge_attr !! e = Some a ->
         data edge_weight !! e = Some [wt] ->
         data messages !! e
         = Some (if hop =? 1 then map (Rmul wt) (node_attr_j ++ a)
                 else map (Rmul wt) node_attr_j).
Proof.
  intros Hg Hn Hs. eexists. split; [by apply message_closed_form|]. cbn [data]. split.
  - unfold size0. cbn. by rewrite length_map, edges_length.
  - intros e s x_j a wt Les Lx La Lw.
    destruct (edges_lookup source target edge_attr edge_weight e s a [wt])
      as [t Le]; [by destruct Hg|done..|].
    rewrite list_lookup_fmap, Le. cbn. unfold nth_row. rewrite Lx. cbn.
    by destruct (hop =? 1).
Qed.

(** C3.  With one target index per message, all in [0, num_nodes),
    [aggregate] returns a [num_nodes x width] matrix whose row [n] is
    the sum, in edge order, of the messages of the edges with target
    [n]; a node that no edge targets gets the zero row. *)
Theorem C3_aggregate_scatter_sum (E : nat) (source target : list Z)
    (messages : tensor R) (num_nodes : nat) :
  length target = size0 messages ->
  Forall (fun i => in_range num_nodes i = true) target ->
  rectangular messages ->
  exists out,
    GATConvImpl.aggregate (Tensor E [source; target]) messages num_nodes = Ok out
    /\ size0 out = num_nodes /\ size1 out = size1 messages /\ rectangular out
    /\ forall n, (n < num_nodes)%nat ->
         data out !! n
           = Some (sum_rows (size1 messages) (incoming n target (data messages)))
         /\ (Z.of_nat n ∉ target ->
             data out !! n = Some (replicate (size1 messages) R0)).
Proof.
  intros Hlen Hall Hrect. eexists. split; [by apply aggregate_closed_form|].
  cbn [data size1]. unfold size0. cbn [data].
  split; [by rewrite length_map, length_seq|]. split; [done|]. split.
  - unfold rectangular. cbn. apply Forall_map, Forall_forall. intros n _. cbn.
    by apply sum_rows_length, incoming_rect.
  - intros n Hn.
    assert (Hrow : map (fun n => sum_rows (size1 messages)
                                   (incoming n target (data messages)))
                       (seq 0 num_nodes) !! n
                   = Some (sum_rows (size1 messages) (incoming n target (data messages)))).
    { by rewrite list_lookup_fmap, lookup_seq_lt. }
    split; [done|]. intros Hnot. by rewrite Hrow, incoming_none.
Qed.

(** C4.  In exact arithmetic, listing the edges of a valid graph in
    another order (source, target, feature row and weight of each edge
    together) changes neither what [propagate] and [aggregate] return
    nor what [forward] of a convolution returns. *)
Theorem C4_edge_order_independent {EA : ExactArith B} (self : GATConvImpl.t)
    (E E' : nat) (source target source' target' : list Z)
    (node_attr edge_attr edge_weight edge_attr' edge_weight' initial_node_attr : tensor R)
    (w : world) :
  valid_input source target node_attr edge_attr edge_weight initial_node_attr ->
  graph_shape source' target' edge_attr' edge_weight' ->
  size1 edge_attr' = size1 edge_attr ->
  edges source target edge_attr edge_weight ≡ₚ edges source' target' edge_attr' edge_weight' ->
  (forall (messages messages' : tensor R) num_nodes,
     size0 messages = length source -> size0 messages' = length source' ->
     size1 messages = size1 messages' ->
     zip target (data messages) ≡ₚ zip target' (data messages') ->
     GATConvImpl.aggregate (Tensor E [source; target]) messages num_nodes
     = GATConvImpl.aggregate (Tensor E' [source'; target']) messages' num_nodes)
  /\ (forall hop,
        GATConvImpl.propagate (Tensor E [source; target]) node_attr edge_attr edge_weight hop
        = GATConvImpl.propagate (Tensor E' [source'; target']) node_attr
            edge_attr' edge_weight' hop)
  /\ GATConvImpl.forward self (Tensor E [source; target])
       node_attr edge_attr edge_weight initial_node_attr w
     = GATConvImpl.forward self (Tensor E' [source'; target'])
         node_attr edge_attr' edge_weight' initial_node_attr w.
Proof.
  intros Hv Hg' Hw Hp. pose proof Hv as [Hg Hi Hn Hin Hrows].
  pose proof (indices_ok_perm _ _ _ _ _ _ _ _ _ Hg Hg' Hp Hi) as Hi'.
  split; [|split].
  - intros messages messages' N Hm Hm' Hs Hz.
    apply aggregate_perm; try done.
    + destruct Hg. congruence.
    + destruct Hg'. congruence.
  - intros hop. rewrite !propagate_closed_form by done.
    f_equal. by apply propagated_perm.
  - rewrite !GAT_forward_valid by (by split).
    by rewrite (combined_perm _ _ _ _ _ _ _ _ _ _ Hg Hg' Hw Hp).
Qed.

Lemma readout_input_lookup (source target : list Z) (x : tensor R) i s t :
  source !! i = Some s -> target !! i = Some t ->
  data (readout_input source target x) !! i
  = Some (nth_row (data x) s ++ nth_row (data x) t).
Proof.
  intros Hs Ht. unfold readout_input. apply hcat_lookup; cbn.
  - by rewrite list_lookup_fmap, Hs.
  - by rewrite list_lookup_fmap, Ht.
Qed.

Lemma NN_forward_unfold (self : NNImpl.t) (edge_index : tensor Z)
    (node_attr edge_attr edge_weight : tensor R) (w : world) :
  INT_MIN < NNImpl.k self <= INT_MAX ->
  NNImpl.forward self edge_index node_attr edge_attr edge_weight w
  = (x ← GATConvImpl.forward (NNImpl.gatconv1 self) edge_index node_attr
           edge_attr edge_weight node_attr;
     x ← iterM (Z.to_nat (NNImpl.k self - 1))
           (fun x => GATConvImpl.forward (NNImpl.gatconv2 self) edge_index x
                       edge_attr edge_weight node_attr) x;
     readout (NNImpl.mlp self) edge_index x) w.
Proof.
  intros Hk. unfold NNImpl.forward.
  assert (Hb : int_sub (NNImpl.k self) 1 = NNImpl.k self - 1).
  { apply int_wrap_id. unfold INT_MIN, INT_MAX in *. lia. }
  rewrite Hb. apply bind_ext; [done|]. intros x w1.
  apply bind_ext; [|done].
  destruct (decide (1 <= NNImpl.k self)) as [H1|H1].
  - apply for_int_iterM; unfold INT_MAX in *; lia.
  - replace (Z.to_nat (NNImpl.k self - 1)) with 0%nat by lia. done.
Qed.

(** C5.  A network built with [k >= 1] applies [gatconv1] once, to
    [node_attr] with [node_attr] as initial features, then [gatconv2]
    [k - 1] times, each time to the running embedding with the
    original [node_attr] as initial features: on a valid graph the
    forward pass succeeds, the convolution calls it makes are exactly
    these [k], and its result is the reducer's output on the rows
    [embedding[source[e]] ++ embedding[target[e]]], one scalar per
    edge. *)
Theorem C5_stacked_forward (node_attr_size : Z) (hidden_sizes_1 hidden_sizes_2
    hidden_sizes_mlp : list Z) (output_node_attr_size edge_attr_size : Z)
    (dropout_prob : float) (use_layer_norm : bool) (k : Z) (w0 w1 : world)
    (self : NNImpl.t) (E : nat) (source target : list Z)
    (node_attr edge_attr edge_weight : tensor R) (w : world) :
  NNImpl.ctor node_attr_size hidden_sizes_1 hidden_sizes_2 hidden_sizes_mlp
    output_node_attr_size edge_attr_size dropout_prob use_layer_norm k w0 = Ok (self, w1) ->
  1 <= k <= INT_MAX ->
  combined_width node_attr_size node_attr_size edge_attr_size <= INT_MAX ->
  combined_width output_node_attr_size node_attr_size edge_attr_size <= INT_MAX ->
  2 * output_node_attr_size <= INT_MAX ->
  valid_input source target node_attr edge_attr edge_weight node_attr ->
  Z.of_nat (size1 node_attr) = node_attr_size ->
  Z.of_nat (size1 edge_attr) = edge_attr_size ->
  let edge_index := Tensor E [source; target] in
  let conv1 := MLPImpl.model (GATConvImpl.mlp (NNImpl.gatconv1 self)) in
  let conv2 := MLPImpl.model (GATConvImpl.mlp (NNImpl.gatconv2 self)) in
  NNImpl.forward self edge_index node_attr edge_attr edge_weight w
  = (x ← GATConvImpl.forward (NNImpl.gatconv1 self) edge_index node_attr
           edge_attr edge_weight node_attr;
     x ← iterM (Z.to_nat (k - 1))
           (fun x => GATConvImpl.forward (NNImpl.gatconv2 self) edge_index x
                       edge_attr edge_weight node_attr) x;
     readout (NNImpl.mlp self) edge_index x) w
  /\ exists (e1 : tensor R) (es : list (tensor R)) (y : tensor R) (w' w'' : world),
       NNImpl.forward self edge_index node_attr edge_attr edge_weight w = Ok (y, w')
       /\ length (e1 :: es) = Z.to_nat k
       /\ trace w' = trace w
            ++ ForwardCall conv1 node_attr node_attr
               :: map (fun x => ForwardCall conv2 x node_attr) (removelast (e1 :: es))
       /\ MLPImpl.forward (NNImpl.mlp self)
            (readout_input source target (List.last es e1)) w'' = Ok (y, w')
       /\ (forall i s t, source !! i = Some s -> target !! i = Some t ->
             data (readout_input source target (List.last es e1)) !! i
             = Some (nth_row (data (List.last es e1)) s
                     ++ nth_row (data (List.last es e1)) t))
       /\ size0 y = length source /\ size1 y = 1%nat.
Proof.
  intros Hc Hk H1 H2 H3 Hv Hn He edge_index conv1 conv2.
  destruct (NN_ctor_typed _ _ _ _ _ _ _ _ _ _ _ _ Hc H1 H2 H3)
    as (T1 & T2 & T3 & Hkk & Ho & _).
  assert (Hunf := NN_forward_unfold self edge_index node_attr edge_attr edge_weight w).
  rewrite Hkk in Hunf. split; [apply Hunf; unfold INT_MIN; lia|].
  rewrite Hunf by (unfold INT_MIN; lia). clear Hunf.
  destruct (GAT_forward_ok (NNImpl.gatconv1 self) E source target node_attr edge_attr
              edge_weight node_attr w output_node_attr_size Hv)
    as (e1 & wa & F1 & W1 & N1 & R1' & Tr1).
  { rewrite <- T1. f_equal. unfold combined_width. lia. }
  pose proof Hv as [Hg Hi Hnr _ _].
  destruct (iterM_conv (NNImpl.gatconv2 self) E source target node_attr edge_attr edge_weight
              output_node_attr_size (Z.to_nat (k - 1)) e1 wa)
    as (es & wb & Fit & Hlen & Trb & Wb & Nb & Rb).
  { split; try done; congruence. }
  { done. }
  { rewrite <- T2. f_equal. unfold combined_width. lia. }
  destruct (readout_ok (NNImpl.mlp self) E source target (List.last es e1) wb)
    as (y & w' & Fr & Fm & Ny & Wy & Ry & Tr).
  { by destruct Hg. }
  { by rewrite Nb, N1. }
  { done. }
  { rewrite <- T3. f_equal. lia. }
  exists e1, es, y, w', wb.
  erewrite bind_ok by exact F1. erewrite bind_ok by exact Fit.
  split; [exact Fr|]. split; [cbn; lia|]. split.
  { rewrite Tr, Trb, Tr1, <- app_assoc. done. }
  split; [exact Fm|]. split; [|done].
  intros i s t. apply readout_input_lookup.
Qed.

(** C6 (as amended).  The constructor of the network does not look at
    [k]: with [k < 1] it succeeds or raises exactly as with any other
    [k'], and stores [k]; the forward pass of the network it builds
    then applies [gatconv1] once, [gatconv2] never, and the
    read-out. *)
Theorem C6_k_is_not_checked (node_attr_size : Z) (hidden_sizes_1 hidden_sizes_2
    hidden_sizes_mlp : list Z) (output_node_attr_size edge_attr_size : Z)
    (dropout_prob : float) (use_layer_norm : bool) (k : Z) (w0 : world) :
  INT_MIN < k < 1 ->
  (forall k',
     NNImpl.ctor node_attr_size hidden_sizes_1 hidden_sizes_2 hidden_sizes_mlp
       output_node_attr_size edge_attr_size dropout_prob use_layer_norm k w0
     = with_k k
         (NNImpl.ctor node_attr_size hidden_sizes_1 hidden_sizes_2 hidden_sizes_mlp
            output_node_attr_size edge_attr_size dropout_prob use_layer_norm k' w0))
  /\ forall self w1,
       NNImpl.ctor node_attr_size hidden_sizes_1 hidden_sizes_2 hidden_sizes_mlp
         output_node_attr_size edge_attr_size dropout_prob use_layer_norm k w0
       = Ok (self, w1) ->
       forall (edge_index : tensor Z) (node_attr edge_attr edge_weight : tensor R) w,
         NNImpl.forward self edge_index node_attr edge_attr edge_weight w
         = (x ← GATConvImpl.forward (NNImpl.gatconv1 self) edge_index node_attr
                  edge_attr edge_weight node_attr;
            readout (NNImpl.mlp self) edge_index x) w.
Proof.
  intros Hk. split.
  - intros k'. unfold NNImpl.ctor, mbind, M_bind, mret, M_ret, with_k.
    destruct (GATConvImpl.ctor node_attr_size _ _ _ _ _ _ w0) as [[c1 w1]|]; [|done].
    destruct (GATConvImpl.ctor output_node_attr_size _ _ _ _ _ _ w1) as [[c2 w2]|]; [|done].
    by destruct (MLPImpl.ctor _ _ _ _ _ w2) as [[m w3]|].
  - intros self w1 Hc edge_index node_attr edge_attr edge_weight w.
    assert (Hself : NNImpl.k self = k).
    { unfold NNImpl.ctor, mbind, M_bind, mret, M_ret in Hc.
      destruct (GATConvImpl.ctor node_attr_size _ _ _ _ _ _ w0) as [[c1 wa]|]; [|done].
      destruct (GATConvImpl.ctor output_node_attr_size _ _ _ _ _ _ wa) as [[c2 wb]|];
        [|done].
      destruct (MLPImpl.ctor _ _ _ _ _ wb) as [[m wc]|]; [|done].
      by simplify_eq. }
    rewrite NN_forward_unfold by (rewrite Hself; unfold INT_MAX; lia).
    apply bind_ext; [done|]. intros x wa.
    rewrite Hself. by replace (Z.to_nat (k - 1)) with 0%nat by lia.
Qed.

(** C7 (as amended).  As long as [5 * input + initial + 4 * edge] is
    representable as an [int]: the constructors of the MLP and of the
    convolution raise [std::invalid_argument] exactly when a size
    constraint is violated; they succeed exactly when no size
    constraint is violated and [dropout_prob] is not greater than one;
    with valid sizes and [dropout_prob > 1] they raise the [c10::Error]
    of the dropout layer's constructor. *)
Theorem C7_size_constraints (input_size : Z) (hidden_sizes : list Z)
    (output_size initial_node_attr_size edge_attr_size : Z)
    (dropout_prob : float) (use_layer_norm : bool) (w : world) :
  combined_width input_size initial_node_attr_size edge_attr_size <= INT_MAX ->
  ((exists what, MLPImpl.ctor input_size hidden_sizes output_size dropout_prob
                   use_layer_norm w = Err (invalid_argument what))
   <-> size_violation input_size hidden_sizes output_size)
  /\ ((exists what, GATConvImpl.ctor input_size hidden_sizes output_size
                      initial_node_attr_size edge_attr_size dropout_prob
                      use_layer_norm w = Err (invalid_argument what))
      <-> conv_violation input_size hidden_sizes output_size
            initial_node_attr_size edge_attr_size)
  /\ (is_ok (MLPImpl.ctor input_size hidden_sizes output_size dropout_prob
               use_layer_norm w) = true
      <-> ~ size_violation input_size hidden_sizes output_size
          /\ PrimFloat.ltb 1 dropout_prob = false)
  /\ (is_ok (GATConvImpl.ctor input_size hidden_sizes output_size
               initial_node_attr_size edge_attr_size dropout_prob use_layer_norm w) = true
      <-> ~ conv_violation input_size hidden_sizes output_size
            initial_node_attr_size edge_attr_size
          /\ PrimFloat.ltb 1 dropout_prob = false)
  /\ (~ size_violation input_size hidden_sizes output_size ->
      PrimFloat.ltb 1 dropout_prob = true ->
      MLPImpl.ctor input_size hidden_sizes output_size dropout_prob use_layer_norm w
      = Err dropout_error)
  /\ (~ conv_violation input_size hidden_sizes output_size
        initial_node_attr_size edge_attr_size ->
      PrimFloat.ltb 1 dropout_prob = true ->
      GATConvImpl.ctor input_size hidden_sizes output_size initial_node_attr_size
        edge_attr_size dropout_prob use_layer_norm w = Err dropout_error).
Proof.
  intros Hmax.
  set (i := input_size). set (hs := hidden_sizes). set (o := output_size).
  set (n := initial_node_attr_size). set (e := edge_attr_size).
  set (p := dropout_prob). set (ln := use_layer_norm).
  assert (Hmlp : forall i', ~ size_violation i' hs o ->
    (dropout_ok p = true -> is_ok (MLPImpl.ctor i' hs o p ln w) = true)
    /\ (dropout_ok p = false -> MLPImpl.ctor i' hs o p ln w = Err dropout_error)).
  { intros i' Hv. split; intros Hp.
    - destruct (MLP_ctor_ok i' hs o p ln w Hv Hp) as (m & w' & -> & _). done.
    - by apply MLP_ctor_dropout_err. }
  assert (Hgat : ~ conv_violation i hs o n e ->
    (dropout_ok p = true -> is_ok (GATConvImpl.ctor i hs o n e p ln w) = true)
    /\ (dropout_ok p = false -> GATConvImpl.ctor i hs o n e p ln w = Err dropout_error)).
  { intros Hv. rewrite GAT_ctor_valid by done.
    pose proof (conv_valid_inv _ _ _ _ _ Hv) as (_ & _ & _ & Hs).
    destruct (Hmlp _ Hs) as [Hok Herr]. split; intros Hp.
    - specialize (Hok Hp). unfold mbind, M_bind.
      by destruct (MLPImpl.ctor _ hs o p ln w) as [[m w']|].
    - apply bind_err. by apply Herr. }
  repeat split.
  - intros [what Hw]. destruct (decide (size_violation i hs o)) as [|Hv]; [done|].
    exfalso. destruct (Hmlp _ Hv) as [Hok Herr].
    destruct (dropout_ok p); [specialize (Hok eq_refl)|specialize (Herr eq_refl)].
    + rewrite Hw in Hok. done.
    + rewrite Hw in Herr. done.
  - apply MLP_ctor_invalid.
  - intros [what Hw]. destruct (decide (conv_violation i hs o n e)) as [|Hv]; [done|].
    exfalso. destruct (Hgat Hv) as [Hok Herr].
    destruct (dropout_ok p); [specialize (Hok eq_refl)|specialize (Herr eq_refl)].
    + rewrite Hw in Hok. done.
    + rewrite Hw in Herr. done.
  - apply GAT_ctor_invalid.
  - intros Hv. destruct (MLP_ctor_invalid i hs o p ln w Hv) as [what Hw].
    rewrite Hw in H. done.
  - apply dropout_ok_true. destruct (dropout_ok p) eqn:Hp; [done|].
    destruct (decide (size_violation i hs o)) as [Hv|Hv].
    + destruct (MLP_ctor_invalid i hs o p ln w Hv) as [what Hw]. rewrite Hw in H. done.
    + destruct (Hmlp _ Hv) as [_ Herr]. rewrite Herr in H; done.
  - intros [Hv Hp]. apply dropout_ok_true in Hp. by apply (Hmlp _ Hv).
  - intros Hv. destruct (GAT_ctor_invalid i hs o n e p ln w Hv) as [what Hw].
    rewrite Hw in H. done.
  - apply dropout_ok_true. destruct (dropout_ok p) eqn:Hp; [done|].
    destruct (decide (conv_violation i hs o n e)) as [Hv|Hv].
    + destruct (GAT_ctor_invalid i hs o n e p ln w Hv) as [what Hw]. rewrite Hw in H. done.
    + destruct (Hgat Hv) as [_ Herr]. rewrite Herr in H; done.
  - intros [Hv Hp]. apply dropout_ok_true in Hp. by apply (Hgat Hv).
  - intros Hv Hp. apply dropout_ok_false in Hp. by apply (Hmlp _ Hv).
  - intros Hv Hp. apply dropout_ok_false in Hp. by apply (Hgat Hv).
Qed.

(** C8.  The MLP built inside a convolution takes inputs of width
    [5 * input_node_attr_size + initial_node_attr_size + 4 * edge_attr_size]
    (the sum being representable as an [int]); on a valid graph whose
    node, edge and initial feature widths are the configured ones, the
    six-block concatenation of [forward] has exactly that width,
    [forward] raises nothing, and its result has one row per node and
    [output_node_attr_size] columns. *)
Theorem C8_forward_shape (input_node_attr_size : Z) (hidden_sizes : list Z)
    (output_node_attr_size initial_node_attr_size edge_attr_size : Z)
    (dropout_prob : float) (use_layer_norm : bool) (w0 w1 : world)
    (self : GATConvImpl.t) (E : nat) (source target : list Z)
    (node_attr edge_attr edge_weight initial_node_attr : tensor R) (w : world) :
  GATConvImpl.ctor input_node_attr_size hidden_sizes output_node_attr_size
    initial_node_attr_size edge_attr_size dropout_prob use_layer_norm w0 = Ok (self, w1) ->
  combined_width input_node_attr_size initial_node_attr_size edge_attr_size <= INT_MAX ->
  valid_input source target node_attr edge_attr edge_weight initial_node_attr ->
  Z.of_nat (size1 node_attr) = input_node_attr_size ->
  Z.of_nat (size1 edge_attr) = edge_attr_size ->
  Z.of_nat (size1 initial_node_attr) = initial_node_attr_size ->
  input_width (GATConvImpl.mlp self)
    = Some (5 * input_node_attr_size + initial_node_attr_size + 4 * edge_attr_size)
  /\ Z.of_nat (size1 (combined source target node_attr edge_attr edge_weight
                        initial_node_attr))
     = 5 * input_node_attr_size + initial_node_attr_size + 4 * edge_attr_size
  /\ exists y w',
       GATConvImpl.forward self (Tensor E [source; target])
         node_attr edge_attr edge_weight initial_node_attr w = Ok (y, w')
       /\ size0 y = size0 node_attr
       /\ Z.of_nat (size1 y) = output_node_attr_size
       /\ rectangular y.
Proof.
  intros Hc Hmax Hv Hn He Hi.
  apply GAT_ctor_typed in Hc as (_ & _ & Tw & Ti & _); [|done].
  destruct (combined_shape _ _ _ _ _ _ Hv) as (_ & _ & Cw).
  assert (Hsum : Z.of_nat (size1 initial_node_attr + size1 node_attr
                           + 4 * (size1 node_attr + size1 edge_attr))
                 = combined_width input_node_attr_size initial_node_attr_size
                     edge_attr_size).
  { unfold combined_width. lia. }
  split; [exact Ti|]. split; [by rewrite Cw, Hsum|].
  destruct (GAT_forward_ok self E source target node_attr edge_attr edge_weight
              initial_node_attr w output_node_attr_size Hv)
    as (y & w' & Hy & Hw & Hrows & Hr & _); [by rewrite Hsum|].
  by exists y, w'.
Qed.

(** C9.  When some entry of the two rows of [edge_index] lies outside
    [0, N), [N] the number of rows of [node_attr], the forward pass of
    a convolution and that of the network return nothing; on a graph
    of the right shape the exception is the index-range error of
    [index_select] or [index_add_]. *)
Theorem C9_index_out_of_range (self : GATConvImpl.t) (net : NNImpl.t) (E : nat)
    (source target : list Z)
    (node_attr edge_attr edge_weight initial_node_attr : tensor R) (w : world) :
  Exists (fun i => in_range (size0 node_attr) i = false) (source ++ target) ->
  is_ok (GATConvImpl.forward self (Tensor E [source; target])
           node_attr edge_attr edge_weight initial_node_attr w) = false
  /\ is_ok (NNImpl.forward net (Tensor E [source; target])
              node_attr edge_attr edge_weight w) = false
  /\ (graph_shape source target edge_attr edge_weight -> rectangular node_attr ->
      GATConvImpl.forward self (Tensor E [source; target])
        node_attr edge_attr edge_weight initial_node_attr w = Err range_error
      /\ NNImpl.forward net (Tensor E [source; target])
           node_attr edge_attr edge_weight w = Err range_error).
Proof.
  intros Hex.
  assert (Hnone : forall (c : GATConvImpl.t) init w,
    is_ok (GATConvImpl.forward c (Tensor E [source; target])
             node_attr edge_attr edge_weight init w) = false).
  { intros c init w2. unfold GATConvImpl.forward.
    erewrite bind_ok by reflexivity.
    pose proof (propagate_range_none E source target node_attr edge_attr edge_weight 1 Hex)
      as Hp.
    destruct (GATConvImpl.propagate _ node_attr _ _ 1) as [p1|err] eqn:E1; [done|].
    by erewrite bind_lift_err. }
  assert (Herr : graph_shape source target edge_attr edge_weight -> rectangular node_attr ->
    forall (c : GATConvImpl.t) init w,
      GATConvImpl.forward c (Tensor E [source; target])
        node_attr edge_attr edge_weight init w = Err range_error).
  { intros Hg Hn c init w2. unfold GATConvImpl.forward.
    erewrite bind_ok by reflexivity.
    apply bind_lift_err. by apply propagate_range_err. }
  split; [apply Hnone|]. split.
  - unfold NNImpl.forward, mbind at 1, M_bind at 1.
    specialize (Hnone (NNImpl.gatconv1 net) node_attr w).
    by destruct (GATConvImpl.forward _ _ _ _ _ _ w) as [[x wa]|].
  - intros Hg Hn. split; [by apply Herr|].
    unfold NNImpl.forward. apply bind_err. by apply Herr.
Qed.

(** C10 (as amended).  The constructor of the MLP has no check of its
    own on [dropout_prob].  Every probability that is not greater than
    one (a negative one and a NaN included) is accepted: construction
    then succeeds exactly when no size constraint is violated.  Every
    probability that is at most zero builds no dropout layer, and the
    same model as probability zero.  A probability greater than one,
    with valid sizes, is refused by the constructor of the dropout
    layer. *)
Theorem C10_dropout_prob (input_size : Z) (hidden_sizes : list Z) (output_size : Z)
    (dropout_prob : float) (use_layer_norm : bool) (w : world) :
  (PrimFloat.ltb 1 dropout_prob = false ->
   (is_ok (MLPImpl.ctor input_size hidden_sizes output_size dropout_prob
             use_layer_norm w) = true
    <-> ~ size_violation input_size hidden_sizes output_size))
  /\ (PrimFloat.leb dropout_prob 0 = true ->
      MLPImpl.ctor input_size hidden_sizes output_size dropout_prob use_layer_norm w
      = MLPImpl.ctor input_size hidden_sizes output_size 0 use_layer_norm w
      /\ forall m w',
           MLPImpl.ctor input_size hidden_sizes output_size dropout_prob use_layer_norm w
           = Ok (m, w') ->
           existsb is_dropout (MLPImpl.model m) = false)
  /\ (PrimFloat.ltb 1 dropout_prob = true ->
      ~ size_violation input_size hidden_sizes output_size ->
      MLPImpl.ctor input_size hidden_sizes output_size dropout_prob use_layer_norm w
      = Err dropout_error).
Proof.
  split; [|split].
  - intros Hp. apply dropout_ok_true in Hp. split.
    + intros Hok Hv.
      destruct (MLP_ctor_invalid input_size hidden_sizes output_size dropout_prob
                  use_layer_norm w Hv) as [what Hw].
      rewrite Hw in Hok. done.
    + intros Hv.
      destruct (MLP_ctor_ok input_size hidden_sizes output_size dropout_prob
                  use_layer_norm w Hv Hp) as (m & w' & -> & _). done.
  - intros H0. apply leb0_not_positive in H0. split; [by apply MLP_ctor_nodrop|].
    intros m w' Hc. apply MLP_ctor_typed in Hc as (_ & _ & _ & _ & Hd & _). by apply Hd.
  - intros Hp Hv. apply dropout_ok_false in Hp. by apply MLP_ctor_dropout_err.
Qed.

End Claims.

(** ** The theorems at concrete inputs *)

Lemma demo_graph_shape :
  graph_shape demo_source demo_target demo_edge_attr demo_edge_weight.
Proof. split; try reflexivity; repeat constructor. Defined.

Lemma demo_graph_shape' :
  graph_shape demo_source' demo_target' demo_edge_attr' demo_edge_weight'.
Proof. split; try reflexivity; repeat constructor. Defined.

Lemma demo_valid_input :
  valid_input (B := ZBackend) demo_source demo_target demo_node_attr demo_edge_attr
    demo_edge_weight demo_node_attr.
Proof.
  split; [exact demo_graph_shape| | | |reflexivity]; repeat constructor.
Defined.

Lemma C2_message_per_edge_witness :
  exists messages,
    GATConvImpl.message (B := ZBackend) demo_edge_index demo_node_attr demo_edge_attr
      demo_edge_weight 1 = Ok messages
    /\ data messages !! 1%nat = Some [8; 10; 12; 0; 2].
Proof.
  destruct (C2_message_per_edge (B := ZBackend) 3 demo_source demo_target demo_node_attr
              demo_edge_attr demo_edge_weight 1 demo_graph_shape)
    as (messages & Hm & _ & Hrows); [repeat constructor..|].
  exists messages. split; [exact Hm|].
  exact (Hrows 1%nat 1 [4; 5; 6] [0; 1] 2 eq_refl eq_refl eq_refl eq_refl).
Defined.

Lemma C3_aggregate_scatter_sum_witness :
  exists out,
    GATConvImpl.aggregate (B := ZBackend) (Tensor 3 [[0; 1; 2]; [3; 3; 1]])
      (Tensor 2 [[1; 2]; [10; 20]; [5; 5]]) 4 = Ok out
    /\ data out !! 3%nat = Some [11; 22]
    /\ data out !! 0%nat = Some [0; 0].
Proof.
  destruct (C3_aggregate_scatter_sum (B := ZBackend) 3 [0; 1; 2] [3; 3; 1]
              (Tensor 2 [[1; 2]; [10; 20]; [5; 5]]) 4)
    as (out & Ho & _ & _ & _ & Hrows); [reflexivity|repeat constructor..|].
  exists out. split; [exact Ho|].
  destruct (Hrows 3%nat) as [H3 _]; [lia|].
  destruct (Hrows 0%nat) as [_ H0]; [lia|].
  split; [exact H3|]. apply H0.
  intros H. repeat (apply elem_of_cons in H as [H|H]; [discriminate H|]).
  by apply elem_of_nil in H.
Defined.

Lemma C4_edge_order_independent_witness :
  GATConvImpl.forward demo_conv (Tensor 3 [demo_source; demo_target])
    demo_node_attr demo_edge_attr demo_edge_weight demo_node_attr demo_world
  = GATConvImpl.forward demo_conv (Tensor 3 [demo_source'; demo_target'])
      demo_node_attr demo_edge_attr' demo_edge_weight' demo_node_attr demo_world.
Proof.
  apply (C4_edge_order_independent (B := ZBackend) demo_conv 3 3
           demo_source demo_target demo_source' demo_target'
           demo_node_attr demo_edge_attr demo_edge_weight
           demo_edge_attr' demo_edge_weight' demo_node_attr demo_world
           demo_valid_input demo_graph_shape' eq_refl).
  exact (Permutation_app_comm
           [(0, 1, [1; 0], [1]); (1, 2, [0; 1], [2])] [(2, 3, [2; 2], [1])]).
Defined.

Lemma C5_stacked_forward_witness :
  exists self w1,
    NNImpl.ctor (B := ZBackend) 3 [4; 4] [4; 4] [5; 5] 5 2 0 true 3 demo_world
    = Ok (self, w1)
    /\ exists y w',
         NNImpl.forward self demo_edge_index demo_node_attr demo_edge_attr
           demo_edge_weight w1 = Ok (y, w')
         /\ size0 y = 3%nat /\ size1 y = 1%nat.
Proof.
  destruct (NNImpl.ctor (B := ZBackend) 3 [4; 4] [4; 4] [5; 5] 5 2 0 true 3 demo_world)
    as [[self w1]|err] eqn:Hc; [|vm_compute in Hc; discriminate Hc].
  exists self, w1. split; [reflexivity|].
  destruct (C5_stacked_forward (B := ZBackend) 3 [4; 4] [4; 4] [5; 5] 5 2 0 true 3
              demo_world w1 self 3 demo_source demo_target demo_node_attr demo_edge_attr
              demo_edge_weight w1 Hc)
    as (_ & e1 & es & y & w' & w'' & Hy & _ & _ & _ & _ & Hrows & Hcols);
    [unfold INT_MAX; lia|unfold combined_width, INT_MAX; lia
    |unfold combined_width, INT_MAX; lia|unfold INT_MAX; lia
    |exact demo_valid_input|reflexivity|reflexivity|].
  exists y, w'. split; [exact Hy|]. split; [exact Hrows|exact Hcols].
Defined.

Lemma C6_k_is_not_checked_witness :
  NNImpl.ctor (B := ZBackend) 3 [4; 4] [4; 4] [5; 5] 5 2 0 true 0 demo_world
  = with_k 0 (NNImpl.ctor (B := ZBackend) 3 [4; 4] [4; 4] [5; 5] 5 2 0 true 6 demo_world).
Proof.
  apply (C6_k_is_not_checked (B := ZBackend) 3 [4; 4] [4; 4] [5; 5] 5 2 0 true 0 demo_world).
  unfold INT_MIN. lia.
Defined.

(** C6, counterexample: with [k = 0] and with [k = -1] the
    constructor raises nothing. *)
Lemma C6_counterexample :
  raised (NNImpl.ctor (B := ZBackend) 3 [64; 64] [64; 64] [80; 80] 32 3 0 true 0
            demo_world) = None
  /\ raised (NNImpl.ctor (B := ZBackend) 3 [64; 64] [64; 64] [80; 80] 32 3 0 true (-1)
               demo_world) = None.
Proof. split; vm_compute; reflexivity. Qed.

Lemma demo_conv_sizes : ~ conv_violation 3 [4] 2 3 2.
Proof.
  unfold conv_violation. intros [H|[H|[H|[H|[H|H]]]]]; try lia; try discriminate H.
  apply Exists_cons in H as [H|H]; [lia|]. by apply Exists_nil in H.
Defined.

Lemma C7_size_constraints_witness :
  is_ok (GATConvImpl.ctor (B := ZBackend) 3 [4] 2 3 2 0.5 true demo_world) = true.
Proof.
  apply (C7_size_constraints (B := ZBackend) 3 [4] 2 3 2 0.5 true demo_world).
  - unfold combined_width, INT_MAX. lia.
  - split; [exact demo_conv_sizes|reflexivity].
Defined.

(** C7, counterexample: with valid sizes and [dropout_prob = 2] both
    constructors raise, though no size constraint is violated. *)
Lemma C7_counterexample :
  bool_decide (size_violation 3 [4] 1) = false
  /\ MLPImpl.ctor (B := ZBackend) 3 [4] 1 2 true demo_world = Err dropout_error
  /\ bool_decide (conv_violation 3 [4] 2 3 2) = false
  /\ GATConvImpl.ctor (B := ZBackend) 3 [4] 2 3 2 2 true demo_world = Err dropout_error.
Proof. repeat split; vm_compute; reflexivity. Qed.

Lemma C8_forward_shape_witness :
  exists self w1,
    GATConvImpl.ctor (B := ZBackend) 3 [4; 4] 5 3 2 0 true demo_world = Ok (self, w1)
    /\ input_width (GATConvImpl.mlp self) = Some 26
    /\ exists y w',
         GATConvImpl.forward self demo_edge_index demo_node_attr demo_edge_attr
           demo_edge_weight demo_node_attr w1 = Ok (y, w')
         /\ size0 y = 4%nat /\ Z.of_nat (size1 y) = 5.
Proof.
  destruct (GATConvImpl.ctor (B := ZBackend) 3 [4; 4] 5 3 2 0 true demo_world)
    as [[self w1]|err] eqn:Hc; [|vm_compute in Hc; discriminate Hc].
  exists self, w1. split; [reflexivity|].
  destruct (C8_forward_shape (B := ZBackend) 3 [4; 4] 5 3 2 0 true demo_world w1 self 3
              demo_source demo_target demo_node_attr demo_edge_attr demo_edge_weight
              demo_node_attr w1 Hc)
    as (Hin & _ & y & w' & Hy & Hrows & Hcols & _);
    [unfold combined_width, INT_MAX; lia|exact demo_valid_input
    |reflexivity|reflexivity|reflexivity|].
  split; [exact Hin|]. exists y, w'. split; [exact Hy|]. split; [exact Hrows|exact Hcols].
Defined.

Lemma C9_index_out_of_range_witness :
  is_ok (GATConvImpl.forward demo_conv (Tensor 3 [[0; 1; 2]; [1; 2; 4]])
           demo_node_attr demo_edge_attr demo_edge_weight demo_node_attr demo_world)
  = false.
Proof.
  apply (C9_index_out_of_range (B := ZBackend) demo_conv
           (NNImpl.Build demo_conv demo_conv (MLPImpl.Build []) 2) 3
           [0; 1; 2] [1; 2; 4] demo_node_attr demo_edge_attr demo_edge_weight
           demo_node_attr demo_world).
  apply Exists_app. right. do 2 apply Exists_cons_tl. apply Exists_cons_hd. reflexivity.
Defined.

Lemma C10_dropout_prob_witness :
  (is_ok (MLPImpl.ctor (B := ZBackend) 3 [4; 4] 1 (-1.5) true demo_world) = true
   <-> ~ size_violation 3 [4; 4] 1)
  /\ MLPImpl.ctor (B := ZBackend) 3 [4; 4] 1 (-1.5) true demo_world
     = MLPImpl.ctor (B := ZBackend) 3 [4; 4] 1 0 true demo_world.
Proof.
  destruct (C10_dropout_prob (B := ZBackend) 3 [4; 4] 1 (-1.5) true demo_world)
    as (Haccept & Hzero & _).
  split; [exact (Haccept eq_refl)|exact (proj1 (Hzero eq_refl))].
Defined.

(** C10, counterexample: a probability of one and a half, with valid
    sizes, is refused. *)
Lemma C10_counterexample :
  bool_decide (size_violation 3 [4; 4] 1) = false
  /\ raised (MLPImpl.ctor (B := ZBackend) 3 [4; 4] 1 1.5 false demo_world)
     = Some dropout_error.
Proof. split; vm_compute; reflexivity. Qed.

(** ** The end-to-end scenario of the specification

    The path graph above, [k = 2], output width five: the forward pass
    returns one scalar per edge, makes two convolution calls, and
    returns the same again when run again from the same state. *)

Example demo_run_2 : demo_run 2 = Ok (3%nat, 1%nat, 2%nat).
Proof. vm_compute. reflexivity. Qed.

Example demo_run_1 : demo_run 1 = Ok (3%nat, 1%nat, 1%nat).
Proof. vm_compute. reflexivity. Qed.

Example demo_run_0 : demo_run 0 = Ok (3%nat, 1%nat, 1%nat).
Proof. vm_compute. reflexivity. Qed.

Example demo_one_hop_incoming :
  GATConvImpl.propagate (B := ZBackend) demo_edge_index demo_node_attr demo_edge_attr
    demo_edge_weight 1
  = Ok (Tensor 5 [[0; 0; 0; 0; 0]; [1; 2; 3; 1; 0]; [8; 10; 12; 0; 2]; [7; 8; 9; 2; 2]]).
Proof. vm_compute. reflexivity. Qed.

Example demo_one_hop_outgoing :
  GATConvImpl.propagate (B := ZBackend) (flip0 demo_edge_index) demo_node_attr
    demo_edge_attr demo_edge_weight 1
  = Ok (Tensor 5 [[4; 5; 6; 1; 0]; [14; 16; 18; 0; 2]; [1; 1; 1; 2; 2]; [0; 0; 0; 0; 0]]).
Proof. vm_compute. reflexivity. Qed.

(** ** Further properties of the code *)

Section More.
Context {B : Backend}.

(** *** The layers an MLP is made of *)

Lemma join_cons' {A} (x : list A) (l : list (list A)) : mjoin (x :: l) = x ++ mjoin l.
Proof. reflexivity. Qed.

Lemma hidden_layers_kinds g prev h p ln :
  map kind_of (hidden_layers g prev h p ln) = hidden_kinds p ln prev h.
Proof. unfold hidden_layers, hidden_kinds. by destruct ln, (PrimFloat.ltb 0 p). Qed.

Lemma push_rest_kinds rest : forall model prev p ln w model' w',
  MLPImpl.push_rest model prev rest p ln w = Ok (model', w') ->
  map kind_of model'
  = map kind_of model ++ mjoin (zip_with (hidden_kinds p ln) (prev :: rest) rest).
Proof.
  induction rest as [|h rest IH]; intros model prev p ln w model' w' Hc.
  - cbn in Hc. unfold mret, M_ret in Hc. simplify_eq. cbn. by rewrite app_nil_r.
  - cbn [MLPImpl.push_rest] in Hc. unfold mbind, M_bind in Hc.
    rewrite push_hidden_eq in Hc. destruct (dropout_ok p); [|done].
    apply IH in Hc. rewrite Hc, map_app, hidden_layers_kinds, <- app_assoc. done.
Qed.

(** X1.  The layers of a constructed MLP are, in order: for every
    hidden size a linear layer from the size before it (the input size
    for the first), a layer normalisation of that hidden size when
    [use_layer_norm] is set, the activation, and a dropout of
    probability [dropout_prob] when that is positive; then a linear
    layer from the last hidden size to the output size; then the end
    activation unless it is the identity. *)
Theorem X1_mlp_architecture (input_size : Z) (hidden_sizes : list Z) (output_size : Z)
    (dropout_prob : float) (use_layer_norm : bool) (w w' : world) (m : MLPImpl.t) :
  MLPImpl.ctor input_size hidden_sizes output_size dropout_prob use_layer_norm w
    = Ok (m, w') ->
  map kind_of (MLPImpl.model m)
  = architecture input_size hidden_sizes output_size dropout_prob use_layer_norm.
Proof.
  intros Hc. unfold MLPImpl.ctor in Hc.
  destruct (input_size <? 1); [done|]. destruct (output_size <? 1); [done|].
  destruct hidden_sizes as [|h0 rest]; [done|].
  destruct (existsb _ (h0 :: rest)); [done|].
  unfold mbind at 1, M_bind at 1 in Hc. rewrite push_hidden_eq in Hc.
  destruct (dropout_ok dropout_prob); [|done].
  unfold mbind at 1, M_bind at 1 in Hc.
  destruct (MLPImpl.push_rest _ h0 rest dropout_prob use_layer_norm _)
    as [[model wa]|] eqn:Hrest; [|done].
  apply push_rest_kinds in Hrest.
  unfold Linear_ctor, mbind, M_bind, mret, M_ret, draw in Hc.
  injection Hc as <- _. rewrite app_nil_l, hidden_layers_kinds in Hrest.
  unfold architecture.
  change (zip_with (hidden_kinds dropout_prob use_layer_norm)
            (input_size :: h0 :: rest) (h0 :: rest))
    with (hidden_kinds dropout_prob use_layer_norm input_size h0
          :: zip_with (hidden_kinds dropout_prob use_layer_norm) (h0 :: rest) rest).
  rewrite join_cons'.
  destruct end_activation as [f|]; cbn [MLPImpl.model];
    rewrite !map_app, Hrest; cbn [map kind_of]; rewrite <- !app_assoc; done.
Qed.

(** *** What an MLP and a convolution accept *)

Lemma input_width_head (m : MLPImpl.t) i :
  input_width m = Some i ->
  exists o weight bias rest, MLPImpl.model m = Linear i o weight bias :: rest.
Proof.
  unfold input_width. destruct (MLPImpl.model m) as [|[a o weight bias| | | |] rest]; try done.
  intros H. simplify_eq. eauto.
Qed.

Lemma MLP_forward_mismatch (m : MLPImpl.t) i (x : tensor R) w :
  input_width m = Some i -> Z.of_nat (size1 x) <> i ->
  MLPImpl.forward m x w = Err shape_error.
Proof.
  intros Hi Hx. apply input_width_head in Hi as (o & weight & bias & rest & Hm).
  unfold MLPImpl.forward. rewrite Hm. cbn [Sequential_forward].
  apply bind_err. cbn. by rewrite (proj2 (Z.eqb_neq _ _) Hx).
Qed.

(** X2.  A constructed MLP accepts a tensor exactly when its width is
    [input_size]: it then returns a tensor with the same number of rows
    and [output_size] columns; a tensor of any other width is refused
    by the first linear layer, whatever the rest. *)
Theorem X2_mlp_forward_width (input_size : Z) (hidden_sizes : list Z) (output_size : Z)
    (dropout_prob : float) (use_layer_norm : bool) (w0 w1 : world) (m : MLPImpl.t)
    (x : tensor R) (w : world) :
  MLPImpl.ctor input_size hidden_sizes output_size dropout_prob use_layer_norm w0
    = Ok (m, w1) ->
  rectangular x ->
  (Z.of_nat (size1 x) = input_size ->
   exists y w', MLPImpl.forward m x w = Ok (y, w')
     /\ size0 y = size0 x /\ Z.of_nat (size1 y) = output_size /\ rectangular y)
  /\ (Z.of_nat (size1 x) <> input_size -> MLPImpl.forward m x w = Err shape_error).
Proof.
  intros Hc Hx. apply MLP_ctor_typed in Hc as (_ & _ & Hw & Hi & _ & _). split.
  - intros Hsz.
    destruct (Sequential_forward_ok (MLPImpl.model m) x w input_size output_size Hw Hsz Hx)
      as (y & w' & Hy & ? & ? & ? & _).
    by exists y, w'.
  - intros Hsz. by apply MLP_forward_mismatch with (i := input_size).
Qed.

(** X3.  On a valid graph a constructed convolution looks at one
    number only, the total width
    [initial + node + 4 * (node + edge)] of the six blocks: when it
    equals [5 * input_node_attr_size + initial_node_attr_size
    + 4 * edge_attr_size] the forward pass succeeds, also when the
    three widths are not the configured ones; otherwise the first
    linear layer refuses the concatenation. *)
Theorem X3_conv_forward_total_width (input_node_attr_size : Z) (hidden_sizes : list Z)
    (output_node_attr_size initial_node_attr_size edge_attr_size : Z)
    (dropout_prob : float) (use_layer_norm : bool) (w0 w1 : world)
    (self : GATConvImpl.t) (E : nat) (source target : list Z)
    (node_attr edge_attr edge_weight initial_node_attr : tensor R) (w : world) :
  GATConvImpl.ctor input_node_attr_size hidden_sizes output_node_attr_size
    initial_node_attr_size edge_attr_size dropout_prob use_layer_norm w0 = Ok (self, w1) ->
  combined_width input_node_attr_size initial_node_attr_size edge_attr_size <= INT_MAX ->
  valid_input source target node_attr edge_attr edge_weight initial_node_attr ->
  let total := Z.of_nat (size1 initial_node_attr + size1 node_attr
                         + 4 * (size1 node_attr + size1 edge_attr)) in
  (total = combined_width input_node_attr_size initial_node_attr_size edge_attr_size ->
   exists y w',
     GATConvImpl.forward self (Tensor E [source; target])
       node_attr edge_attr edge_weight initial_node_attr w = Ok (y, w')
     /\ size0 y = size0 node_attr /\ Z.of_nat (size1 y) = output_node_attr_size)
  /\ (total <> combined_width input_node_attr_size initial_node_attr_size edge_attr_size ->
      GATConvImpl.forward self (Tensor E [source; target])
        node_attr edge_attr edge_weight initial_node_attr w = Err shape_error).
Proof.
  intros Hc Hmax Hv total.
  apply GAT_ctor_typed in Hc as (_ & _ & Tw & Ti & _); [|done]. split.
  - intros Ht.
    destruct (GAT_forward_ok self E source target node_attr edge_attr edge_weight
                initial_node_attr w output_node_attr_size Hv)
      as (y & w' & Hy & Hw & Hrows & _); [by fold total; rewrite Ht|].
    by exists y, w'.
  - intros Ht. rewrite GAT_forward_valid by done.
    apply MLP_forward_mismatch with (i := combined_width input_node_attr_size
                                            initial_node_attr_size edge_attr_size);
      [done|].
    destruct (combined_shape _ _ _ _ _ _ Hv) as (_ & _ & Cw). by rewrite Cw.
Qed.

(** *** Propagation *)

(** X4.  On a valid graph [propagate] returns one row per node: row
    [n] is the sum, over the edges with target [n] in edge order, of
    the edge's message ([weight * (node_attr[source] ++ edge_attr)]
    for [hop = 1], [weight * node_attr[source]] otherwise).  The
    result can be propagated again, and a second propagation with
    [hop <> 1] keeps its width. *)
Theorem X4_propagate_rows (E : nat) (source target : list Z)
    (node_attr edge_attr edge_weight : tensor R) (hop : Z) :
  graph_shape source target edge_attr edge_weight ->
  rectangular node_attr ->
  indices_ok (size0 node_attr) source target ->
  exists out,
    GATConvImpl.propagate (Tensor E [source; target]) node_attr edge_attr edge_weight hop
      = Ok out
    /\ size0 out = size0 node_attr
    /\ size1 out = (if hop =? 1 then (size1 node_attr + size1 edge_attr)%nat
                    else size1 node_attr)
    /\ rectangular out
    /\ (forall n, (n < size0 node_attr)%nat ->
          data out !! n
          = Some (sum_rows (size1 out)
                    (incoming n target
                       (map (edge_message node_attr hop)
                            (edges source target edge_attr edge_weight)))))
    /\ forall hop', hop' <> 1 ->
         exists out',
           GATConvImpl.propagate (Tensor E [source; target]) out edge_attr edge_weight hop'
             = Ok out'
           /\ size0 out' = size0 node_attr /\ size1 out' = size1 out.
Proof.
  intros Hg Hn Hi. pose proof Hi as Hi'. apply Forall_app in Hi' as [Hs Ht].
  destruct (propagated_shape node_attr edge_attr edge_weight source target hop Hg Hn Hs)
    as (Pr & Pn & Pw). cbn zeta in Pr, Pn, Pw.
  eexists. split; [by apply propagate_closed_form|].
  split; [exact Pn|]. split; [exact Pw|]. split; [exact Pr|]. split.
  - intros n Hlt. unfold propagated, scatter. cbn [data size1].
    rewrite list_lookup_fmap, lookup_seq_lt by done. cbn. do 2 f_equal.
    unfold incoming.
    assert (Hz : zip target (map (edge_message node_attr hop)
                               (edges source target edge_attr edge_weight))
                 = map (fun e => (e.1.1.2, edge_message node_attr hop e))
                       (edges source target edge_attr edge_weight)).
    { rewrite <- (edges_targets _ _ _ _ Hg) at 1. by rewrite zip_map_r. }
    by rewrite Hz.
  - intros hop' Hhop.
    destruct (propagated_shape _ edge_attr edge_weight source target hop' Hg Pr)
      as (Pr' & Pn' & Pw'); [by rewrite Pn|]. cbn zeta in Pr', Pn', Pw'.
    eexists. split; [apply propagate_closed_form; [done|done|by rewrite Pn]|].
    split; [congruence|]. rewrite Pw'. unfold message_width at 1.
    by rewrite (proj2 (Z.eqb_neq _ _) Hhop).
Qed.

(** *** Construction of the network *)

Lemma GAT_ctor_ok i hs o n e p ln w :
  ~ conv_violation i hs o n e -> combined_width i n e <= INT_MAX ->
  dropout_ok p = true ->
  exists self w', GATConvImpl.ctor i hs o n e p ln w = Ok (self, w').
Proof.
  intros Hv Hmax Hp. rewrite GAT_ctor_valid by done.
  pose proof (conv_valid_inv _ _ _ _ _ Hv) as (_ & _ & _ & Hs).
  destruct (MLP_ctor_ok (combined_width i n e) hs o p ln w Hs Hp) as (m & w' & Hm & _).
  exists (GATConvImpl.Build m), w'. by erewrite bind_ok by exact Hm.
Qed.

Lemma GAT_ctor_dropout_err i hs o n e p ln w :
  ~ conv_violation i hs o n e -> combined_width i n e <= INT_MAX ->
  dropout_ok p = false ->
  GATConvImpl.ctor i hs o n e p ln w = Err dropout_error.
Proof.
  intros Hv Hmax Hp. rewrite GAT_ctor_valid by done.
  pose proof (conv_valid_inv _ _ _ _ _ Hv) as (_ & _ & _ & Hs).
  apply bind_err. by apply MLP_ctor_dropout_err.
Qed.

Lemma NN_ctor_cases node hs1 hs2 hsm o e p ln k w :
  combined_width node node e <= INT_MAX ->
  combined_width o node e <= INT_MAX ->
  2 * o <= INT_MAX ->
  (conv_violation node hs1 o node e ->
   exists what, NNImpl.ctor node hs1 hs2 hsm o e p ln k w = Err (invalid_argument what))
  /\ (~ conv_violation node hs1 o node e -> dropout_ok p = false ->
      NNImpl.ctor node hs1 hs2 hsm o e p ln k w = Err dropout_error)
  /\ (~ conv_violation node hs1 o node e -> dropout_ok p = true ->
      (conv_violation o hs2 o node e \/ size_violation (2 * o) hsm 1) ->
      exists what, NNImpl.ctor node hs1 hs2 hsm o e p ln k w = Err (invalid_argument what))
  /\ (~ nn_violation node hs1 hs2 hsm o e -> dropout_ok p = true ->
      exists net w', NNImpl.ctor node hs1 hs2 hsm o e p ln k w = Ok (net, w')).
Proof.
  intros H1 H2 H3. unfold NNImpl.ctor. repeat split.
  - intros Hv. destruct (GAT_ctor_invalid node hs1 o node e p ln w Hv) as [what Hw].
    exists what. by apply bind_err.
  - intros Hv Hp. apply bind_err. by apply GAT_ctor_dropout_err.
  - intros Hv Hp Hlater.
    destruct (GAT_ctor_ok node hs1 o node e p ln w Hv H1 Hp) as (c1 & wa & Hc1).
    erewrite bind_ok by exact Hc1.
    destruct (decide (conv_violation o hs2 o node e)) as [Hv2|Hv2].
    { destruct (GAT_ctor_invalid o hs2 o node e p ln wa Hv2) as [what Hw].
      exists what. by apply bind_err. }
    destruct Hlater as [?|Hv3]; [done|].
    destruct (GAT_ctor_ok o hs2 o node e p ln wa Hv2 H2 Hp) as (c2 & wb & Hc2).
    erewrite bind_ok by exact Hc2.
    assert (Ho : 1 <= o).
    { destruct (decide (o < 1)); [|lia]. exfalso. apply Hv2. right. by left. }
    assert (Hm : int_mul 2 o = 2 * o).
    { apply int_wrap_id. unfold INT_MIN, INT_MAX in *. lia. }
    rewrite Hm.
    destruct (MLP_ctor_invalid (2 * o) hsm 1 p ln wb Hv3) as [what Hw].
    exists what. by apply bind_err.
  - intros Hv Hp.
    assert (Hv1 : ~ conv_violation node hs1 o node e) by (intros ?; apply Hv; by left).
    assert (Hv2 : ~ conv_violation o hs2 o node e)
      by (intros ?; apply Hv; right; by left).
    assert (Hv3 : ~ size_violation (2 * o) hsm 1)
      by (intros ?; apply Hv; right; by right).
    destruct (GAT_ctor_ok node hs1 o node e p ln w Hv1 H1 Hp) as (c1 & wa & Hc1).
    erewrite bind_ok by exact Hc1.
    destruct (GAT_ctor_ok o hs2 o node e p ln wa Hv2 H2 Hp) as (c2 & wb & Hc2).
    erewrite bind_ok by exact Hc2.
    assert (Ho : 1 <= o).
    { destruct (decide (o < 1)); [|lia]. exfalso. apply Hv2. right. by left. }
    assert (Hm : int_mul 2 o = 2 * o).
    { apply int_wrap_id. unfold INT_MIN, INT_MAX in *. lia. }
    rewrite Hm.
    destruct (MLP_ctor_ok (2 * o) hsm 1 p ln wb Hv3 Hp) as (m & wc & Hm' & _).
    erewrite bind_ok by exact Hm'. by eexists _, _.
Qed.

(** X5.  The network's constructor validates through the three
    modules it builds, in that order (the width sums being
    representable as [int]).  It succeeds exactly when no size
    constraint of the first convolution, of the second or of the
    reducer is violated and [dropout_prob] is not greater than one.  A
    violation in the first convolution raises [std::invalid_argument];
    when the first convolution's sizes are valid, a [dropout_prob]
    greater than one raises the dropout error, also when the sizes of
    the second convolution or of the reducer are invalid; with an
    acceptable [dropout_prob], a violation raises
    [std::invalid_argument]. *)
Theorem X5_network_construction (node_attr_size : Z) (hidden_sizes_1 hidden_sizes_2
    hidden_sizes_mlp : list Z) (output_node_attr_size edge_attr_size : Z)
    (dropout_prob : float) (use_layer_norm : bool) (k : Z) (w : world) :
  combined_width node_attr_size node_attr_size edge_attr_size <= INT_MAX ->
  combined_width output_node_attr_size node_attr_size edge_attr_size <= INT_MAX ->
  2 * output_node_attr_size <= INT_MAX ->
  let built := NNImpl.ctor node_attr_size hidden_sizes_1 hidden_sizes_2 hidden_sizes_mlp
                 output_node_attr_size edge_attr_size dropout_prob use_layer_norm k w in
  let first := conv_violation node_attr_size hidden_sizes_1 output_node_attr_size
                 node_attr_size edge_attr_size in
  let any := nn_violation node_attr_size hidden_sizes_1 hidden_sizes_2 hidden_sizes_mlp
               output_node_attr_size edge_attr_size in
  (is_ok built = true <-> ~ any /\ PrimFloat.ltb 1 dropout_prob = false)
  /\ (first -> exists what, built = Err (invalid_argument what))
  /\ (~ first -> PrimFloat.ltb 1 dropout_prob = true -> built = Err dropout_error)
  /\ (any -> PrimFloat.ltb 1 dropout_prob = false ->
      exists what, built = Err (invalid_argument what)).
Proof.
  intros H1 H2 H3 built first any.
  destruct (NN_ctor_cases node_attr_size hidden_sizes_1 hidden_sizes_2 hidden_sizes_mlp
              output_node_attr_size edge_attr_size dropout_prob use_layer_norm k w
              H1 H2 H3) as (Hfirst & Hdrop & Hlater & Hok).
  fold built first any in Hfirst, Hdrop, Hlater, Hok.
  assert (Hinv : any -> dropout_ok dropout_prob = true ->
                 exists what, built = Err (invalid_argument what)).
  { intros Hany Hp. destruct (decide first) as [Hf|Hf]; [by apply Hfirst|].
    apply Hlater; [done|done|]. destruct Hany as [?|[?|?]]; [done|by left|by right]. }
  split; [split|split; [done|split]].
  - intros Hb. destruct (decide any) as [Hany|Hany].
    + exfalso. destruct (dropout_ok dropout_prob) eqn:Hp.
      * destruct (Hinv Hany eq_refl) as [what Hw]. rewrite Hw in Hb. done.
      * destruct (decide first) as [Hf|Hf].
        -- destruct (Hfirst Hf) as [what Hw]. rewrite Hw in Hb. done.
        -- rewrite (Hdrop Hf eq_refl) in Hb. done.
    + split; [done|]. apply dropout_ok_true.
      destruct (dropout_ok dropout_prob) eqn:Hp; [done|].
      assert (Hf : ~ first) by (intros ?; apply Hany; by left).
      rewrite (Hdrop Hf eq_refl) in Hb. done.
  - intros [Hany Hp]. apply dropout_ok_true in Hp.
    destruct (Hok Hany Hp) as (net & w' & ->). done.
  - intros Hf Hp. apply dropout_ok_false in Hp. by apply Hdrop.
  - intros Hany Hp. apply dropout_ok_true in Hp. by apply Hinv.
Qed.

(** *** A forward pass without dropout draws no random number *)

Lemma dn_ret {A} (a : A) : draws_nothing (mret a).
Proof.
  exists (Ok a), []. intros w. unfold mret, M_ret. rewrite app_nil_r. by destruct w.
Qed.

Lemma dn_lift {A} (r : res A) : draws_nothing (lift r).
Proof.
  exists r, []. intros w. unfold lift. destruct r; [|done].
  rewrite app_nil_r. by destruct w.
Qed.

Lemma dn_throw {A} (e : exn) : draws_nothing (throw (A := A) e).
Proof. by exists (Err e), []. Qed.

Lemma dn_record (e : event) : draws_nothing (record_call e).
Proof. by exists (Ok tt), [e]. Qed.

Lemma dn_bind {A C} (m : M A) (f : A -> M C) :
  draws_nothing m -> (forall a, draws_nothing (f a)) -> draws_nothing (m ≫= f).
Proof.
  intros (r & calls & Hm) Hf. destruct r as [a|e].
  - destruct (Hf a) as (r' & calls' & Hfa).
    exists r', (calls ++ calls'). intros w. unfold mbind, M_bind.
    rewrite Hm, Hfa. cbn. by rewrite app_assoc.
  - exists (Err e), []. intros w. unfold mbind, M_bind. by rewrite Hm.
Qed.

Lemma dn_layer (l : layer) (x : tensor R) :
  is_dropout l = false -> draws_nothing (layer_forward l x).
Proof.
  destruct l as [a b weight bias|n gamma beta| |p|f]; cbn; intros Hd; try done.
  - destruct (Z.of_nat (size1 x) =? a); [apply dn_ret|apply dn_throw].
  - destruct (Z.of_nat (size1 x) =? n); [apply dn_ret|apply dn_throw].
  - apply dn_ret.
  - apply dn_ret.
Qed.

Lemma dn_sequential (ls : list layer) : forall x : tensor R,
  existsb is_dropout ls = false -> draws_nothing (Sequential_forward ls x).
Proof.
  induction ls as [|l ls IH]; intros x Hd; [apply dn_ret|].
  cbn in Hd. apply orb_false_iff in Hd as [Hl Hls]. cbn [Sequential_forward].
  apply dn_bind; [by apply dn_layer|]. intros y. by apply IH.
Qed.

Lemma dn_for_int {S} (body : Z -> S -> M S) (fuel : nat) : forall i hi s,
  (forall i s, draws_nothing (body i s)) -> draws_nothing (for_int fuel i hi body s).
Proof.
  induction fuel as [|fuel IH]; intros i hi s Hb; [apply dn_ret|].
  cbn [for_int]. destruct (i <? hi); [|apply dn_ret].
  apply dn_bind; [apply Hb|]. intros s'. by apply IH.
Qed.

Lemma dn_conv_forward (self : GATConvImpl.t) (edge_index : tensor Z)
    (node_attr edge_attr edge_weight initial_node_attr : tensor R) :
  existsb is_dropout (MLPImpl.model (GATConvImpl.mlp self)) = false ->
  draws_nothing (GATConvImpl.forward self edge_index node_attr edge_attr edge_weight
                   initial_node_attr).
Proof.
  intros Hd. unfold GATConvImpl.forward.
  apply dn_bind; [apply dn_record|]. intros _.
  repeat (apply dn_bind; [apply dn_lift|]; intros ?).
  by apply dn_sequential.
Qed.

Lemma GAT_ctor_mlp i hs o n e p ln w self w' :
  GATConvImpl.ctor i hs o n e p ln w = Ok (self, w') ->
  exists input_size, MLPImpl.ctor input_size hs o p ln w = Ok (GATConvImpl.mlp self, w').
Proof.
  unfold GATConvImpl.ctor.
  destruct (i <? 1); [done|]. destruct (o <? 1); [done|].
  destruct (n <? 1); [done|]. destruct (e <? 1); [done|].
  destruct hs as [|h0 rest]; [done|]. destruct (existsb _ (h0 :: rest)); [done|].
  intros Hc. eexists. unfold mbind, M_bind in Hc.
  destruct (MLPImpl.ctor _ (h0 :: rest) o p ln w) as [[m wa]|] eqn:Hm; [|done].
  unfold mret, M_ret in Hc. simplify_eq. exact Hm.
Qed.

Lemma NN_ctor_parts node hs1 hs2 hsm o e p ln k w net w' :
  NNImpl.ctor node hs1 hs2 hsm o e p ln k w = Ok (net, w') ->
  exists wa wb i1 i2,
    MLPImpl.ctor i1 hs1 o p ln w = Ok (GATConvImpl.mlp (NNImpl.gatconv1 net), wa)
    /\ MLPImpl.ctor i2 hs2 o p ln wa = Ok (GATConvImpl.mlp (NNImpl.gatconv2 net), wb)
    /\ MLPImpl.ctor (int_mul 2 o) hsm 1 p ln wb = Ok (NNImpl.mlp net, w')
    /\ NNImpl.k net = k.
Proof.
  intros Hc. unfold NNImpl.ctor, mbind, M_bind in Hc.
  destruct (GATConvImpl.ctor node hs1 o node e p ln w) as [[c1 wa]|] eqn:E1; [|done].
  destruct (GATConvImpl.ctor o hs2 o node e p ln wa) as [[c2 wb]|] eqn:E2; [|done].
  destruct (MLPImpl.ctor (int_mul 2 o) hsm 1 p ln wb) as [[m wc]|] eqn:E3; [|done].
  unfold mret, M_ret in Hc. simplify_eq. cbn.
  apply GAT_ctor_mlp in E1 as [i1 E1], E2 as [i2 E2]. by exists wa, wb, i1, i2.
Qed.

(** X6.  A network built with a [dropout_prob] that is not positive
    draws no random number in its forward pass: from every state of
    the generator it returns the same result (or raises the same
    exception) and makes the same convolution calls, and it leaves the
    generator as it found it. *)
Theorem X6_forward_draws_nothing (node_attr_size : Z) (hidden_sizes_1 hidden_sizes_2
    hidden_sizes_mlp : list Z) (output_node_attr_size edge_attr_size : Z)
    (dropout_prob : float) (use_layer_norm : bool) (k : Z) (w0 w1 : world)
    (net : NNImpl.t) (edge_index : tensor Z) (node_attr edge_attr edge_weight : tensor R) :
  NNImpl.ctor node_attr_size hidden_sizes_1 hidden_sizes_2 hidden_sizes_mlp
    output_node_attr_size edge_attr_size dropout_prob use_layer_norm k w0 = Ok (net, w1) ->
  PrimFloat.ltb 0 dropout_prob = false ->
  draws_nothing (NNImpl.forward net edge_index node_attr edge_attr edge_weight).
Proof.
  intros Hc Hp. apply NN_ctor_parts in Hc as (wa & wb & i1 & i2 & E1 & E2 & E3 & _).
  apply MLP_ctor_typed in E1 as (_ & _ & _ & _ & D1 & _).
  apply MLP_ctor_typed in E2 as (_ & _ & _ & _ & D2 & _).
  apply MLP_ctor_typed in E3 as (_ & _ & _ & _ & D3 & _).
  unfold NNImpl.forward.
  apply dn_bind; [apply dn_conv_forward; by apply D1|]. intros x.
  apply dn_bind; [apply dn_for_int; intros; apply dn_conv_forward; by apply D2|].
  intros x'. repeat (apply dn_bind; [apply dn_lift|]; intros ?).
  apply dn_sequential. by apply D3.
Qed.

(** *** The forward pass of the network on a valid graph *)

Lemma NN_forward_ok (net : NNImpl.t) E source target
    (node_attr edge_attr edge_weight : tensor R) w o :
  out_width (Z.of_nat (size1 node_attr + size1 node_attr
                       + 4 * (size1 node_attr + size1 edge_attr)))
    (MLPImpl.model (GATConvImpl.mlp (NNImpl.gatconv1 net))) = Some (Z.of_nat o) ->
  out_width (Z.of_nat (size1 node_attr + o + 4 * (o + size1 edge_attr)))
    (MLPImpl.model (GATConvImpl.mlp (NNImpl.gatconv2 net))) = Some (Z.of_nat o) ->
  out_width (Z.of_nat (o + o)) (MLPImpl.model (NNImpl.mlp net)) = Some 1 ->
  INT_MIN < NNImpl.k net <= INT_MAX ->
  valid_input source target node_attr edge_attr edge_weight node_attr ->
  exists e1 wa ek wb y w',
    GATConvImpl.forward (NNImpl.gatconv1 net) (Tensor E [source; target])
      node_attr edge_attr edge_weight node_attr w = Ok (e1, wa)
    /\ valid_input source target e1 edge_attr edge_weight node_attr
    /\ size1 e1 = o
    /\ iterM (Z.to_nat (NNImpl.k net - 1))
         (fun x => GATConvImpl.forward (NNImpl.gatconv2 net) (Tensor E [source; target])
                     x edge_attr edge_weight node_attr) e1 wa = Ok (ek, wb)
    /\ rectangular ek /\ size0 ek = size0 node_attr
    /\ MLPImpl.forward (NNImpl.mlp net) (readout_input source target ek) wb = Ok (y, w')
    /\ NNImpl.forward net (Tensor E [source; target]) node_attr edge_attr edge_weight w
       = Ok (y, w')
    /\ size0 y = length source /\ size1 y = 1%nat
    /\ length (trace w') = (length (trace w) + 1 + Z.to_nat (NNImpl.k net - 1))%nat.
Proof.
  intros T1 T2 T3 Hk Hv.
  rewrite NN_forward_unfold by done.
  destruct (GAT_forward_ok (NNImpl.gatconv1 net) E source target node_attr edge_attr
              edge_weight node_attr w (Z.of_nat o) Hv T1)
    as (e1 & wa & F1 & W1 & N1 & R1' & Tr1).
  apply Nat2Z.inj in W1.
  pose proof Hv as [Hg Hi Hnr _ _].
  assert (Hv1 : valid_input source target e1 edge_attr edge_weight node_attr).
  { split; try done; congruence. }
  destruct (iterM_conv (NNImpl.gatconv2 net) E source target node_attr edge_attr edge_weight
              (Z.of_nat o) (Z.to_nat (NNImpl.k net - 1)) e1 wa Hv1)
    as (es & wb & Fit & Hlen & Trb & Wb & Nb & Rb).
  { by rewrite W1. }
  { by rewrite W1. }
  apply Nat2Z.inj in Wb.
  destruct (readout_ok (NNImpl.mlp net) E source target (List.last es e1) wb)
    as (y & w' & Fr & Fm & Ny & Wy & Ry & Tr).
  { by destruct Hg. }
  { by rewrite Nb, N1. }
  { done. }
  { by rewrite Wb. }
  exists e1, wa, (List.last es e1), wb, y, w'.
  erewrite bind_ok by exact F1. erewrite bind_ok by exact Fit.
  split; [done|]. split; [done|]. split; [done|]. split; [done|]. split; [done|].
  split; [congruence|]. split; [done|]. split; [done|]. split; [done|]. split; [done|].
  rewrite Tr, Trb, Tr1, !length_app, length_map. cbn [length].
  destruct es as [|x es] using rev_ind; [cbn in *; lia|].
  rewrite app_comm_cons, removelast_last, length_app in *. cbn in *. lia.
Qed.

Lemma NN_widths node o e (node_attr edge_attr : tensor R) :
  Z.of_nat (size1 node_attr) = node -> Z.of_nat (size1 edge_attr) = e -> 1 <= o ->
  Z.of_nat (size1 node_attr + size1 node_attr + 4 * (size1 node_attr + size1 edge_attr))
    = combined_width node node e
  /\ Z.of_nat (size1 node_attr + Z.to_nat o + 4 * (Z.to_nat o + size1 edge_attr))
     = combined_width o node e
  /\ Z.of_nat (Z.to_nat o + Z.to_nat o) = 2 * o
  /\ Z.of_nat (Z.to_nat o) = o.
Proof. unfold combined_width. lia. Qed.

(** *** Reordering the edges reorders the predictions *)

Lemma layer_rows (l : layer) (x y : tensor R) w w' :
  is_dropout l = false -> layer_forward l x w = Ok (y, w') ->
  data y = map (layer_row l) (data x).
Proof.
  destruct l as [a b weight bias|n gamma beta| |p|f]; cbn; intros Hd Hf; try done.
  - destruct (Z.of_nat (size1 x) =? a); [|done].
    unfold mret, M_ret in Hf. by simplify_eq.
  - destruct (Z.of_nat (size1 x) =? n); [|done].
    unfold mret, M_ret in Hf. by simplify_eq.
  - unfold mret, M_ret in Hf. by simplify_eq.
  - unfold mret, M_ret in Hf. by simplify_eq.
Qed.

Lemma sequential_rows (ls : list layer) : forall (x y : tensor R) w w',
  existsb is_dropout ls = false -> Sequential_forward ls x w = Ok (y, w') ->
  data y = map (rows_through ls) (data x).
Proof.
  induction ls as [|l ls IH]; intros x y w w' Hd Hf.
  - cbn in Hf. unfold mret, M_ret in Hf. simplify_eq. cbn. by rewrite map_id.
  - cbn in Hd. apply orb_false_iff in Hd as [Hl Hls].
    cbn [Sequential_forward] in Hf. unfold mbind, M_bind in Hf.
    destruct (layer_forward l x w) as [[x1 w1]|] eqn:E1; [|done].
    apply layer_rows in E1; [|done]. apply IH in Hf; [|done].
    rewrite Hf, E1, map_map. done.
Qed.

Lemma readout_rows source target (edge_attr edge_weight x : tensor R) :
  graph_shape source target edge_attr edge_weight ->
  data (readout_input source target x)
  = map (fun e : Z * Z * list R * list R =>
           nth_row (data x) e.1.1.1 ++ nth_row (data x) e.1.1.2)
        (edges source target edge_attr edge_weight).
Proof.
  intros Hg. unfold readout_input, hcat. cbn [data].
  pose proof (edges_sources _ _ _ _ Hg) as Hs.
  pose proof (edges_targets _ _ _ _ Hg) as Ht.
  revert Hs Ht. generalize (edges source target edge_attr edge_weight).
  intros l Hs Ht. rewrite <- Hs, <- Ht. clear.
  induction l as [|e l IH]; [done|]. cbn. by rewrite IH.
Qed.

Lemma zip_map_self {A C} (h : A -> C) (l : list A) :
  zip l (map h l) = map (fun x => (x, h x)) l.
Proof. induction l; cbn; congruence. Qed.

Section Equivariance.
Context {EA : ExactArith B}.

Lemma GAT_forward_perm (self : GATConvImpl.t) E E' source target source' target'
    (x edge_attr edge_weight edge_attr' edge_weight' initial : tensor R) w :
  valid_input source target x edge_attr edge_weight initial ->
  graph_shape source' target' edge_attr' edge_weight' ->
  size1 edge_attr' = size1 edge_attr ->
  edges source target edge_attr edge_weight ≡ₚ edges source' target' edge_attr' edge_weight' ->
  GATConvImpl.forward self (Tensor E [source; target]) x edge_attr edge_weight initial w
  = GATConvImpl.forward self (Tensor E' [source'; target']) x edge_attr' edge_weight'
      initial w.
Proof.
  intros Hv Hg' Hw Hp. pose proof Hv as [Hg Hi Hn Hin Hrows].
  pose proof (indices_ok_perm _ _ _ _ _ _ _ _ _ Hg Hg' Hp Hi) as Hi'.
  rewrite !GAT_forward_valid by (by split).
  by rewrite (combined_perm _ _ _ _ _ _ _ _ _ _ Hg Hg' Hw Hp).
Qed.

Lemma iterM_perm (self : GATConvImpl.t) E E' source target source' target'
    (node_attr edge_attr edge_weight edge_attr' edge_weight' : tensor R) o n :
  graph_shape source' target' edge_attr' edge_weight' ->
  size1 edge_attr' = size1 edge_attr ->
  edges source target edge_attr edge_weight ≡ₚ edges source' target' edge_attr' edge_weight' ->
  forall (x : tensor R) w,
  valid_input source target x edge_attr edge_weight node_attr ->
  size1 x = o ->
  out_width (Z.of_nat (size1 node_attr + o + 4 * (o + size1 edge_attr)))
    (MLPImpl.model (GATConvImpl.mlp self)) = Some (Z.of_nat o) ->
  iterM n (fun x => GATConvImpl.forward self (Tensor E [source; target])
                      x edge_attr edge_weight node_attr) x w
  = iterM n (fun x => GATConvImpl.forward self (Tensor E' [source'; target'])
                        x edge_attr' edge_weight' node_attr) x w.
Proof.
  intros Hg' Hw Hp. induction n as [|n IH]; intros x w Hv Hx Ho; [done|].
  cbn [iterM].
  destruct (GAT_forward_ok self E source target x edge_attr edge_weight node_attr w
              (Z.of_nat o) Hv) as (y & w1 & Hy & Hyw & Hyn & Hyr & _); [by rewrite Hx|].
  erewrite bind_ok by exact Hy.
  erewrite bind_ok by (rewrite <- (GAT_forward_perm self E E' source target source' target'
                         x edge_attr edge_weight edge_attr' edge_weight' node_attr w
                         Hv Hg' Hw Hp); exact Hy).
  apply Nat2Z.inj in Hyw. destruct Hv as [Hg Hi Hxr Hnr Hrows].
  apply IH; [|done|done]. split; try done; congruence.
Qed.

(** X7.  In exact arithmetic and without dropout, listing the edges of
    a valid graph in another order reorders the predictions of the
    network with them: each edge keeps its prediction. *)
Theorem X7_predictions_follow_edges (node_attr_size : Z) (hidden_sizes_1 hidden_sizes_2
    hidden_sizes_mlp : list Z) (output_node_attr_size edge_attr_size : Z)
    (dropout_prob : float) (use_layer_norm : bool) (k : Z) (w0 w1 : world)
    (net : NNImpl.t) (E E' : nat) (source target source' target' : list Z)
    (node_attr edge_attr edge_weight edge_attr' edge_weight' : tensor R) (w : world) :
  NNImpl.ctor node_attr_size hidden_sizes_1 hidden_sizes_2 hidden_sizes_mlp
    output_node_attr_size edge_attr_size dropout_prob use_layer_norm k w0 = Ok (net, w1) ->
  PrimFloat.ltb 0 dropout_prob = false ->
  INT_MIN < k <= INT_MAX ->
  combined_width node_attr_size node_attr_size edge_attr_size <= INT_MAX ->
  combined_width output_node_attr_size node_attr_size edge_attr_size <= INT_MAX ->
  2 * output_node_attr_size <= INT_MAX ->
  valid_input source target node_attr edge_attr edge_weight node_attr ->
  Z.of_nat (size1 node_attr) = node_attr_size ->
  Z.of_nat (size1 edge_attr) = edge_attr_size ->
  graph_shape source' target' edge_attr' edge_weight' ->
  size1 edge_attr' = size1 edge_attr ->
  edges source target edge_attr edge_weight ≡ₚ edges source' target' edge_attr' edge_weight' ->
  exists y y' wy wy',
    NNImpl.forward net (Tensor E [source; target]) node_attr edge_attr edge_weight w
      = Ok (y, wy)
    /\ NNImpl.forward net (Tensor E' [source'; target']) node_attr edge_attr' edge_weight' w
       = Ok (y', wy')
    /\ zip (edges source target edge_attr edge_weight) (data y)
       ≡ₚ zip (edges source' target' edge_attr' edge_weight') (data y').
Proof.
  intros Hc Hp Hk H1 H2 H3 Hv Hn He Hg' Hw Hperm.
  destruct (NN_ctor_typed _ _ _ _ _ _ _ _ _ _ _ _ Hc H1 H2 H3)
    as (T1 & T2 & T3 & Hkk & Ho & _).
  apply NN_ctor_parts in Hc as (wa0 & wb0 & i1 & i2 & _ & _ & E3 & _).
  apply MLP_ctor_typed in E3 as (_ & _ & _ & _ & D3 & _). specialize (D3 Hp).
  destruct (NN_widths node_attr_size output_node_attr_size edge_attr_size
              node_attr edge_attr Hn He Ho) as (W1 & W2 & W3 & W4).
  set (o := Z.to_nat output_node_attr_size) in *.
  assert (T1' : out_width (Z.of_nat (size1 node_attr + size1 node_attr
                                     + 4 * (size1 node_attr + size1 edge_attr)))
                  (MLPImpl.model (GATConvImpl.mlp (NNImpl.gatconv1 net)))
                = Some (Z.of_nat o)) by (rewrite W1, W4; exact T1).
  assert (T2' : out_width (Z.of_nat (size1 node_attr + o + 4 * (o + size1 edge_attr)))
                  (MLPImpl.model (GATConvImpl.mlp (NNImpl.gatconv2 net)))
                = Some (Z.of_nat o)) by (rewrite W2, W4; exact T2).
  assert (T3' : out_width (Z.of_nat (o + o)) (MLPImpl.model (NNImpl.mlp net)) = Some 1)
    by (rewrite W3; exact T3).
  pose proof Hv as [Hg Hi Hnr _ _].
  assert (Hv' : valid_input source' target' node_attr edge_attr' edge_weight' node_attr).
  { split; try done. by apply (indices_ok_perm _ _ _ _ _ _ _ _ _ Hg Hg' Hperm). }
  destruct (NN_forward_ok net E source target node_attr edge_attr edge_weight w
              o T1' T2' T3')
    as (e1 & wa & ek & wb & y & wy & F1 & Hv1 & We1 & Fit & Rk & Nk & Fm & Fy & _);
    [by rewrite Hkk|done|].
  destruct (NN_forward_ok net E' source' target' node_attr edge_attr' edge_weight' w o)
    as (e1' & wa' & ek' & wb' & y' & wy' & F1' & _ & _ & Fit' & _ & _ & Fm' & Fy' & _);
    [by rewrite Hw|by rewrite Hw|done|by rewrite Hkk|done|].
  rewrite <- (GAT_forward_perm (NNImpl.gatconv1 net) E E' source target source' target'
                node_attr edge_attr edge_weight edge_attr' edge_weight' node_attr w
                Hv Hg' Hw Hperm) in F1'.
  rewrite F1 in F1'. injection F1' as <- <-.
  rewrite <- (iterM_perm (NNImpl.gatconv2 net) E E' source target source' target'
                node_attr edge_attr edge_weight edge_attr' edge_weight'
                o _ Hg' Hw Hperm e1 wa Hv1 We1 T2') in Fit'.
  rewrite Fit in Fit'. injection Fit' as <- <-.
  exists y, y', wy, wy'. split; [exact Fy|]. split; [exact Fy'|].
  unfold MLPImpl.forward in Fm, Fm'.
  apply sequential_rows in Fm, Fm'; try done.
  rewrite Fm, Fm', (readout_rows _ _ edge_attr edge_weight ek Hg),
    (readout_rows _ _ edge_attr' edge_weight' ek Hg'), !map_map, !zip_map_self.
  by apply Permutation_map.
Qed.

End Equivariance.

(** *** Malformed inputs *)

Lemma NN_forward_first_err (net : NNImpl.t) (edge_index : tensor Z)
    (node_attr edge_attr edge_weight : tensor R) w e :
  GATConvImpl.forward (NNImpl.gatconv1 net) edge_index node_attr edge_attr edge_weight
    node_attr w = Err e ->
  NNImpl.forward net edge_index node_attr edge_attr edge_weight w = Err e.
Proof. intros H. unfold NNImpl.forward. by apply bind_err. Qed.

Lemma conv_forward_first_err (self : GATConvImpl.t) (edge_index : tensor Z)
    (node_attr edge_attr edge_weight initial_node_attr : tensor R) w e :
  GATConvImpl.propagate edge_index node_attr edge_attr edge_weight 1 = Err e ->
  GATConvImpl.forward self edge_index node_attr edge_attr edge_weight initial_node_attr w
  = Err e.
Proof.
  intros H. unfold GATConvImpl.forward. erewrite bind_ok by reflexivity.
  by apply bind_lift_err.
Qed.

(** X8.  A wrong number of rows is refused by [torch::cat].  When the
    sources are in range and [edge_attr] has not one row per edge, the
    forward pass of a convolution, and that of the network, raise the
    error of the one-hop message's concatenation; on an otherwise
    valid graph whose [initial_node_attr] has not one row per node, the
    forward pass of a convolution raises the error of the six-block
    concatenation. *)
Theorem X8_row_count_mismatch (self : GATConvImpl.t) (net : NNImpl.t) (E : nat)
    (source target : list Z)
    (node_attr edge_attr edge_weight initial_node_attr : tensor R) (w : world) :
  Forall (fun i => in_range (size0 node_attr) i = true) source ->
  (size0 edge_attr <> length source ->
   GATConvImpl.forward self (Tensor E [source; target])
     node_attr edge_attr edge_weight initial_node_attr w = Err cat_error
   /\ NNImpl.forward net (Tensor E [source; target])
        node_attr edge_attr edge_weight w = Err cat_error)
  /\ (graph_shape source target edge_attr edge_weight ->
      indices_ok (size0 node_attr) source target -> rectangular node_attr ->
      size0 initial_node_attr <> size0 node_attr ->
      GATConvImpl.forward self (Tensor E [source; target])
        node_attr edge_attr edge_weight initial_node_attr w = Err cat_error).
Proof.
  intros Hs. split.
  - intros Hrows.
    assert (Hp : GATConvImpl.propagate (Tensor E [source; target])
                   node_attr edge_attr edge_weight 1 = Err cat_error).
    { unfold GATConvImpl.propagate, GATConvImpl.message.
      cbn [select data lookup list_lookup mbind res_bind].
      rewrite index_select_ok by done. cbn [mbind res_bind Z.eqb Pos.eqb cat foldl].
      unfold cat2.
      destruct (size0 _ =? size0 edge_attr)%nat eqn:Heq; [|done].
      apply Nat.eqb_eq in Heq. unfold size0 at 1 in Heq. cbn [data] in Heq.
      rewrite length_map in Heq. congruence. }
    split; [by apply conv_forward_first_err|].
    by apply NN_forward_first_err, conv_forward_first_err.
  - intros Hg Hi Hn Hrows. pose proof Hi as Hi'. apply Forall_app in Hi' as [_ Ht].
    pose proof (graph_shape_flip _ _ _ _ Hg) as Hg'.
    pose proof (indices_ok_flip _ _ _ Hi) as Hi'.
    destruct (propagated_shape node_attr edge_attr edge_weight source target 1 Hg Hn Hs)
      as (P1r & P1n & _).
    destruct (propagated_shape node_attr edge_attr edge_weight target source 1 Hg' Hn Ht)
      as (P2r & P2n & _).
    cbn zeta in P1r, P1n, P2r, P2n.
    unfold GATConvImpl.forward. erewrite bind_ok by reflexivity.
    change (flip0 (Tensor E [source; target])) with (Tensor E [target; source]).
    erewrite bind_lift_ok by (by apply propagate_closed_form).
    erewrite bind_lift_ok by (by apply propagate_closed_form).
    erewrite bind_lift_ok by (apply propagate_closed_form; [done|done|by rewrite P1n]).
    erewrite bind_lift_ok by (apply propagate_closed_form; [done|done|by rewrite P2n]).
    apply bind_lift_err. unfold cat. cbn [foldl]. unfold cat2 at 5.
    cbn [mbind res_bind].
    destruct (size0 initial_node_attr =? size0 node_attr)%nat eqn:Heq; [|done].
    apply Nat.eqb_eq in Heq. congruence.
Qed.

(** X9.  An edge index with fewer than two rows gives no output:
    with no row the read of [edge_index[0]] in [message] raises the
    index error of the forward pass, with one row the read of
    [edge_index[1]] in [aggregate] does unless [message] raised before. *)
Theorem X9_missing_index_rows (self : GATConvImpl.t) (net : NNImpl.t)
    (edge_index : tensor Z)
    (node_attr edge_attr edge_weight initial_node_attr : tensor R) (w : world) :
  (size0 edge_index < 2)%nat ->
  is_ok (GATConvImpl.forward self edge_index node_attr edge_attr edge_weight
           initial_node_attr w) = false
  /\ is_ok (NNImpl.forward net edge_index node_attr edge_attr edge_weight w) = false
  /\ (size0 edge_index = 0%nat ->
      GATConvImpl.forward self edge_index node_attr edge_attr edge_weight
        initial_node_attr w = Err row_error
      /\ NNImpl.forward net edge_index node_attr edge_attr edge_weight w = Err row_error).
Proof.
  intros Hrows.
  assert (Hp : exists e, GATConvImpl.propagate edge_index node_attr edge_attr edge_weight 1
                         = Err e
                         /\ (size0 edge_index = 0%nat -> e = row_error)).
  { unfold GATConvImpl.propagate, GATConvImpl.message, GATConvImpl.aggregate, select, size0
      in *.
    destruct (data edge_index) as [|r0 [|r1 rest]] eqn:Hd; cbn in Hrows; [| |lia].
    - by exists row_error.
    - cbn [lookup list_lookup mbind res_bind].
      destruct (index_select node_attr r0 ≫= _) as [msgs|e]; cbn [mbind res_bind].
      + exists row_error. done.
      + exists e. done. }
  destruct Hp as (e & Hp & He).
  pose proof (conv_forward_first_err self edge_index node_attr edge_attr edge_weight
                initial_node_attr w e Hp) as Hc.
  pose proof (NN_forward_first_err net edge_index node_attr edge_attr edge_weight w e
                (conv_forward_first_err _ _ _ _ _ _ w e Hp)) as Hn.
  rewrite Hc, Hn. split; [done|]. split; [done|].
  intros H0. by rewrite (He H0).
Qed.

(** *** Nodes without edges *)

Lemma filter_none {A} (P : A -> Prop) `{forall x, Decision (P x)} (l : list A) :
  Forall (fun x => ~ P x) l -> filter P l = [].
Proof.
  induction 1 as [|x l Hx _ IH]; [done|].
  by rewrite filter_cons_False.
Qed.

Lemma propagated_untargeted (node_attr edge_attr edge_weight : tensor R)
    source target hop n :
  graph_shape source target edge_attr edge_weight ->
  (n < size0 node_attr)%nat -> Z.of_nat n ∉ target ->
  data (propagated node_attr edge_attr hop (edges source target edge_attr edge_weight)) !! n
  = Some (replicate (message_width node_attr edge_attr hop) R0).
Proof.
  intros Hg Hn Ht. unfold propagated, scatter. cbn [data].
  rewrite list_lookup_fmap, lookup_seq_lt by done. cbn.
  rewrite filter_none; [done|].
  apply Forall_map. rewrite <- (edges_targets source target edge_attr edge_weight Hg) in Ht.
  apply Forall_forall. intros e He Heq. apply Ht. cbn in Heq. rewrite <- Heq.
  apply list_elem_of_fmap. by exists e.
Qed.

(** X10.  A node that no edge touches gathers nothing: in the forward
    pass of a convolution on a valid graph, the row of the node in the
    input of the MLP is its initial features, its current features and
    zeros for the four neighbourhood blocks; with a dropout-free MLP
    the row of the result is what the layers make of that row. *)
Theorem X10_isolated_node (self : GATConvImpl.t) (E : nat) (source target : list Z)
    (node_attr edge_attr edge_weight initial_node_attr : tensor R) (w : world)
    (n : nat) (r0 r1 : list R) :
  valid_input source target node_attr edge_attr edge_weight initial_node_attr ->
  Z.of_nat n ∉ source -> Z.of_nat n ∉ target ->
  data initial_node_attr !! n = Some r0 -> data node_attr !! n = Some r1 ->
  let own := r0 ++ r1 ++ replicate (4 * (size1 node_attr + size1 edge_attr)) R0 in
  exists c w1,
    GATConvImpl.forward self (Tensor E [source; target])
      node_attr edge_attr edge_weight initial_node_attr w
    = MLPImpl.forward (GATConvImpl.mlp self) c w1
    /\ data c !! n = Some own
    /\ (existsb is_dropout (MLPImpl.model (GATConvImpl.mlp self)) = false ->
        forall y w',
          GATConvImpl.forward self (Tensor E [source; target])
            node_attr edge_attr edge_weight initial_node_attr w = Ok (y, w') ->
          data y !! n = Some (rows_through (MLPImpl.model (GATConvImpl.mlp self)) own)).
Proof.
  intros Hv Hs Ht H0 H1 own.
  pose proof (GAT_forward_valid self E source target node_attr edge_attr edge_weight
                initial_node_attr w Hv) as Hf.
  destruct Hv as [Hg Hi Hn Hin Hrows].
  pose proof (graph_shape_flip _ _ _ _ Hg) as Hg'.
  pose proof (lookup_lt_Some _ _ _ H1) as Hlt. change (n < size0 node_attr)%nat in Hlt.
  apply Forall_app in Hi as [His Hit].
  destruct (propagated_shape node_attr edge_attr edge_weight source target 1 Hg Hn His)
    as (_ & P1n & P1w).
  destruct (propagated_shape node_attr edge_attr edge_weight target source 1 Hg' Hn Hit)
    as (_ & P2n & P2w).
  cbn zeta in P1n, P1w, P2n, P2w.
  set (W := (size1 node_attr + size1 edge_attr)%nat).
  assert (Hc : data (combined source target node_attr edge_attr edge_weight
                       initial_node_attr) !! n = Some own).
  { assert (L1 := propagated_untargeted node_attr edge_attr edge_weight
                    source target 1 n Hg Hlt Ht).
    assert (L2 := propagated_untargeted node_attr edge_attr edge_weight
                    target source 1 n Hg' Hlt Hs).
    assert (L3 := propagated_untargeted
                    (hop1_in source target node_attr edge_attr edge_weight)
                    edge_attr edge_weight source target 2 n Hg
                    ltac:(unfold hop1_in; by rewrite P1n) Ht).
    assert (L4 := propagated_untargeted
                    (hop1_out source target node_attr edge_attr edge_weight)
                    edge_attr edge_weight target source 2 n Hg'
                    ltac:(unfold hop1_out; by rewrite P2n) Hs).
    unfold combined, combined6, hop2_in, hop2_out.
    fold (hop1_in source target node_attr edge_attr edge_weight) in L1 |- *.
    fold (hop1_out source target node_attr edge_attr edge_weight) in L2 |- *.
    rewrite (hcat_lookup _ _ n _ _
               (hcat_lookup _ _ n _ _
                  (hcat_lookup _ _ n _ _
                     (hcat_lookup _ _ n _ _
                        (hcat_lookup _ _ n _ _ H0 H1) L1) L2) L3) L4).
    unfold own, message_width, hop1_in, hop1_out. rewrite P1w, P2w.
    unfold message_width. cbn [Z.eqb Pos.eqb]. fold W.
    rewrite <- !(assoc_L (++)). do 3 f_equal.
    replace (4 * W)%nat with (W + (W + (W + W)))%nat by lia.
    by rewrite !replicate_add. }
  eexists _, _. split; [exact Hf|]. split; [exact Hc|].
  intros Hd y w' Hy. rewrite Hf in Hy. unfold MLPImpl.forward in Hy.
  apply sequential_rows in Hy; [|done].
  by rewrite Hy, list_lookup_fmap, Hc.
Qed.

End More.

(** ** The graphs and the model of [main] *)

Section Generated.
Context {B : Backend} {BS : BackendSub B}.

Lemma entry_gt_tril (t : tensor float) (d : Z) (c : float) (i j : nat) :
  entry (gt (tril t d) c) i j
  = (fun x => PrimFloat.ltb c (if Z.of_nat j - Z.of_nat i <=? d then x else 0%float))
    <$> entry t i j.
Proof.
  unfold entry, gt, tril. cbn [data].
  rewrite list_lookup_fmap, list_lookup_imap.
  destruct (data t !! i) as [row|]; [|done]. cbn.
  rewrite list_lookup_fmap, list_lookup_imap. by destruct (row !! j).
Qed.

Lemma argwhere_rows (mask : tensor bool) (r : list Z) :
  r ∈ data (argwhere mask)
  <-> exists i j, r = [Z.of_nat i; Z.of_nat j] /\ entry mask i j = Some true.
Proof.
  unfold argwhere, entry. cbn [data]. rewrite list_elem_of_join. split.
  - intros (l & Hr & Hl). apply elem_of_lookup_imap in Hl as (i & row & -> & Hi).
    apply list_elem_of_join in Hr as (l & Hr & Hl).
    apply elem_of_lookup_imap in Hl as (j & b & -> & Hj).
    destruct b; [|by apply elem_of_nil in Hr].
    apply list_elem_of_singleton in Hr as ->. exists i, j. by rewrite Hi.
  - intros (i & j & -> & He).
    destruct (data mask !! i) as [row|] eqn:Hi; [|done]. cbn in He.
    eexists. split; [|by apply (elem_of_lookup_imap_2 _ _ _ _ Hi)].
    apply list_elem_of_join. eexists. split; [|by apply (elem_of_lookup_imap_2 _ _ _ _ He)].
    by apply list_elem_of_singleton.
Qed.

Lemma NoDup_join_imap {A C} (f : nat -> A -> list C) (l : list A) :
  (forall i x, NoDup (f i x)) ->
  (forall i i' x x' y, y ∈ f i x -> y ∈ f i' x' -> i = i') ->
  NoDup (mjoin (imap f l)).
Proof.
  revert f. induction l as [|a l IH]; intros f H1 H2; cbn; [constructor|].
  apply NoDup_app. split; [apply H1|]. split.
  - intros y Hy Hin. apply list_elem_of_join in Hin as (l' & Hy' & Hl').
    apply elem_of_lookup_imap in Hl' as (i & x & -> & _).
    by specialize (H2 0%nat (S i) _ _ _ Hy Hy').
  - apply IH; [intros; apply H1|].
    intros i i' x x' y Hy Hy'. by injection (H2 (S i) (S i') _ _ _ Hy Hy').
Qed.

Lemma argwhere_NoDup (mask : tensor bool) : NoDup (data (argwhere mask)).
Proof.
  unfold argwhere. cbn [data]. apply NoDup_join_imap.
  - intros i row. apply NoDup_join_imap.
    + intros j []; [apply NoDup_singleton|constructor].
    + intros j j' [] [] y Hy Hy';
        try (by apply elem_of_nil in Hy); try (by apply elem_of_nil in Hy').
      apply list_elem_of_singleton in Hy, Hy'. simplify_eq. lia.
  - intros i i' row row' y Hy Hy'.
    apply list_elem_of_join in Hy as (l & Hy & Hl), Hy' as (l' & Hy' & Hl').
    apply elem_of_lookup_imap in Hl as (j & b & -> & _), Hl' as (j' & b' & -> & _).
    destruct b, b';
      try (by apply elem_of_nil in Hy); try (by apply elem_of_nil in Hy').
    apply list_elem_of_singleton in Hy, Hy'. simplify_eq. lia.
Qed.

Lemma transpose_pairs (rows : list (list Z)) :
  transpose (Tensor 2 rows)
  = Tensor (length rows)
      [map (fun r => default 0 (r !! 0%nat)) rows;
       map (fun r => default 0 (r !! 1%nat)) rows].
Proof. done. Qed.

Lemma map_expand_id {A} (m : nat) (l : list (list A)) :
  Forall (fun r => length r = m) l -> map (expand m) l = l.
Proof.
  induction 1 as [|r l Hr _ IH]; [done|]. cbn. by rewrite IH, expand_id.
Qed.

Lemma sub_rows (a b : tensor R) :
  size0 a = size0 b -> size1 a = size1 b -> rectangular a -> rectangular b ->
  sub a b = Ok (Tensor (size1 a) (zip_with (zip_with Rsub) (data a) (data b))).
Proof.
  intros H0 H1 Ha Hb. unfold sub. rewrite <- H0, <- H1, !broadcast_dim_same.
  cbn. do 2 f_equal. unfold expand2.
  rewrite !expand_id by (rewrite length_map; done).
  unfold rectangular in *. rewrite <- H1 in Hb.
  by rewrite !map_expand_id.
Qed.

Lemma zip_with_map_self {A C D E'} (h : C -> D -> E') (f : A -> C) (g : A -> D)
    (l : list A) :
  zip_with h (map f l) (map g l) = map (fun x => h (f x) (g x)) l.
Proof. induction l; cbn; congruence. Qed.

(** The rows of the index pairs that [main] keeps: below the diagonal,
    over the threshold. *)
Lemma kept_rows (adjacency_matrix : tensor float) (r : list Z) :
  r ∈ data (argwhere (gt (tril adjacency_matrix (-1)) Main.threshold))
  <-> exists i j x, r = [Z.of_nat i; Z.of_nat j] /\ (j < i)%nat
        /\ entry adjacency_matrix i j = Some x
        /\ PrimFloat.ltb Main.threshold x = true.
Proof.
  rewrite argwhere_rows. split.
  - intros (i & j & -> & He). rewrite entry_gt_tril in He.
    destruct (entry adjacency_matrix i j) as [x|] eqn:Hx; [|done].
    cbn in He. exists i, j, x.
    destruct (Z.of_nat j - Z.of_nat i <=? -1) eqn:Hd.
    + apply Z.leb_le in Hd. split; [done|]. split; [lia|]. split; [done|].
      unfold Main.threshold. congruence.
    + by vm_compute in He.
  - intros (i & j & x & -> & Hlt & Hx & Hc). exists i, j. split; [done|].
    rewrite entry_gt_tril, Hx. cbn.
    destruct (Z.of_nat j - Z.of_nat i <=? -1) eqn:Hd.
    + unfold Main.threshold in Hc. by rewrite Hc.
    + apply Z.leb_gt in Hd. lia.
Qed.

(** Lines 306-311 in closed form, over the rows that [argwhere]
    returns. *)
Lemma make_graph_valid (node_features : tensor R) (adjacency_matrix : tensor float) :
  rectangular node_features ->
  size0 adjacency_matrix = size0 node_features ->
  exists rows edge_features,
    let source := map (fun r => default 0 (r !! 0%nat)) rows in
    let target := map (fun r => default 0 (r !! 1%nat)) rows in
    rows = data (argwhere (gt (tril adjacency_matrix (-1)) Main.threshold))
    /\ Main.make_graph node_features adjacency_matrix
       = Ok (Main.Graph node_features (Tensor (length source) [source; target])
               edge_features (ones (length source) 1))
    /\ valid_input source target node_features edge_features
         (ones (length source) 1) node_features
    /\ size1 edge_features = size1 node_features
    /\ data edge_features
       = zip_with (fun s t => zip_with Rsub (nth_row (data node_features) s)
                                            (nth_row (data node_features) t))
                  source target.
Proof.
  intros Hn Hrows. unfold Main.make_graph.
  pose proof (kept_rows adjacency_matrix) as Hk.
  exists (data (argwhere (gt (tril adjacency_matrix (-1)) Main.threshold))).
  change (argwhere (gt (tril adjacency_matrix (-1)) Main.threshold))
    with (Tensor 2 (data (argwhere (gt (tril adjacency_matrix (-1)) Main.threshold)))).
  cbn [data]. revert Hk.
  generalize (data (argwhere (gt (tril adjacency_matrix (-1)) Main.threshold))).
  intros rows Hk. rewrite transpose_pairs. cbn zeta.
  set (source := map (fun r => default 0 (r !! 0%nat)) rows).
  set (target := map (fun r => default 0 (r !! 1%nat)) rows).
  assert (Hlt : length target = length source) by (unfold source, target; by rewrite !length_map).
  assert (Hs : Forall (fun i => in_range (size0 node_features) i = true) source).
  { apply Forall_map, Forall_forall. intros r Hr.
    apply Hk in Hr as (i & j & x & -> & Hlt' & Hx & _). cbn.
    unfold entry in Hx. destruct (data adjacency_matrix !! i) as [row|] eqn:Hi; [|done].
    apply lookup_lt_Some in Hi. fold (size0 adjacency_matrix) in Hi.
    apply in_range_spec. lia. }
  assert (Ht : Forall (fun i => in_range (size0 node_features) i = true) target).
  { apply Forall_map, Forall_forall. intros r Hr.
    apply Hk in Hr as (i & j & x & -> & Hlt' & Hx & _). cbn.
    unfold entry in Hx. destruct (data adjacency_matrix !! i) as [row|] eqn:Hi; [|done].
    apply lookup_lt_Some in Hi. fold (size0 adjacency_matrix) in Hi.
    apply in_range_spec. lia. }
  cbn [select data lookup list_lookup mbind res_bind size1].
  rewrite !index_select_ok by done. cbn [mbind res_bind].
  rewrite sub_rows; cbn [size1 data];
    [|unfold size0; cbn [data]; by rewrite !length_map|done
     |by apply gather_rect|by apply gather_rect].
  cbn [mbind res_bind].
  assert (Hlen : length rows = length source) by (unfold source; by rewrite length_map).
  rewrite Hlen.
  eexists. split; [done|]. split; [done|].
  split; [|split; [done|]].
  - split; [split| | | |]; try done.
    + unfold size0. cbn [data]. rewrite length_zip_with, !length_map. lia.
    + unfold size0, ones. cbn [data]. by rewrite length_replicate.
    + unfold rectangular. cbn [data size1]. apply Forall_forall. intros r Hr.
      apply elem_of_lookup_zip_with in Hr as (k & a & b & -> & Ha & Hb).
      rewrite length_zip_with.
      apply list_lookup_fmap_Some in Ha as (s & -> & Hs'), Hb as (t & -> & Ht').
      pose proof (Forall_lookup_1 _ _ _ _ Hs Hs') as Is.
      pose proof (Forall_lookup_1 _ _ _ _ Ht Ht') as It. cbn beta in Is, It.
      rewrite !nth_row_length by done. lia.
    + unfold rectangular, ones. cbn [data size1]. apply Forall_replicate.
      by rewrite length_replicate.
    + unfold indices_ok. by apply Forall_app.
  - cbn [data]. unfold source, target. by rewrite !map_map, !zip_with_map_self.
Qed.

(** X11.  The graphs of [main] are valid inputs.  From a rectangular
    feature matrix and a matrix of uniform numbers with as many rows,
    lines 306-311 build an edge index with one column for each entry
    of the matrix below the diagonal that exceeds 0.7 and no other
    (so the target is smaller than the source and no edge is listed
    twice), edge features that are the difference of the features of
    source and target, and weights one; the four tensors are a valid
    input of the network. *)
Theorem X11_generated_graph (node_features : tensor R) (adjacency_matrix : tensor float) :
  rectangular node_features ->
  size0 adjacency_matrix = size0 node_features ->
  exists source target edge_features,
    Main.make_graph node_features adjacency_matrix
    = Ok (Main.Graph node_features (Tensor (length source) [source; target])
            edge_features (ones (length source) 1))
    /\ valid_input source target node_features edge_features
         (ones (length source) 1) node_features
    /\ size1 edge_features = size1 node_features
    /\ data edge_features
       = zip_with (fun s t => zip_with Rsub (nth_row (data node_features) s)
                                            (nth_row (data node_features) t))
                  source target
    /\ NoDup (zip source target)
    /\ forall s t, (s, t) ∈ zip source target
         <-> exists i j x, s = Z.of_nat i /\ t = Z.of_nat j /\ (j < i)%nat
               /\ entry adjacency_matrix i j = Some x
               /\ PrimFloat.ltb Main.threshold x = true.
Proof.
  intros Hn Hrows.
  destruct (make_graph_valid node_features adjacency_matrix Hn Hrows)
    as (rows & edge_features & Hr & Hm & Hv & Hw & Hd).
  pose proof (kept_rows adjacency_matrix) as Hk.
  pose proof (argwhere_NoDup (gt (tril adjacency_matrix (-1)) Main.threshold)) as Hnd.
  rewrite <- Hr in Hk, Hnd. clear Hr.
  eexists _, _, edge_features. split; [exact Hm|]. split; [exact Hv|].
  split; [exact Hw|]. split; [exact Hd|]. rewrite zip_map_r. split.
  - apply NoDup_fmap_2_strong; [|done].
    intros r r' Hr Hr' Heq.
    apply Hk in Hr as (i & j & x & -> & _), Hr' as (i' & j' & x' & -> & _).
    cbn in Heq. by simplify_eq.
  - intros s t. rewrite list_elem_of_fmap. split.
    + intros (r & Heq & Hr). apply Hk in Hr as (i & j & x & -> & Hr).
      cbn in Heq. simplify_eq. by exists i, j, x.
    + intros (i & j & x & -> & -> & Hr). exists [Z.of_nat i; Z.of_nat j].
      split; [done|]. apply Hk. by exists i, j, x.
Qed.

(** X12.  The model of line 316 is constructed from every state, and
    its forward pass accepts every graph that lines 306-311 build from
    node features of width three: line 326 returns one number per edge
    after six calls of the convolutions. *)
Theorem X12_main_forward (node_features : tensor R) (adjacency_matrix : tensor float)
    (w0 w : world) :
  rectangular node_features -> size1 node_features = 3%nat ->
  size0 adjacency_matrix = size0 node_features ->
  exists net w1 g y w',
    Main.model w0 = Ok (net, w1)
    /\ Main.make_graph node_features adjacency_matrix = Ok g
    /\ Main.predict net g w = Ok (y, w')
    /\ size0 y = size1 (Main.graph_edge_index g) /\ size1 y = 1%nat
    /\ length (trace w') = (length (trace w) + 6)%nat.
Proof.
  intros Hn Hw3 Hrows.
  assert (B1 : combined_width 3 3 3 <= INT_MAX) by (vm_compute; discriminate).
  assert (B2 : combined_width 32 3 3 <= INT_MAX) by (vm_compute; discriminate).
  assert (B3 : 2 * 32 <= INT_MAX) by (vm_compute; discriminate).
  destruct (NN_ctor_cases 3 [64; 64] [64; 64] [80; 80] 32 3 0%float true 6 w0 B1 B2 B3)
    as (_ & _ & _ & Hok).
  destruct Hok as (net & w1 & Hc); [|by vm_compute|].
  { unfold nn_violation, conv_violation, size_violation.
    rewrite !Exists_cons, !Exists_nil. intros H.
    repeat (destruct H as [H|H]; [try lia; try done|]); try lia; done. }
  destruct (NN_ctor_typed _ _ _ _ _ _ _ _ _ _ _ _ Hc B1 B2 B3)
    as (T1 & T2 & T3 & Tk & _ & _).
  destruct (make_graph_valid node_features adjacency_matrix Hn Hrows)
    as (rows & edge_features & _ & Hm & Hv & Hwe & _).
  cbn zeta in Hm, Hv. rewrite Hw3 in Hwe.
  set (source := map (fun r => default 0 (r !! 0%nat)) rows) in *.
  set (target := map (fun r => default 0 (r !! 1%nat)) rows) in *.
  destruct (NN_forward_ok net (length source) source target
              node_features edge_features (ones (length source) 1) w 32%nat)
    as (e1 & wa & ek & wb & y & w' & _ & _ & _ & _ & _ & _ & _ & Hf & Hy0 & Hy1 & Htr).
  - rewrite Hw3, Hwe. exact T1.
  - rewrite Hw3, Hwe. exact T2.
  - exact T3.
  - rewrite Tk. by vm_compute.
  - exact Hv.
  - exists net, w1. eexists _, _, _. split; [exact Hc|]. split; [exact Hm|].
    split; [exact Hf|]. split; [exact Hy0|]. split; [exact Hy1|].
    rewrite Htr, Tk. change (Z.to_nat (6 - 1)) with 5%nat. lia.
Qed.

End Generated.

(** ** The further theorems at concrete inputs *)

Lemma X1_mlp_architecture_witness :
  exists m w1,
    MLPImpl.ctor (B := ZBackend) 3 [4; 4] 2 0 true demo_world = Ok (m, w1)
    /\ map kind_of (MLPImpl.model m)
       = [KLinear 3 4; KLayerNorm 4; KActivation;
          KLinear 4 4; KLayerNorm 4; KActivation; KLinear 4 2].
Proof.
  destruct (MLPImpl.ctor (B := ZBackend) 3 [4; 4] 2 0 true demo_world)
    as [[m w1]|err] eqn:Hc; [|vm_compute in Hc; discriminate Hc].
  exists m, w1. split; [reflexivity|].
  exact (X1_mlp_architecture (B := ZBackend) 3 [4; 4] 2 0 true demo_world w1 m Hc).
Defined.

Lemma X2_mlp_forward_width_witness :
  exists m w1,
    MLPImpl.ctor (B := ZBackend) 3 [4; 4] 2 0 true demo_world = Ok (m, w1)
    /\ exists y w',
         MLPImpl.forward m demo_node_attr w1 = Ok (y, w')
         /\ size0 y = 4%nat /\ Z.of_nat (size1 y) = 2.
Proof.
  destruct (MLPImpl.ctor (B := ZBackend) 3 [4; 4] 2 0 true demo_world)
    as [[m w1]|err] eqn:Hc; [|vm_compute in Hc; discriminate Hc].
  exists m, w1. split; [reflexivity|].
  destruct (X2_mlp_forward_width (B := ZBackend) 3 [4; 4] 2 0 true demo_world w1 m
              demo_node_attr w1 Hc) as [Hok _]; [repeat constructor|].
  destruct (Hok eq_refl) as (y & w' & Hy & Hrows & Hcols & _).
  exists y, w'. split; [exact Hy|]. split; [exact Hrows|exact Hcols].
Defined.

Lemma X3_conv_forward_total_width_witness :
  exists self w1,
    GATConvImpl.ctor (B := ZBackend) 3 [4; 4] 5 3 2 0 true demo_world = Ok (self, w1)
    /\ exists y w',
         GATConvImpl.forward self demo_edge_index demo_node_attr demo_edge_attr
           demo_edge_weight demo_node_attr w1 = Ok (y, w')
         /\ size0 y = 4%nat /\ Z.of_nat (size1 y) = 5.
Proof.
  destruct (GATConvImpl.ctor (B := ZBackend) 3 [4; 4] 5 3 2 0 true demo_world)
    as [[self w1]|err] eqn:Hc; [|vm_compute in Hc; discriminate Hc].
  exists self, w1. split; [reflexivity|].
  destruct (X3_conv_forward_total_width (B := ZBackend) 3 [4; 4] 5 3 2 0 true
              demo_world w1 self 3 demo_source demo_target demo_node_attr demo_edge_attr
              demo_edge_weight demo_node_attr w1 Hc) as [Hok _];
    [unfold combined_width, INT_MAX; lia|exact demo_valid_input|].
  destruct (Hok eq_refl) as (y & w' & Hy & Hrows & Hcols).
  exists y, w'. split; [exact Hy|]. split; [exact Hrows|exact Hcols].
Defined.

Lemma X4_propagate_rows_witness :
  exists out,
    GATConvImpl.propagate (B := ZBackend) demo_edge_index demo_node_attr demo_edge_attr
      demo_edge_weight 1 = Ok out
    /\ size0 out = 4%nat /\ size1 out = 5%nat.
Proof.
  destruct (X4_propagate_rows (B := ZBackend) 3 demo_source demo_target demo_node_attr
              demo_edge_attr demo_edge_weight 1 demo_graph_shape)
    as (out & Ho & Hrows & Hcols & _); [repeat constructor..|].
  exists out. split; [exact Ho|]. split; [exact Hrows|exact Hcols].
Defined.

Lemma demo_network_sizes : ~ nn_violation 3 [4; 4] [4; 4] [5; 5] 5 2.
Proof.
  unfold nn_violation, conv_violation, size_violation.
  rewrite !Exists_cons, !Exists_nil. intros H.
  repeat (destruct H as [H|H]; [try lia; try discriminate H|]); try lia; exact H.
Defined.

Lemma X5_network_construction_witness :
  is_ok (NNImpl.ctor (B := ZBackend) 3 [4; 4] [4; 4] [5; 5] 5 2 0 true 3 demo_world)
  = true.
Proof.
  destruct (X5_network_construction (B := ZBackend) 3 [4; 4] [4; 4] [5; 5] 5 2 0 true 3
              demo_world) as [Hiff _];
    [unfold combined_width, INT_MAX; lia..|].
  apply Hiff. split; [exact demo_network_sizes|reflexivity].
Defined.

Lemma X6_forward_draws_nothing_witness :
  exists net w1,
    NNImpl.ctor (B := ZBackend) 3 [4; 4] [4; 4] [5; 5] 5 2 0 true 3 demo_world
    = Ok (net, w1)
    /\ draws_nothing (NNImpl.forward net demo_edge_index demo_node_attr demo_edge_attr
                        demo_edge_weight).
Proof.
  destruct (NNImpl.ctor (B := ZBackend) 3 [4; 4] [4; 4] [5; 5] 5 2 0 true 3 demo_world)
    as [[net w1]|err] eqn:Hc; [|vm_compute in Hc; discriminate Hc].
  exists net, w1. split; [reflexivity|].
  exact (X6_forward_draws_nothing (B := ZBackend) 3 [4; 4] [4; 4] [5; 5] 5 2 0 true 3
           demo_world w1 net demo_edge_index demo_node_attr demo_edge_attr
           demo_edge_weight Hc eq_refl).
Defined.

Lemma X7_predictions_follow_edges_witness :
  exists net w1,
    NNImpl.ctor (B := ZBackend) 3 [4; 4] [4; 4] [5; 5] 5 2 0 true 3 demo_world
    = Ok (net, w1)
    /\ exists y y' wy wy',
         NNImpl.forward net (Tensor 3 [demo_source; demo_target]) demo_node_attr
           demo_edge_attr demo_edge_weight w1 = Ok (y, wy)
         /\ NNImpl.forward net (Tensor 3 [demo_source'; demo_target']) demo_node_attr
              demo_edge_attr' demo_edge_weight' w1 = Ok (y', wy')
         /\ zip (edges demo_source demo_target demo_edge_attr demo_edge_weight) (data y)
            ≡ₚ zip (edges demo_source' demo_target' demo_edge_attr' demo_edge_weight')
                 (data y').
Proof.
  destruct (NNImpl.ctor (B := ZBackend) 3 [4; 4] [4; 4] [5; 5] 5 2 0 true 3 demo_world)
    as [[net w1]|err] eqn:Hc; [|vm_compute in Hc; discriminate Hc].
  exists net, w1. split; [reflexivity|].
  apply (X7_predictions_follow_edges (B := ZBackend) 3 [4; 4] [4; 4] [5; 5] 5 2 0 true 3
           demo_world w1 net 3 3 demo_source demo_target demo_source' demo_target'
           demo_node_attr demo_edge_attr demo_edge_weight demo_edge_attr'
           demo_edge_weight' w1 Hc eq_refl);
    [unfold INT_MIN, INT_MAX; lia|unfold combined_width, INT_MAX; lia
    |unfold combined_width, INT_MAX; lia|unfold INT_MAX; lia
    |exact demo_valid_input|reflexivity|reflexivity|exact demo_graph_shape'
    |reflexivity|].
  exact (Permutation_app_comm
           [(0, 1, [1; 0], [1]); (1, 2, [0; 1], [2])] [(2, 3, [2; 2], [1])]).
Defined.

Lemma X8_row_count_mismatch_witness :
  GATConvImpl.forward demo_conv (Tensor 3 [demo_source; demo_target])
    demo_node_attr (Tensor 2 [[1; 0]; [0; 1]]) demo_edge_weight demo_node_attr demo_world
  = Err cat_error.
Proof.
  destruct (X8_row_count_mismatch (B := ZBackend) demo_conv
              (NNImpl.Build demo_conv demo_conv (MLPImpl.Build []) 2) 3
              demo_source demo_target demo_node_attr (Tensor 2 [[1; 0]; [0; 1]])
              demo_edge_weight demo_node_attr demo_world) as [Hrows _];
    [repeat constructor|].
  apply Hrows. discriminate.
Defined.

Lemma X9_missing_index_rows_witness :
  GATConvImpl.forward demo_conv (Tensor 3 []) demo_node_attr demo_edge_attr
    demo_edge_weight demo_node_attr demo_world = Err row_error.
Proof.
  destruct (X9_missing_index_rows (B := ZBackend) demo_conv
              (NNImpl.Build demo_conv demo_conv (MLPImpl.Build []) 2) (Tensor 3 [])
              demo_node_attr demo_edge_attr demo_edge_weight demo_node_attr demo_world)
    as (_ & _ & Hnone); [unfold size0; simpl; lia|].
  apply Hnone. reflexivity.
Defined.

Lemma demo_isolated_input :
  valid_input (B := ZBackend) demo_source demo_target demo_isolated_attr demo_edge_attr
    demo_edge_weight demo_isolated_attr.
Proof.
  split; [exact demo_graph_shape| | | |reflexivity]; repeat constructor.
Defined.

Lemma X10_isolated_node_witness :
  exists c w1,
    GATConvImpl.forward demo_conv (Tensor 3 [demo_source; demo_target])
      demo_isolated_attr demo_edge_attr demo_edge_weight demo_isolated_attr demo_world
    = MLPImpl.forward (GATConvImpl.mlp demo_conv) c w1
    /\ data c !! 4%nat = Some ([2; 0; 2] ++ [2; 0; 2] ++ replicate 20 0).
Proof.
  destruct (X10_isolated_node (B := ZBackend) demo_conv 3 demo_source demo_target
              demo_isolated_attr demo_edge_attr demo_edge_weight demo_isolated_attr
              demo_world 4 [2; 0; 2] [2; 0; 2] demo_isolated_input)
    as (c & w1 & Hf & Hc & _); [| |reflexivity|reflexivity|].
  - intros H. repeat (apply elem_of_cons in H as [H|H]; [discriminate H|]).
    by apply elem_of_nil in H.
  - intros H. repeat (apply elem_of_cons in H as [H|H]; [discriminate H|]).
    by apply elem_of_nil in H.
  - exists c, w1. split; [exact Hf|exact Hc].
Defined.

Lemma X11_generated_graph_witness :
  exists source target edge_features,
    Main.make_graph (B := ZBackend) demo_node_attr demo_adjacency
    = Ok (Main.Graph demo_node_attr (Tensor (length source) [source; target])
            edge_features (ones (length source) 1))
    /\ valid_input source target demo_node_attr edge_features
         (ones (length source) 1) demo_node_attr
    /\ NoDup (zip source target).
Proof.
  destruct (X11_generated_graph (B := ZBackend) demo_node_attr demo_adjacency)
    as (source & target & edge_features & Hm & Hv & _ & _ & Hnd & _);
    [repeat constructor|reflexivity|].
  exists source, target, edge_features. split; [exact Hm|]. split; [exact Hv|exact Hnd].
Defined.

Lemma X12_main_forward_witness :
  exists net w1 g y w',
    Main.model (B := ZBackend) demo_world = Ok (net, w1)
    /\ Main.make_graph demo_node_attr demo_adjacency = Ok g
    /\ Main.predict net g demo_world = Ok (y, w')
    /\ size0 y = size1 (Main.graph_edge_index g) /\ size1 y = 1%nat
    /\ length (trace w') = 6%nat.
Proof.
  apply (X12_main_forward (B := ZBackend) demo_node_attr demo_adjacency demo_world
           demo_world);
    [repeat constructor|reflexivity|reflexivity].
Defined.
